(** * sfcc-to-shopify-images: view classification and manifest pipeline

    A shallow embedding of the Node script that turns an SFCC catalog export
    into a Shopify image manifest.  The repository holds three revisions of
    the same script:

    - [src/unnamed/part_000]: the oldest one ([views] is a [Set], the output
      copier searches the image list, the start-up checks call
      [process.exit(1)]);
    - [src/index.js] and [src/unnamed/part_001]: the later ones ([views] is a
      [Map], the copier iterates the map, the start-up creates directories).

    Code that is identical in all revisions ([sanitizeText],
    [extractImageView], the sort comparator, the body of
    [generateMatrixifyCSV]) is embedded once; code that differs lives in the
    modules [Rev0] and [Rev1].  The style filter and catalog stage of
    part_001 is embedded over the parsed document tree of each catalog.

    Strings: a JavaScript string is a sequence of UTF-16 code units.  The
    model uses [string], whose characters stand for the code units below 256
    (Latin-1).  Code units above that range are outside the modelled domain.
*)

From Stdlib Require Import String Ascii List Bool Arith NArith ZArith Lia.
From Stdlib Require Import DecimalString DecimalPos Sorted Permutation.
Import ListNotations.

Open Scope list_scope.
Open Scope string_scope.
Open Scope nat_scope.

(* ================================================================== *)
(** ** JavaScript string primitives used by the script *)
(* ================================================================== *)

Module JS.

Definition code (c : ascii) : nat := nat_of_ascii c.

Definition inRange (lo hi : nat) (c : ascii) : bool :=
  (lo <=? code c) && (code c <=? hi).

(** [String.prototype.toLowerCase], code units below 256: A-Z and the
    Latin-1 capitals U+00C0..U+00DE except U+00D7 move up by 32. *)
Definition lowerChar (c : ascii) : ascii :=
  if inRange 65 90 c || (inRange 192 222 c && negb (code c =? 215))
  then ascii_of_nat (code c + 32)
  else c.

Fixpoint mapChars (f : ascii -> ascii) (s : string) : string :=
  match s with
  | EmptyString => EmptyString
  | String c t => String (f c) (mapChars f t)
  end.

Definition toLowerCase (s : string) : string := mapChars lowerChar s.

(** WhiteSpace and LineTerminator code units below 256, as [trim] and the
    regular expression class [\s] see them. *)
Definition isWhiteSpace (c : ascii) : bool :=
  inRange 9 13 c || (code c =? 32) || (code c =? 160).

Fixpoint dropWhile (p : ascii -> bool) (s : string) : string :=
  match s with
  | EmptyString => EmptyString
  | String c t => if p c then dropWhile p t else s
  end.

Fixpoint dropWhileEnd (p : ascii -> bool) (s : string) : string :=
  match s with
  | EmptyString => EmptyString
  | String c t =>
      match dropWhileEnd p t with
      | EmptyString => if p c then EmptyString else String c EmptyString
      | r => String c r
      end
  end.

(** [s.trim()] *)
Definition trim (s : string) : string :=
  dropWhileEnd isWhiteSpace (dropWhile isWhiteSpace s).

(** Truthiness of a string value: the empty string is falsy. *)
Definition truthy (s : string) : bool :=
  match s with EmptyString => false | _ => true end.

(** [s.startsWith(p)] *)
Definition startsWith (s p : string) : bool := String.prefix p s.

(** [s.endsWith(p)] *)
Fixpoint endsWith (s p : string) : bool :=
  (s =? p)%string ||
  match s with
  | EmptyString => false
  | String _ t => endsWith t p
  end.

(** [s.slice(n)] for [0 <= n] *)
Definition sliceFrom (n : nat) (s : string) : string :=
  substring n (String.length s - n) s.

(** [s.slice(0, -k)] for [0 < k] *)
Definition dropLast (k : nat) (s : string) : string :=
  substring 0 (String.length s - k) s.

(** [s.slice(a, b)] for [0 <= a] and [0 <= b] *)
Definition slice (a b : nat) (s : string) : string :=
  substring a (Nat.min b (String.length s) - a) s.

(** [s.includes(c)] for a one-character needle *)
Fixpoint includesChar (c : ascii) (s : string) : bool :=
  match s with
  | EmptyString => false
  | String d t => (d =? c)%char || includesChar c t
  end.

(** [s.split(c)] for a one-character separator *)
Fixpoint split (sep : ascii) (s : string) : list string :=
  match s with
  | EmptyString => [EmptyString]
  | String c t =>
      if (c =? sep)%char then EmptyString :: split sep t
      else match split sep t with
           | h :: r => String c h :: r
           | [] => [String c EmptyString]
           end
  end.

(** [s.split(/\r?\n/)] *)
Fixpoint splitLines (s : string) : list string :=
  match s with
  | EmptyString => [EmptyString]
  | String c t =>
      let cons_char :=
        match splitLines t with
        | h :: r => String c h :: r
        | [] => [String c EmptyString]
        end in
      if (c =? "010")%char then EmptyString :: splitLines t
      else if (c =? "013")%char then
        match t with
        | String d t' =>
            if (d =? "010")%char then EmptyString :: splitLines t'
            else cons_char
        | EmptyString => cons_char
        end
      else cons_char
  end.

(** [s.replace(needle, '')] for a string needle: the first occurrence goes. *)
Fixpoint removeFirst (needle s : string) : string :=
  if String.prefix needle s then sliceFrom (String.length needle) s
  else match s with
       | EmptyString => EmptyString
       | String c t => String c (removeFirst needle t)
       end.

(** [s.includes(needle)] *)
Fixpoint includes (s needle : string) : bool :=
  String.prefix needle s ||
  match s with
  | EmptyString => false
  | String _ t => includes t needle
  end.

(** [l.join(sep)] *)
Definition join (sep : string) (l : list string) : string :=
  String.concat sep l.

(** A number that is a non-negative integer, as a template literal prints
    it. *)
Definition numberToString (n : N) : string :=
  NilEmpty.string_of_uint (N.to_uint n).

Definition isDigit (c : ascii) : bool := inRange 48 57 c.

(** The double quote character and the one-character string holding it. *)
Definition dquoteChar : ascii := ascii_of_nat 34.
Definition dquote : string := String dquoteChar EmptyString.

End JS.

(* ================================================================== *)
(** ** Node's [path] module (POSIX flavour) *)
(* ================================================================== *)

(** The script uses [path.sep], [path.dirname], [path.basename],
    [path.extname] and [path.join].  They belong to Node, not to the
    repository; the classifier is written against this interface, and
    [Posix.path] below follows Node's [path.posix] algorithms. *)
Class NodePath := {
  sep : ascii;
  dirname : string -> string;
  basename : string -> string -> string;
  extname : string -> string;
  pjoin : list string -> string
}.

Module Posix.

Definition isSlash (o : option ascii) : bool :=
  match o with Some c => (c =? "/")%char | None => false end.

Definition isDot (o : option ascii) : bool :=
  match o with Some c => (c =? ".")%char | None => false end.

(** The loop of [dirname]: [i] runs from [path.length - 1] down to 1; the
    result is [end], [None] standing for -1. *)
Fixpoint dirnameLoop (p : string) (i : nat) (matchedSlash : bool) : option nat :=
  match i with
  | 0 => None
  | S i' =>
      if isSlash (String.get i p) then
        if matchedSlash then dirnameLoop p i' true else Some i
      else dirnameLoop p i' false
  end.

Definition posixDirname (p : string) : string :=
  if String.length p =? 0 then "."
  else
    let hasRoot := isSlash (String.get 0 p) in
    match dirnameLoop p (String.length p - 1) true with
    | None => if hasRoot then "/" else "."
    | Some e => if hasRoot && (e =? 1) then "//" else JS.slice 0 e p
    end.

(** The loop of [basename] without a suffix: the counter [n] is [i + 1].
    Returns [(start, end)], [end = None] standing for -1. *)
Fixpoint basenameLoop (p : string) (n : nat) (matchedSlash : bool)
    (e : option nat) : nat * option nat :=
  match n with
  | 0 => (0, e)
  | S i =>
      if isSlash (String.get i p) then
        if matchedSlash then basenameLoop p i matchedSlash e else (i + 1, e)
      else
        match e with
        | None => basenameLoop p i false (Some (i + 1))
        | Some _ => basenameLoop p i matchedSlash e
        end
  end.

Record extScan := {
  bStart : nat;
  bEnd : Z;
  bMatchedSlash : bool;
  bExtIdx : Z;
  bFirstNonSlashEnd : Z
}.

(** The loop of [basename] with a suffix to strip. *)
Fixpoint basenameExtLoop (p suffix : string) (n : nat) (st : extScan) : extScan :=
  match n with
  | 0 => st
  | S i =>
      let c := String.get i p in
      if isSlash c then
        if negb (bMatchedSlash st) then
          {| bStart := i + 1; bEnd := bEnd st; bMatchedSlash := bMatchedSlash st;
             bExtIdx := bExtIdx st; bFirstNonSlashEnd := bFirstNonSlashEnd st |}
        else basenameExtLoop p suffix i st
      else
        let st1 :=
          if (bFirstNonSlashEnd st =? -1)%Z then
            {| bStart := bStart st; bEnd := bEnd st; bMatchedSlash := false;
               bExtIdx := bExtIdx st; bFirstNonSlashEnd := Z.of_nat i + 1 |}
          else st in
        let st2 :=
          if (0 <=? bExtIdx st1)%Z then
            if match c, String.get (Z.to_nat (bExtIdx st1)) suffix with
               | Some a, Some b => (a =? b)%char
               | _, _ => false
               end
            then
              let e := (bExtIdx st1 - 1)%Z in
              {| bStart := bStart st1;
                 bEnd := if (e =? -1)%Z then Z.of_nat i else bEnd st1;
                 bMatchedSlash := bMatchedSlash st1;
                 bExtIdx := e; bFirstNonSlashEnd := bFirstNonSlashEnd st1 |}
            else
              {| bStart := bStart st1; bEnd := bFirstNonSlashEnd st1;
                 bMatchedSlash := bMatchedSlash st1;
                 bExtIdx := (-1)%Z; bFirstNonSlashEnd := bFirstNonSlashEnd st1 |}
          else st1 in
        basenameExtLoop p suffix i st2
  end.

Definition posixBasename (p suffix : string) : string :=
  if (0 <? String.length suffix) && (String.length suffix <=? String.length p) then
    if (suffix =? p)%string then ""
    else
      let st := basenameExtLoop p suffix (String.length p)
                  {| bStart := 0; bEnd := (-1)%Z; bMatchedSlash := true;
                     bExtIdx := Z.of_nat (String.length suffix) - 1;
                     bFirstNonSlashEnd := (-1)%Z |} in
      let e :=
        if (Z.of_nat (bStart st) =? bEnd st)%Z then bFirstNonSlashEnd st
        else if (bEnd st =? -1)%Z then Z.of_nat (String.length p)
        else bEnd st in
      JS.slice (bStart st) (Z.to_nat e) p
  else
    match basenameLoop p (String.length p) true None with
    | (_, None) => ""
    | (s, Some e) => JS.slice s e p
    end.

Record dotScan := {
  xStartDot : Z;
  xStartPart : nat;
  xEnd : Z;
  xMatchedSlash : bool;
  xPreDotState : Z
}.

(** The loop of [extname]. *)
Fixpoint extnameLoop (p : string) (n : nat) (st : dotScan) : dotScan :=
  match n with
  | 0 => st
  | S i =>
      let c := String.get i p in
      if isSlash c then
        if negb (xMatchedSlash st) then
          {| xStartDot := xStartDot st; xStartPart := i + 1; xEnd := xEnd st;
             xMatchedSlash := xMatchedSlash st; xPreDotState := xPreDotState st |}
        else extnameLoop p i st
      else
        let st1 :=
          if (xEnd st =? -1)%Z then
            {| xStartDot := xStartDot st; xStartPart := xStartPart st;
               xEnd := Z.of_nat i + 1; xMatchedSlash := false;
               xPreDotState := xPreDotState st |}
          else st in
        let st2 :=
          if isDot c then
            if (xStartDot st1 =? -1)%Z then
              {| xStartDot := Z.of_nat i; xStartPart := xStartPart st1;
                 xEnd := xEnd st1; xMatchedSlash := xMatchedSlash st1;
                 xPreDotState := xPreDotState st1 |}
            else if negb (xPreDotState st1 =? 1)%Z then
              {| xStartDot := xStartDot st1; xStartPart := xStartPart st1;
                 xEnd := xEnd st1; xMatchedSlash := xMatchedSlash st1;
                 xPreDotState := 1%Z |}
            else st1
          else if negb (xStartDot st1 =? -1)%Z then
            {| xStartDot := xStartDot st1; xStartPart := xStartPart st1;
               xEnd := xEnd st1; xMatchedSlash := xMatchedSlash st1;
               xPreDotState := (-1)%Z |}
          else st1 in
        extnameLoop p i st2
  end.

Definition posixExtname (p : string) : string :=
  let st := extnameLoop p (String.length p)
              {| xStartDot := (-1)%Z; xStartPart := 0; xEnd := (-1)%Z;
                 xMatchedSlash := true; xPreDotState := 0%Z |} in
  if (xStartDot st =? -1)%Z || (xEnd st =? -1)%Z || (xPreDotState st =? 0)%Z
     || ((xPreDotState st =? 1)%Z && (xStartDot st =? xEnd st - 1)%Z
         && (xStartDot st =? Z.of_nat (xStartPart st) + 1)%Z)
  then ""
  else JS.slice (Z.to_nat (xStartDot st)) (Z.to_nat (xEnd st)) p.

(** [normalizeString] on the segments of a path: empty and [.] segments are
    dropped, [..] removes the segment before it when there is one that is
    not itself [..].  The stack holds the kept segments, last one first. *)
Definition normalizeStep (allowAboveRoot : bool) (stack : list string)
    (seg : string) : list string :=
  if (seg =? "")%string || (seg =? ".")%string then stack
  else if (seg =? "..")%string then
    match stack with
    | top :: rest =>
        if (top =? "..")%string
        then (if allowAboveRoot then ".." :: stack else stack)
        else rest
    | [] => if allowAboveRoot then [".."] else []
    end
  else seg :: stack.

Definition posixNormalize (p : string) : string :=
  if String.length p =? 0 then "."
  else
    let isAbsolute := isSlash (String.get 0 p) in
    let trailingSeparator := isSlash (String.get (String.length p - 1) p) in
    let segs := rev (fold_left (normalizeStep (negb isAbsolute)) (JS.split "/" p) []) in
    let body := JS.join "/" segs in
    if String.length body =? 0 then
      (if isAbsolute then "/" else if trailingSeparator then "./" else ".")
    else
      let body' := if trailingSeparator then body ++ "/" else body in
      if isAbsolute then "/" ++ body' else body'.

Definition posixJoin (args : list string) : string :=
  match filter JS.truthy args with
  | [] => "."
  | parts => posixNormalize (JS.join "/" parts)
  end.

#[export] Instance path : NodePath := {|
  sep := "/"%char;
  dirname := posixDirname;
  basename := posixBasename;
  extname := posixExtname;
  pjoin := posixJoin
|}.

End Posix.

(* ================================================================== *)
(** ** Module-level constants and [sanitizeText] *)
(* ================================================================== *)

(** [sanitizeText]: the replacements of U+2019, U+201C, U+201D and of the
    zero-width characters U+200B..U+200D, U+FEFF act on code units above 255
    and are the identity on the modelled strings; the control characters
    U+0000..U+001F and U+007F..U+009F are removed; the result is trimmed. *)
Definition isControl (c : ascii) : bool :=
  JS.inRange 0 31 c || JS.inRange 127 159 c.

Fixpoint removeChars (p : ascii -> bool) (s : string) : string :=
  match s with
  | EmptyString => EmptyString
  | String c t => if p c then removeChars p t else String c (removeChars p t)
  end.

Definition sanitizeText (str : string) : string :=
  JS.trim (removeChars isControl str).

(** [viewLabelMap[view]]: the own properties of the object literal, then the
    properties every object literal inherits from [Object.prototype].  The
    value is given as the string the later template literal prints. *)
Definition viewLabelMap : list (string * string) :=
  [ ("2", "outsole"); ("3", "front"); ("4", "back");
    ("5", "instep_profile"); ("6", "birdseye");
    ("8", "profile"); ("9", "lifestyle") ].

Definition nativeFunction (name : string) : string :=
  "function " ++ name ++ "() { [native code] }".

Definition objectPrototype : list (string * string) :=
  [ ("constructor", nativeFunction "Object");
    ("__defineGetter__", nativeFunction "__defineGetter__");
    ("__defineSetter__", nativeFunction "__defineSetter__");
    ("hasOwnProperty", nativeFunction "hasOwnProperty");
    ("__lookupGetter__", nativeFunction "__lookupGetter__");
    ("__lookupSetter__", nativeFunction "__lookupSetter__");
    ("isPrototypeOf", nativeFunction "isPrototypeOf");
    ("propertyIsEnumerable", nativeFunction "propertyIsEnumerable");
    ("toString", nativeFunction "toString");
    ("valueOf", nativeFunction "valueOf");
    ("__proto__", "[object Object]");
    ("toLocaleString", nativeFunction "toLocaleString") ].

Fixpoint assoc {A : Type} (k : string) (l : list (string * A)) : option A :=
  match l with
  | [] => None
  | (k', v) :: r => if (k' =? k)%string then Some v else assoc k r
  end.

Definition viewLabelMapGet (view : string) : option string :=
  match assoc view viewLabelMap with
  | Some v => Some v
  | None => assoc view objectPrototype
  end.

Definition ignoredFolders : list string := ["spins"; "spin"; "swatch"].

Definition sizeLabels : list string :=
  ["extralarge"; "large"; "regular"; "thumbnail"].

(** [l.includes(x)] on an array of strings *)
Definition includes (l : list string) (x : string) : bool :=
  existsb (fun y => (y =? x)%string) l.

(** What [sharp(file).metadata()] resolves to. *)
Record Metadata := { width : N; height : N }.

(* ================================================================== *)
(** ** The view classifier: [extractImageView] *)
(* ================================================================== *)

Section Classifier.

Context {P : NodePath}.

(** [imagesDir] and the outcome of the dimension probe per file; [None] is a
    rejected promise (or a throwing constructor), caught by the [try]. *)
Variable imagesDir : string.
Variable sharpMetadata : string -> option Metadata.

(** [path.dirname(imagePath).split(path.sep).pop().toLowerCase()] *)
Definition folderNameOf (imagePath : string) : string :=
  JS.toLowerCase (last (JS.split sep (dirname imagePath)) "").

Definition baseFolderOf (folderName : string) : string :=
  if includes ignoredFolders folderName then "default"
  else if includes ["gray"; "white"] folderName then folderName
  else "default".

(** The [for (const label of sizeLabels)] loop with its [break]. *)
Fixpoint stripSizeLabel (labels : list string) (view : string) : string :=
  match labels with
  | [] => view
  | label :: rest =>
      if JS.endsWith view label
      then JS.dropWhileEnd (fun c => (c =? "_")%char)
             (JS.dropLast (String.length label) view)
      else stripSizeLabel rest view
  end.

(** [base.replace(/^_/, '')] *)
Definition dropLeadingUnderscore (s : string) : string :=
  match s with
  | String c t => if (c =? "_")%char then t else s
  | EmptyString => s
  end.

(** The value of [view] when the template literal is reached. *)
Definition viewOf (productId imagePath : string) : string :=
  let ext := extname imagePath in
  let fileName := basename imagePath ext in
  let base := if JS.startsWith fileName productId
              then JS.sliceFrom (String.length productId) fileName
              else fileName in
  let view := JS.toLowerCase (dropLeadingUnderscore base) in
  let view := stripSizeLabel sizeLabels view in
  let view := if negb (JS.truthy view) || (JS.trim view =? "")%string
              then "main" else view in
  match viewLabelMapGet view with
  | Some label => label
  | None => view
  end.

(** [viewName.replace(/-/g, '_')] *)
Definition dashesToUnderscores (s : string) : string :=
  JS.mapChars (fun c => if (c =? "-")%char then "_"%char else c) s.

Definition extractImageView (productId imagePath : string) : string :=
  let baseFolder := baseFolderOf (folderNameOf imagePath) in
  let imageFullPath := pjoin [imagesDir; "images"; imagePath] in
  let imageDimensions :=
    match sharpMetadata imageFullPath with
    | Some metadata =>
        JS.numberToString (width metadata) ++ "x" ++ JS.numberToString (height metadata)
    | None => ""
    end in
  let view := viewOf productId imagePath in
  let viewName :=
    if JS.truthy imageDimensions
    then baseFolder ++ "-" ++ view ++ "-" ++ imageDimensions
    else baseFolder ++ "-" ++ view in
  dashesToUnderscores viewName.

End Classifier.

(* ================================================================== *)
(** ** Containers: [Map], [Set] and [Array.prototype.sort] *)
(* ================================================================== *)

(** A JavaScript [Map] with string keys iterates in the order in which the
    keys were first set; setting a key that is present replaces its value in
    place. *)
Definition JSMap (V : Type) := list (string * V).

Fixpoint mapSet {V : Type} (k : string) (v : V) (m : JSMap V) : JSMap V :=
  match m with
  | [] => [(k, v)]
  | (k', v') :: r =>
      if (k' =? k)%string then (k', v) :: r else (k', v') :: mapSet k v r
  end.

Definition mapGet {V : Type} (k : string) (m : JSMap V) : option V := assoc k m.

Definition mapKeys {V : Type} (m : JSMap V) : list string := map fst m.

(** A JavaScript [Set] of strings, in insertion order. *)
Definition setAdd (k : string) (s : list string) : list string :=
  if includes s k then s else s ++ [k].

(** [Array.prototype.sort(comparefn)] is stable, and for a comparator that is
    a consistent ordering its result is the one stable sorted arrangement;
    insertion from the right computes it. *)
Section Sort.

Context {A : Type}.
Variable cmp : A -> A -> Z.

Fixpoint insertSorted (x : A) (l : list A) : list A :=
  match l with
  | [] => [x]
  | y :: r => if (cmp x y <=? 0)%Z then x :: y :: r else y :: insertSorted x r
  end.

Fixpoint arraySort (l : list A) : list A :=
  match l with
  | [] => []
  | x :: r => insertSorted x (arraySort r)
  end.

End Sort.

(** [l.indexOf(x)], -1 when absent *)
Fixpoint indexOf (l : list string) (x : string) : Z :=
  match l with
  | [] => (-1)%Z
  | y :: r =>
      if (y =? x)%string then 0%Z
      else let i := indexOf r x in
           if (i =? -1)%Z then (-1)%Z else (i + 1)%Z
  end.

(* ================================================================== *)
(** ** Products *)
(* ================================================================== *)

(** An element of [productImagesAvailable]; [views] is absent before
    [processProductViews] ran ([V := unit]), a [Map] from view to image path
    in the later revisions, an array of views in the oldest one. *)
Record Product (V : Type) := {
  productId : string;
  images : list string;
  xmlFileName : string;
  views : V
}.

Arguments productId {V} _.
Arguments images {V} _.
Arguments xmlFileName {V} _.
Arguments views {V} _.

Definition withViews {V W : Type} (p : Product V) (w : W) : Product W :=
  {| productId := productId p; images := images p;
     xmlFileName := xmlFileName p; views := w |}.

(** [`${productId}_${view}.jpg`] *)
Definition outputFileName (productId view : string) : string :=
  productId ++ "_" ++ view ++ ".jpg".

(* ================================================================== *)
(** ** The inventory aggregator: the sort of [exportViewCSV] *)
(* ================================================================== *)

Record Entry := { filename : string; view : string }.

Definition defaultPreferredOrder : list string :=
  ["main"; "lifestyle"; "outsole"; "profile"; "front"; "back";
   "instep_profile"; "birdseye"].

Definition grayPreferredOrder : list string :=
  ["profile"; "lifestyle"; "main"; "instep_profile"; "doubleheel";
   "doublequarter"; "outsole"].

(** [s.replace(/^(gray_|default_|white_)/, '')] *)
Definition stripBucketPrefix (s : string) : string :=
  if JS.startsWith s "gray_" then JS.sliceFrom 5 s
  else if JS.startsWith s "default_" then JS.sliceFrom 8 s
  else if JS.startsWith s "white_" then JS.sliceFrom 6 s
  else s.

Fixpoint allDigits (s : string) : bool :=
  match s with
  | EmptyString => true
  | String c t => JS.isDigit c && allDigits t
  end.

(** Does [s] match [\d+x\d+$] from its start? *)
Fixpoint matchesDims (seenDigit : bool) (s : string) : bool :=
  match s with
  | EmptyString => false
  | String c t =>
      if JS.isDigit c then matchesDims true t
      else seenDigit && (c =? "x")%char && JS.truthy t && allDigits t
  end.

(** Does [s] match [_\d+x\d+$] from its start? *)
Definition matchesDimSuffix (s : string) : bool :=
  match s with
  | String c t => (c =? "_")%char && matchesDims false t
  | EmptyString => false
  end.

(** [s.replace(/_\d+x\d+$/, '')]: the leftmost position where the pattern
    matches up to the end of the string. *)
Fixpoint stripDimSuffix (s : string) : string :=
  if matchesDimSuffix s then EmptyString
  else match s with
       | EmptyString => EmptyString
       | String c t => String c (stripDimSuffix t)
       end.

(** The semantic view token the comparator looks up. *)
Definition semanticView (v : string) : string :=
  stripDimSuffix (stripBucketPrefix v).

(** The row template: the product id and the two joined lists, each between
    double quotes, separated by commas. *)
Definition inventoryLine (productId : string) (nonGray gray : list Entry) : string :=
  let nonGrayCell := JS.join ", " (map filename nonGray) in
  let grayCell := JS.join ", " (map filename gray) in
  JS.dquote ++ productId ++ JS.dquote ++ "," ++ JS.dquote ++ nonGrayCell ++ JS.dquote
  ++ "," ++ JS.dquote ++ grayCell ++ JS.dquote.

Definition inventoryHeader : string :=
  JS.join "," ["productId"; "nonGrayImageFileNames"; "grayImageFileNames"].

Section Aggregator.

(** [String.prototype.localeCompare] of the host, with its default locale:
    negative, zero or positive. *)
Variable localeCompare : string -> string -> Z.

(** The comparator handed to [sort]. *)
Definition compareEntries (preferredOrder : list string) (a b : Entry) : Z :=
  let viewA := semanticView (view a) in
  let viewB := semanticView (view b) in
  let indexA := indexOf preferredOrder viewA in
  let indexB := indexOf preferredOrder viewB in
  if (indexA =? -1)%Z && (indexB =? -1)%Z then localeCompare (view a) (view b)
  else if (indexA =? -1)%Z then 1%Z
  else if (indexB =? -1)%Z then (-1)%Z
  else (indexA - indexB)%Z.

Definition sortEntries (preferredOrder : list string) (l : list Entry) : list Entry :=
  arraySort (compareEntries preferredOrder) l.

(** The two lists [exportViewCSV] builds for one product of the later
    revisions, before sorting ... *)
Definition entriesOf (productId : string) (vs : JSMap string) : list Entry :=
  map (fun kv => {| filename := outputFileName productId (fst kv); view := fst kv |}) vs.

Definition isGray (e : Entry) : bool := JS.startsWith (view e) "gray_".

Definition grayEntries (p : Product (JSMap string)) : list Entry :=
  filter isGray (entriesOf (productId p) (views p)).

Definition nonGrayEntries (p : Product (JSMap string)) : list Entry :=
  filter (fun e => negb (isGray e)) (entriesOf (productId p) (views p)).

(** ... and after it. *)
Definition grayList (p : Product (JSMap string)) : list Entry :=
  sortEntries grayPreferredOrder (grayEntries p).

Definition nonGrayList (p : Product (JSMap string)) : list Entry :=
  sortEntries defaultPreferredOrder (nonGrayEntries p).

(** One line of the inventory CSV. *)
Definition inventoryRow (p : Product (JSMap string)) : string :=
  inventoryLine (productId p) (nonGrayList p) (grayList p).

(** The text [exportViewCSV] writes. *)
Definition inventoryCsv (products : list (Product (JSMap string))) : string :=
  JS.join (String "010" "") (inventoryHeader :: map inventoryRow products).

End Aggregator.

(* ================================================================== *)
(** ** The Shopify manifest generator: the pure part of
       [generateMatrixifyCSV] *)
(* ================================================================== *)

Record StyleInfo := { id : string; title : string }.

(** The style map read from [shopify-styles/..._styles.csv]. *)
Definition parseStyleMap (styleMapContent : string) : JSMap StyleInfo :=
  let lines := filter (fun line => JS.truthy (JS.trim line))
                 (JS.splitLines styleMapContent) in
  fold_left
    (fun styleMap line =>
       match map JS.trim (JS.split "," line) with
       | i :: t :: style :: _ =>
           if JS.truthy style
           then mapSet style {| id := i; title := t |} styleMap
           else styleMap
       | _ => styleMap
       end)
    (tl lines) [].

(** [row.split(...)] with the look-ahead pattern of the script (written
    here with Q for the double quote): [/,(?=(?:(?:[^Q]*Q){2})*[^Q]*$)/].
    A comma separates two fields when an even number of double quotes
    follows it.  The boolean is the parity of the quotes of the whole
    argument ([true]: even). *)
Fixpoint splitOutsideQuotes (s : string) : list string * bool :=
  match s with
  | EmptyString => ([EmptyString], true)
  | String c t =>
      let (fields, even) := splitOutsideQuotes t in
      if (c =? ",")%char && even then (EmptyString :: fields, even)
      else
        (match fields with
         | h :: r => String c h :: r
         | [] => [String c EmptyString]
         end,
         if (c =? JS.dquoteChar)%char then negb even else even)
  end.

(** [s.replace(/^Q|Q$/g, '')], Q being the double quote: one leading and
    one trailing quote go. *)
Definition stripQuotes (s : string) : string :=
  let s1 := match s with
            | String c t => if (c =? JS.dquoteChar)%char then t else s
            | EmptyString => s
            end in
  if JS.endsWith s1 JS.dquote then JS.dropLast 1 s1 else s1.

Definition parseInventoryRow (row : string) : list string :=
  map (fun s => JS.trim (stripQuotes s)) (fst (splitOutsideQuotes row)).

Record ManifestRow := {
  rowID : string;
  rowImageType : string;
  rowImageSrc : string;
  rowImageCommand : string;
  rowPosition : N;
  rowWidth : string;
  rowHeight : string;
  rowAltText : string;
  rowStyle : string
}.

(** What the body of the inner loop derives from a file name:
    [parts[parts.length - 2]] (absent for a name without underscore),
    [dimPart], [width] and [height]. *)
Definition viewTokenOf (trimmed : string) : option string :=
  let parts := JS.split "_" trimmed in
  if length parts <? 2 then None else nth_error parts (length parts - 2).

Definition dimPartOf (trimmed : string) : string :=
  JS.removeFirst ".jpg" (last (JS.split "_" trimmed) "").

Definition dimensionsOf (dimPart : string) : string * string :=
  if JS.includesChar "x" dimPart
  then (nth 0 (JS.split "x" dimPart) "", nth 1 (JS.split "x" dimPart) "")
  else ("", "").

(** One pass through the inner loop for a non-blank [trimmed], at counter
    value [position]: the row pushed and the next counter value.  [None] is
    the [TypeError] of [sanitizeText(undefined)]. *)
Definition imageRow (productInfo : StyleInfo) (style : string) (position : N)
    (trimmed : string) : option (ManifestRow * N) :=
  let dimPart := dimPartOf trimmed in
  match viewTokenOf trimmed with
  | None => None
  | Some v =>
      let (w, h) := dimensionsOf dimPart in
      let cleanView := sanitizeText v in
      let viewText := if (cleanView =? "default")%string then "" else " - " ++ cleanView in
      let cleanTitle := sanitizeText (title productInfo) in
      let altText := cleanTitle ++ viewText in
      let positionField := position in
      let position := (position + 1)%N in
      Some ({| rowID := id productInfo; rowImageType := "IMAGE";
               rowImageSrc := trimmed; rowImageCommand := "REPLACE";
               rowPosition := positionField; rowWidth := w; rowHeight := h;
               rowAltText := altText;
               rowStyle := if (position =? 2)%N then style else "" |},
            position)
  end.

(** The inner loop [for (const image of imageList)]. *)
Fixpoint imageRows (productInfo : StyleInfo) (style : string) (position : N)
    (imageList : list string) : option (list ManifestRow) :=
  match imageList with
  | [] => Some []
  | image :: rest =>
      let trimmed := JS.trim image in
      if negb (JS.truthy trimmed) then imageRows productInfo style position rest
      else
        match imageRow productInfo style position trimmed with
        | None => None
        | Some (r, position') =>
            match imageRows productInfo style position' rest with
            | None => None
            | Some rs => Some (r :: rs)
            end
        end
  end.

(** [grayListRaw ? grayListRaw.split(',') : nonGrayListRaw.split(',')];
    a missing field is [undefined], and [undefined.split] throws. *)
Definition chooseImageList (nonGrayListRaw grayListRaw : option string)
    : option (list string) :=
  match grayListRaw with
  | Some g =>
      if JS.truthy g then Some (JS.split "," g)
      else option_map (JS.split ",") nonGrayListRaw
  | None => option_map (JS.split ",") nonGrayListRaw
  end.

(** The rows one line of the inventory CSV contributes. *)
Definition rowsOfInventoryRow (styleMap : JSMap StyleInfo) (row : string)
    : option (list ManifestRow) :=
  if negb (JS.truthy (JS.trim row)) then Some []
  else
    let fields := parseInventoryRow row in
    let style := nth 0 fields "" in
    match mapGet style styleMap with
    | None => Some []
    | Some productInfo =>
        match chooseImageList (nth_error fields 1) (nth_error fields 2) with
        | None => None
        | Some imageList => imageRows productInfo style 1 imageList
        end
    end.

Fixpoint manifestRows (styleMap : JSMap StyleInfo) (rows : list string)
    : option (list ManifestRow) :=
  match rows with
  | [] => Some []
  | row :: rest =>
      match rowsOfInventoryRow styleMap row with
      | None => None
      | Some here =>
          match manifestRows styleMap rest with
          | None => None
          | Some later => Some (here ++ later)%list
          end
      end
  end.

Definition manifestHeader : list string :=
  ["ID"; "Image Type"; "Image Src"; "Image Command"; "Image Position";
   "Image Width"; "Image Height"; "Image Alt Text"; "Style"].

Definition manifestCells (r : ManifestRow) : list string :=
  [rowID r; rowImageType r; rowImageSrc r; rowImageCommand r;
   JS.numberToString (rowPosition r); rowWidth r; rowHeight r; rowAltText r;
   rowStyle r].

Definition quoteCell (f : string) : string := JS.dquote ++ f ++ JS.dquote.

(** The text of the manifest for a style map file and an inventory file. *)
Definition manifestCsv (styleMapContent inventoryContent : string) : option string :=
  let styleMap := parseStyleMap styleMapContent in
  let rows := tl (JS.splitLines inventoryContent) in
  match manifestRows styleMap rows with
  | None => None
  | Some output =>
      Some (JS.join (String "010" "")
              (map (fun r => JS.join "," (map quoteCell r))
                 (manifestHeader :: map manifestCells output)))
  end.

(* ================================================================== *)
(** ** The file store, the console and the script monad *)
(* ================================================================== *)

(** The file store: the directories that exist and the files with their
    contents, both under the path strings [path.join] produces. *)
Record FS := { dirs : list string; files : list (string * string) }.

Inductive Level := LOG | INFO | WARN | ERROR.

(** What a run does to the outside, in order.  Console lines carry their
    severity and text; the time stamp and the pictographs of the messages are
    left out. *)
Inductive Event :=
| Console (level : Level) (text : string)
| ConsoleTable (rows : list (string * nat * string))
| MkdirSync (dir : string)
| CopyFileSync (src dst : string) (ok : bool)
| WriteFileSync (file : string) (ok : bool).

Record World := { fs : FS; trace : list Event }.

(** A step of the script ends normally, in [process.exit(code)], or in an
    exception nothing catches. *)
Inductive Outcome (A : Type) :=
| Done (a : A) (w : World)
| Exit (exitCode : Z) (w : World)
| Uncaught (w : World).

Arguments Done {A} a w.
Arguments Exit {A} exitCode w.
Arguments Uncaught {A} w.

Definition Script (A : Type) := World -> Outcome A.

Definition ret {A : Type} (a : A) : Script A := fun w => Done a w.

Definition bind {A B : Type} (m : Script A) (k : A -> Script B) : Script B :=
  fun w =>
    match m w with
    | Done a w' => k a w'
    | Exit c w' => Exit c w'
    | Uncaught w' => Uncaught w'
    end.

Declare Scope script_scope.
Delimit Scope script_scope with script.
Notation "x <- m ;; k" := (bind m (fun x => k))
  (at level 61, m at next level, right associativity) : script_scope.
Notation "m ;; k" := (bind m (fun _ => k))
  (at level 61, right associativity) : script_scope.
Open Scope script_scope.

Definition emit (e : Event) : Script unit :=
  fun w => Done tt {| fs := fs w; trace := (trace w ++ [e])%list |}.

Definition console (level : Level) (text : string) : Script unit :=
  emit (Console level text).

Definition processExit (exitCode : Z) : Script unit := fun w => Exit exitCode w.

Definition throw {A : Type} : Script A := fun w => Uncaught w.

Fixpoint forEach {A : Type} (l : list A) (body : A -> Script unit) : Script unit :=
  match l with
  | [] => ret tt
  | x :: r => body x ;; forEach r body
  end.

Definition isDir (f : FS) (p : string) : bool := includes (dirs f) p.

Definition isFile (f : FS) (p : string) : bool :=
  match assoc p (files f) with Some _ => true | None => false end.

Definition present (f : FS) (p : string) : bool := isDir f p || isFile f p.

Section FileStore.

Context {P : NodePath}.

(** [fs.existsSync(p)] *)
Definition existsSync (p : string) : Script bool :=
  fun w => Done (present (fs w) p) w.

(** [fs.mkdirSync(dir, { recursive: true })]; creation is taken to succeed. *)
Definition mkdirSync (dir : string) : Script unit :=
  fun w => Done tt {| fs := {| dirs := (dirs (fs w) ++ [dir])%list; files := files (fs w) |};
                      trace := (trace w ++ [MkdirSync dir])%list |}.

(** [fs.readFileSync(p, 'utf-8')]; it throws when [p] is not a file. *)
Definition readFileSync (p : string) : Script string :=
  fun w => match assoc p (files (fs w)) with
           | Some content => Done content w
           | None => Uncaught w
           end.

(** The store after writing [content] to [p]; [None] when the directory of
    [p] is missing or [p] is a directory. *)
Definition storeFile (f : FS) (p content : string) : option FS :=
  if isDir f (dirname p) && negb (isDir f p)
  then Some {| dirs := dirs f; files := mapSet p content (files f) |}
  else None.

(** [fs.writeFileSync(p, content, 'utf8')] *)
Definition writeFileSync (p content : string) : Script unit :=
  fun w => match storeFile (fs w) p content with
           | Some f' => Done tt {| fs := f'; trace := (trace w ++ [WriteFileSync p true])%list |}
           | None => Uncaught {| fs := fs w; trace := (trace w ++ [WriteFileSync p false])%list |}
           end.

(** [try { fs.copyFileSync(src, dst); ... } catch (err) { ... }]: the result
    tells whether the copy went through. *)
Definition tryCopyFileSync (src dst : string) : Script bool :=
  fun w =>
    match assoc src (files (fs w)) with
    | Some content =>
        match storeFile (fs w) dst content with
        | Some f' => Done true {| fs := f'; trace := (trace w ++ [CopyFileSync src dst true])%list |}
        | None => Done false {| fs := fs w; trace := (trace w ++ [CopyFileSync src dst false])%list |}
        end
    | None => Done false {| fs := fs w; trace := (trace w ++ [CopyFileSync src dst false])%list |}
    end.

(** [__dirname] and the directories derived from it. *)
Variable scriptDir : string.

Definition catalogsDir : string := pjoin [scriptDir; "sfcc-catalogs"].
Definition stylesDir : string := pjoin [scriptDir; "sfcc-styles"].
Definition imagesDir : string := pjoin [scriptDir; "sfcc-images"].
Definition outputDir : string := pjoin [scriptDir; "sfcc-images-output"].
Definition matrixifyDir : string := pjoin [scriptDir; "matrixify"].
Definition shopifyStylesDir : string := pjoin [scriptDir; "shopify-styles"].
Definition imageListDir : string := pjoin [scriptDir; "script-image-list-output"].

(** The image availability resolver: the loop that fills
    [productImagesAvailable] from [xmlData]. *)
Definition foundImagesOf (f : FS) (entry : Product unit) : list string :=
  filter (fun imagePath => present f (pjoin [imagesDir; "images"; imagePath]))
         (images entry).

Definition resolveImages (xmlData : list (Product unit)) : Script (list (Product unit)) :=
  fun w =>
    Done (flat_map (fun entry =>
                      match foundImagesOf (fs w) entry with
                      | [] => []
                      | foundImages =>
                          [{| productId := productId entry; images := foundImages;
                              xmlFileName := xmlFileName entry; views := tt |}]
                      end) xmlData) w.

(** [generateMatrixifyCSV]; the revisions differ in the three file names
    only. *)
Definition generateMatrixifyCSV (styleMapFile inventoryFile outPath : string)
    : Script unit :=
  haveStyles <- existsSync styleMapFile ;;
  if negb haveStyles then
    console ERROR ("Missing Shopify style map CSV: " ++ styleMapFile)
  else
    styleMapContent <- readFileSync styleMapFile ;;
    haveInventory <- existsSync inventoryFile ;;
    if negb haveInventory then
      console ERROR ("Missing image inventory CSV: " ++ inventoryFile)
    else
      inventoryContent <- readFileSync inventoryFile ;;
      match manifestCsv styleMapContent inventoryContent with
      | None => throw
      | Some csvText =>
          writeFileSync outPath csvText ;;
          console LOG ("Matrixify CSV written to: " ++ outPath)
      end.

End FileStore.

(* ================================================================== *)
(** ** The oldest revision: [src/unnamed/part_000] *)
(* ================================================================== *)

Module Rev0.
Section Run.

Context {P : NodePath}.
Variable scriptDir : string.
Variable sharpMetadata : string -> option Metadata.
Variable localeCompare : string -> string -> Z.

(** [if (!fs.existsSync(dir)) { console.error(...); process.exit(1); }] *)
Definition requireDir (what dir : string) : Script unit :=
  present <- existsSync dir ;;
  if negb present then
    console ERROR (what ++ " directory not found: " ++ dir) ;;
    processExit 1
  else ret tt.

Definition setUpDirectories : Script unit :=
  requireDir "Catalogs" (catalogsDir scriptDir) ;;
  requireDir "Styles" (stylesDir scriptDir) ;;
  requireDir "Images" (imagesDir scriptDir) ;;
  requireDir "Output" (outputDir scriptDir) ;;
  present <- existsSync (matrixifyDir scriptDir) ;;
  if negb present then mkdirSync (matrixifyDir scriptDir) else ret tt.

(** The inner loop of [processProductViews]: [views] is a [Set]. *)
Definition viewsOf (product : Product unit) : list string :=
  fold_left
    (fun views imagePath =>
       setAdd (extractImageView (imagesDir scriptDir) sharpMetadata
                 (productId product) imagePath) views)
    (images product) [].

Definition processProductViews (productImagesAvailable : list (Product unit))
    : Script (list (Product (list string))) :=
  let products := map (fun product => withViews product (viewsOf product))
                    productImagesAvailable in
  emit (ConsoleTable
          (map (fun p => (productId p, length (images p), JS.join ", " (views p)))
             products)) ;;
  ret products.

(** [exportViewCSV]: per catalog base name and product id, the gray and the
    non-gray entries. *)
Definition Group := JSMap (list Entry * list Entry).

Definition pushView (productId : string) (entries : list Entry * list Entry)
    (view : string) : list Entry * list Entry :=
  let entry := {| filename := outputFileName productId view; view := view |} in
  if JS.startsWith view "gray_"
  then ((fst entries ++ [entry])%list, snd entries)
  else (fst entries, (snd entries ++ [entry])%list).

Definition addProduct (grouped : JSMap Group) (product : Product (list string))
    : JSMap Group :=
  let baseName := basename (xmlFileName product) ".xml" in
  let catalogGroup := match mapGet baseName grouped with
                      | Some g => g
                      | None => []
                      end in
  let entries := match mapGet (productId product) catalogGroup with
                 | Some e => e
                 | None => ([], [])
                 end in
  let pushed := fold_left (pushView (productId product)) (views product) entries in
  let sorted := (sortEntries localeCompare grayPreferredOrder (fst pushed),
                 sortEntries localeCompare defaultPreferredOrder (snd pushed)) in
  mapSet baseName (mapSet (productId product) sorted catalogGroup) grouped.

Definition catalogCsv (catalogGroup : Group) : string :=
  JS.join (String "010" "")
    (inventoryHeader ::
     map (fun kv => inventoryLine (fst kv) (snd (snd kv)) (fst (snd kv))) catalogGroup).

Definition exportViewCSV (products : list (Product (list string))) : Script unit :=
  present <- existsSync (imageListDir scriptDir) ;;
  (if negb present then mkdirSync (imageListDir scriptDir) else ret tt) ;;
  forEach (fold_left addProduct products [])
    (fun kv =>
       let outputPath := pjoin [imageListDir scriptDir;
                                fst kv ++ "-image-inventory-export.csv"] in
       writeFileSync outputPath (catalogCsv (snd kv)) ;;
       console LOG ("CSV exported to: " ++ outputPath)).

(** [copyImagesToOutput]: the source of a view is looked up with
    [images.find(imgPath => filename.includes(view))]; an empty path is
    falsy and counts as no match. *)
Definition copyView (product : Product (list string)) (view : string) : Script unit :=
  let filename := outputFileName (productId product) view in
  let found := find (fun imgPath : string => JS.includes filename view)
                 (images product) in
  match found with
  | Some matched =>
      if JS.truthy matched then
        let sourcePath := pjoin [imagesDir scriptDir; "images"; matched] in
        let destPath := pjoin [outputDir scriptDir; filename] in
        ok <- tryCopyFileSync sourcePath destPath ;;
        if ok then console LOG ("Copied: " ++ filename)
        else console WARN ("Failed to copy " ++ filename)
      else console WARN ("No match found for " ++ filename)
  | None => console WARN ("No match found for " ++ filename)
  end.

Definition copyImagesToOutput (products : list (Product (list string))) : Script unit :=
  console LOG "Copying image files to sfcc-images-output..." ;;
  forEach products (fun product => forEach (views product) (copyView product)) ;;
  console LOG "Image copy complete.".

Definition styleMapFile : string :=
  pjoin [shopifyStylesDir scriptDir; "rockyboots_styles.csv"].
Definition inventoryFile : string :=
  pjoin [scriptDir; "script-image-list-output";
         "rockyboots_catalog-image-inventory-export.csv"].
Definition outPath : string :=
  pjoin [matrixifyDir scriptDir; "rockyboots_matrixify_image_upload.csv"].

(** The whole run.  [loadCatalogs] stands for the style filter and catalog
    XML stage, which yields [xmlData]. *)
Definition main (loadCatalogs : Script (list (Product unit))) : Script unit :=
  setUpDirectories ;;
  xmlData <- loadCatalogs ;;
  productImagesAvailable <- resolveImages scriptDir xmlData ;;
  products <- processProductViews productImagesAvailable ;;
  exportViewCSV products ;;
  copyImagesToOutput products ;;
  generateMatrixifyCSV styleMapFile inventoryFile outPath.

End Run.
End Rev0.

(* ================================================================== *)
(** ** The later revisions: [src/unnamed/part_001] and [src/index.js] *)
(* ================================================================== *)

Module Rev1.
Section Run.

Context {P : NodePath}.
Variable scriptDir : string.
Variable sharpMetadata : string -> option Metadata.
Variable localeCompare : string -> string -> Z.

(** [[...].forEach(dir => { if (!fs.existsSync(dir)) fs.mkdirSync(dir, ...) })] *)
Definition ensureDir (dir : string) : Script unit :=
  present <- existsSync dir ;;
  if negb present then mkdirSync dir else ret tt.

Definition setUpDirectories : Script unit :=
  forEach [catalogsDir scriptDir; stylesDir scriptDir; imagesDir scriptDir;
           outputDir scriptDir; matrixifyDir scriptDir]
    ensureDir.

(** The inner loop of [processProductViews]: [views] is a [Map] from the view
    to the image path. *)
Definition viewsOf (product : Product unit) : JSMap string :=
  fold_left
    (fun views imagePath =>
       mapSet (extractImageView (imagesDir scriptDir) sharpMetadata
                 (productId product) imagePath) imagePath views)
    (images product) [].

Definition processProductViews (productImagesAvailable : list (Product unit))
    : Script (list (Product (JSMap string))) :=
  let products := map (fun product => withViews product (viewsOf product))
                    productImagesAvailable in
  emit (ConsoleTable
          (map (fun p => (productId p, length (images p),
                          JS.join ", " (mapKeys (views p))))
             products)) ;;
  ret products.

(** [exportViewCSV] of part_001; [activeCatalogBase] is the base name of the
    catalog file read last. *)
Definition inventoryPath (activeCatalogBase : string) : string :=
  pjoin [scriptDir; "script-image-list-output";
         activeCatalogBase ++ "_catalog-image-inventory-export.csv"].

Definition exportViewCSV (activeCatalogBase : string)
    (products : list (Product (JSMap string))) : Script unit :=
  writeFileSync (inventoryPath activeCatalogBase) (inventoryCsv localeCompare products) ;;
  console LOG ("CSV exported to: " ++ inventoryPath activeCatalogBase).

(** The copy one entry of [views] asks for. *)
Definition copyView (productId : string) (entry : string * string) : Script unit :=
  let filename := outputFileName productId (fst entry) in
  let sourcePath := pjoin [imagesDir scriptDir; "images"; snd entry] in
  let destPath := pjoin [outputDir scriptDir; filename] in
  ok <- tryCopyFileSync sourcePath destPath ;;
  if ok then console LOG ("Copied: " ++ filename)
  else console WARN ("Failed to copy " ++ filename).

Definition copyImagesToOutput (products : list (Product (JSMap string))) : Script unit :=
  forEach products
    (fun product => forEach (views product) (copyView (productId product))) ;;
  console LOG "Image copy complete.".

Definition styleMapFile (activeCatalogBase : string) : string :=
  pjoin [shopifyStylesDir scriptDir; activeCatalogBase ++ "_styles.csv"].
Definition outPath (activeCatalogBase : string) : string :=
  pjoin [matrixifyDir scriptDir; activeCatalogBase ++ "_matrixify_image_upload.csv"].

(** The whole run of part_001.  [loadCatalogs] stands for the style filter
    and catalog XML stage, which yields [xmlData] and [activeCatalogBase]. *)
Definition main (loadCatalogs : Script (list (Product unit) * string)) : Script unit :=
  setUpDirectories ;;
  loaded <- loadCatalogs ;;
  productImagesAvailable <- resolveImages scriptDir (fst loaded) ;;
  products <- processProductViews productImagesAvailable ;;
  exportViewCSV (snd loaded) products ;;
  copyImagesToOutput products ;;
  generateMatrixifyCSV (styleMapFile (snd loaded)) (inventoryPath (snd loaded))
    (outPath (snd loaded)).

(** The whole run of index.js, where [exportViewCSV] and
    [generateMatrixifyCSV] have empty bodies. *)
Definition mainIndexJs (loadCatalogs : Script (list (Product unit))) : Script unit :=
  setUpDirectories ;;
  xmlData <- loadCatalogs ;;
  productImagesAvailable <- resolveImages scriptDir xmlData ;;
  products <- processProductViews productImagesAvailable ;;
  copyImagesToOutput products.

End Run.
End Rev1.

(* ================================================================== *)
(** ** The style filters and the catalog stage *)
(* ================================================================== *)

(** [new Set(array)] *)
Definition setOf (l : list string) : list string :=
  fold_left (fun s x => setAdd x s) l [].

(** The set built from the text of one styles file:
    [new Set(content.split(/\r?\n/).map(s => s.trim()).filter(Boolean))]. *)
Definition styleSetOf (content : string) : list string :=
  setOf (filter JS.truthy (map JS.trim (JS.splitLines content))).

(** [stylesMap], from the entries of the styles directory in the order
    [fs.readdirSync] lists them, each with the text [fs.readFileSync]
    returns for it. *)
Definition loadStylesMap (stylesDirListing : list (string * string))
    : JSMap (list string) :=
  fold_left
    (fun stylesMap file =>
       let baseName := JS.removeFirst "_styles.txt" (fst file) in
       mapSet baseName (styleSetOf (snd file)) stylesMap)
    (filter (fun file => JS.endsWith (fst file) "_styles.txt") stylesDirListing)
    [].

(** A parsed catalog as the script walks it: elements with their tag name,
    attributes and child elements (text and comments play no part). *)
#[warnings="-register-all"]
Inductive Element :=
| Elem (tagName : string) (attributes : list (string * string)) (children : list Element).

Definition tagNameOf (e : Element) : string :=
  match e with Elem t _ _ => t end.

(** [e.getAttribute(name)] of xmldom: the empty string when the attribute is
    missing. *)
Definition getAttribute (e : Element) (name : string) : string :=
  match e with
  | Elem _ attrs _ => match assoc name attrs with Some v => v | None => "" end
  end.

(** The descendants of an element in document order. *)
Fixpoint descendants (e : Element) : list Element :=
  match e with
  | Elem _ _ cs =>
      (fix walk (l : list Element) : list Element :=
         match l with
         | [] => []
         | c :: r => ((c :: descendants c) ++ walk r)%list
         end) cs
  end.

(** [e.getElementsByTagName(name)] for a name other than the wildcard. *)
Definition getElementsByTagName (e : Element) (name : string) : list Element :=
  filter (fun d => (tagNameOf d =? name)%string) (descendants e).

(** [doc.getElementsByTagName(name)]: the document element counts too. *)
Definition docElementsByTagName (documentElement : Element) (name : string)
    : list Element :=
  filter (fun d => (tagNameOf d =? name)%string)
    (documentElement :: descendants documentElement).

(** The image paths of one [product] element: under every [images]
    descendant, every [image-group] descendant whose [view-type] is
    [hi-res] or [grid-large] gives the [path] of each of its [image]
    descendants. *)
Definition imagePathsOf (product : Element) : list string :=
  flat_map
    (fun imagesEl =>
       flat_map
         (fun imageGroup =>
            if includes ["hi-res"; "grid-large"] (getAttribute imageGroup "view-type")
            then map (fun imageItem => getAttribute imageItem "path")
                   (getElementsByTagName imageGroup "image")
            else [])
         (getElementsByTagName imagesEl "image-group"))
    (getElementsByTagName product "images").

(** The entries one catalog adds to [xmlData], given its styles set. *)
Definition productsOf (allowedStyles : list string) (f : string)
    (documentElement : Element) : list (Product unit) :=
  flat_map
    (fun product =>
       let productId := getAttribute product "product-id" in
       if includes allowedStyles productId then
         match imagePathsOf product with
         | [] => []
         | imagePaths =>
             [{| productId := productId; images := imagePaths;
                 xmlFileName := f; views := tt |}]
         end
       else [])
    (docElementsByTagName documentElement "product").

(** [f.replace('_catalog.xml', '').replace('.xml', '')] *)
Definition catalogBaseName (f : string) : string :=
  JS.removeFirst ".xml" (JS.removeFirst "_catalog.xml" f).

(** One pass of the loop over the catalog files (part_001): the state is
    [xmlData] and [activeCatalogBase]. *)
Definition readCatalog (stylesMap : JSMap (list string))
    (state : list (Product unit) * string) (file : string * Element)
    : Script (list (Product unit) * string) :=
  let baseName := catalogBaseName (fst file) in
  match mapGet baseName stylesMap with
  | None =>
      console WARN ("No styles list found for catalog " ++ fst file) ;;
      ret (fst state, baseName)
  | Some allowedStyles =>
      ret ((fst state ++ productsOf allowedStyles (fst file) (snd file))%list, baseName)
  end.

Fixpoint readCatalogs (stylesMap : JSMap (list string))
    (state : list (Product unit) * string) (files : list (string * Element))
    : Script (list (Product unit) * string) :=
  match files with
  | [] => ret state
  | file :: rest =>
      state' <- readCatalog stylesMap state file ;;
      readCatalogs stylesMap state' rest
  end.

(** The style filter and catalog stage of part_001, from the listings of the
    styles and the catalogs directory (the catalogs already parsed).  It
    covers the runs in which every listed file is read and parsed without
    an exception: a [readFileSync] that throws (an entry that is a
    directory) and what the parser reports on malformed XML are not part of
    it. *)
Definition loadCatalogs (stylesDirListing : list (string * string))
    (catalogsDirListing : list (string * Element))
    : Script (list (Product unit) * string) :=
  readCatalogs (loadStylesMap stylesDirListing) ([], "")
    (filter (fun file => JS.endsWith (fst file) ".xml") catalogsDirListing).

(* ================================================================== *)
(** ** Vocabulary of the statements *)
(* ================================================================== *)

(** Decimal digits only: a printed dimension holds no dash. *)
Definition noDash (s : string) : Prop := dashesToUnderscores s = s.

(** The map a loop of [set] calls builds from the list it walks, the key of
    an element being [keyOf]. *)
Definition collect {V : Type} (keyOf : V -> string) (l : list V) (m : JSMap V) : JSMap V :=
  fold_left (fun views x => mapSet (keyOf x) x views) l m.

(** The [(source, destination)] pairs of the [fs.copyFileSync] calls in a
    trace, in order. *)
Definition copyCalls (t : list Event) : list (string * string) :=
  flat_map (fun e => match e with
                     | CopyFileSync src dst _ => [(src, dst)]
                     | _ => []
                     end) t.

Definition worldOf {A : Type} (o : Outcome A) : World :=
  match o with
  | Done _ w => w
  | Exit _ w => w
  | Uncaught w => w
  end.

(** A step that ends normally and adds the calls [calls]. *)
Definition addsCalls (m : Script unit) (calls : list (string * string)) : Prop :=
  forall w, exists w',
    m w = Done tt w' /\ copyCalls (trace w') = (copyCalls (trace w) ++ calls)%list.

(** The call the entry [(view, imagePath)] of a product's [views] stands
    for. *)
Definition copyCall {P : NodePath} (scriptDir productId : string)
    (entry : string * string) : string * string :=
  (pjoin [imagesDir scriptDir; "images"; snd entry],
   pjoin [outputDir scriptDir; outputFileName productId (fst entry)]).

(** The counter values [pos], [pos + 1], ... of [n] rows in a row. *)
Fixpoint positionsFrom (pos : N) (n : nat) : list N :=
  match n with
  | 0 => []
  | S n' => pos :: positionsFrom (pos + 1) n'
  end.

(** The style of an inventory row and the cell the generator reads its file
    names from. *)
Definition styleOfRow (row : string) : string :=
  nth 0 (parseInventoryRow row) "".

Definition chosenCell (row : string) : string :=
  let grayListRaw := nth 2 (parseInventoryRow row) "" in
  let nonGrayListRaw := nth 1 (parseInventoryRow row) "" in
  if JS.truthy grayListRaw then grayListRaw else nonGrayListRaw.

Definition rowIsUsed (styleMap : JSMap StyleInfo) (row : string) : bool :=
  JS.truthy (JS.trim row)
  && match mapGet (styleOfRow row) styleMap with Some _ => true | None => false end.

Definition logged (w : World) (e : Event) : World :=
  {| fs := fs w; trace := (trace w ++ [e])%list |}.

(** A string without double quote. *)
Definition noQuote (s : string) : bool := negb (JS.includesChar JS.dquoteChar s).

(** A file name the inventory CSV carries unharmed: not empty, no comma, no
    double quote, no white space at either end. *)
Definition goodName (f : string) : bool :=
  JS.truthy f && negb (JS.includesChar "," f) && noQuote f
  && (JS.dropWhile JS.isWhiteSpace f =? f)%string
  && (JS.dropWhileEnd JS.isWhiteSpace f =? f)%string.

(** Every character of [s] passes [q]. *)
Fixpoint allChars (q : ascii -> bool) (s : string) : bool :=
  match s with
  | EmptyString => true
  | String c t => q c && allChars q t
  end.

(** [W ++ "x" ++ H] for two runs of digits. *)
Definition dimsText (m : Metadata) : string :=
  JS.numberToString (width m) ++ "x" ++ JS.numberToString (height m).

(** The index of an entry's semantic view in the preference table. *)
Definition tableIndex (preferredOrder : list string) (e : Entry) : Z :=
  indexOf preferredOrder (semanticView (view e)).

(** [a] may stand before [b]: [b] has no place in the table, or both have
    one and that of [a] is not the later one. *)
Definition tableLe (preferredOrder : list string) (a b : Entry) : Prop :=
  tableIndex preferredOrder b = (-1)%Z
  \/ (tableIndex preferredOrder a <> (-1)%Z
      /\ (tableIndex preferredOrder a <= tableIndex preferredOrder b)%Z).

(** What one catalog file adds to [xmlData] and to the console. *)
Definition catalogEntries (stylesMap : JSMap (list string)) (file : string * Element)
    : list (Product unit) :=
  match mapGet (catalogBaseName (fst file)) stylesMap with
  | None => []
  | Some allowedStyles => productsOf allowedStyles (fst file) (snd file)
  end.

Definition catalogWarnings (stylesMap : JSMap (list string)) (file : string * Element)
    : list Event :=
  match mapGet (catalogBaseName (fst file)) stylesMap with
  | None => [Console WARN ("No styles list found for catalog " ++ fst file)]
  | Some _ => []
  end.

(** Neither a line feed nor a carriage return. *)
Definition singleLine (s : string) : bool :=
  negb (JS.includesChar "010" s) && negb (JS.includesChar "013" s).

(** A product whose id and file names the inventory CSV carries unharmed. *)
Definition plainNames (p : Product (JSMap string)) : bool :=
  noQuote (productId p) && singleLine (productId p)
  && forallb (fun k => goodName (outputFileName (productId p) k)
                       && singleLine (outputFileName (productId p) k))
       (mapKeys (views p)).

(** The file names a product contributes to the manifest. *)
Definition manifestNamesOf (localeCompare : string -> string -> Z)
    (styleMap : JSMap StyleInfo) (p : Product (JSMap string))
    : list string :=
  match mapGet (JS.trim (productId p)) styleMap with
  | Some _ =>
      map filename (match grayList localeCompare p with
                    | [] => nonGrayList localeCompare p
                    | _ :: _ => grayList localeCompare p
                    end)
  | None => []
  end.

(** The text of a manifest with the rows [rows]. *)
Definition manifestText (rows : list ManifestRow) : string :=
  JS.join (String "010" "")
    (map (fun r => JS.join "," (map quoteCell r))
       (manifestHeader :: map manifestCells rows)).

(* ================================================================== *)
(** ** Example inputs *)
(* ================================================================== *)

(** Concrete surroundings for the closed examples: the POSIX [path], a
    script directory, and two dimension probes. *)
Definition repoDir : string := "/repo".

Definition repoImages : string := imagesDir (P := Posix.path) repoDir.

Definition probe800x600 : string -> option Metadata :=
  fun _ => Some {| width := 800; height := 600 |}.

Definition probeFails : string -> option Metadata := fun _ => None.


Definition emptyWorld : World :=
  {| fs := {| dirs := []; files := [] |}; trace := [] |}.

(** The order of the code units, for a host whose collation is that. *)
Fixpoint codeUnitCompare (a b : string) : Z :=
  match a, b with
  | EmptyString, EmptyString => 0%Z
  | EmptyString, String _ _ => (-1)%Z
  | String _ _, EmptyString => 1%Z
  | String x a', String y b' =>
      if JS.code x =? JS.code y then codeUnitCompare a' b'
      else if JS.code x <? JS.code y then (-1)%Z else 1%Z
  end.

(** Four non-gray entries, two of them with tokens the table does not
    hold. *)
Definition sampleEntries : list Entry :=
  map (fun v => {| filename := outputFileName "ABC123" v; view := v |})
    ["default_zzz"; "default_lifestyle_800x600"; "white_box_10x10"; "default_main"].

(** Example rows: a style map with two styles, and the inventory line of a
    product with two gray files and one non-gray file. *)
Definition sampleStyleMap : JSMap StyleInfo :=
  [("ABC123", {| id := "111"; title := "Rocky Boot" |});
   ("XYZ9", {| id := "222"; title := "Trail Shoe" |})].

Definition sampleInventoryLine : string :=
  inventoryLine "ABC123"
    [{| filename := "ABC123_default_main_800x600.jpg"; view := "default_main_800x600" |}]
    [{| filename := "ABC123_gray_profile_800x600.jpg"; view := "gray_profile_800x600" |};
     {| filename := "ABC123_gray_main_640x480.jpg"; view := "gray_main_640x480" |}].

Definition sampleRow1 : ManifestRow :=
  {| rowID := "111"; rowImageType := "IMAGE";
     rowImageSrc := "ABC123_gray_profile_800x600.jpg"; rowImageCommand := "REPLACE";
     rowPosition := 1; rowWidth := "800"; rowHeight := "600";
     rowAltText := "Rocky Boot - profile"; rowStyle := "ABC123" |}.

Definition sampleRow2 : ManifestRow :=
  {| rowID := "111"; rowImageType := "IMAGE";
     rowImageSrc := "ABC123_gray_main_640x480.jpg"; rowImageCommand := "REPLACE";
     rowPosition := 2; rowWidth := "640"; rowHeight := "480";
     rowAltText := "Rocky Boot - main"; rowStyle := "" |}.

(** A product without gray files, and a product the style map does not
    know. *)
Definition sampleNonGrayLine : string :=
  inventoryLine "XYZ9"
    [{| filename := "XYZ9_default_main_800x600.jpg"; view := "default_main_800x600" |};
     {| filename := "XYZ9_white_front_800x600.jpg"; view := "white_front_800x600" |}]
    [].

Definition sampleUnknownLine : string :=
  inventoryLine "NOPE"
    [] [{| filename := "NOPE_gray_main_800x600.jpg"; view := "gray_main_800x600" |}].

Definition sampleRow3 : ManifestRow :=
  {| rowID := "222"; rowImageType := "IMAGE";
     rowImageSrc := "XYZ9_default_main_800x600.jpg"; rowImageCommand := "REPLACE";
     rowPosition := 1; rowWidth := "800"; rowHeight := "600";
     rowAltText := "Trail Shoe - main"; rowStyle := "XYZ9" |}.

Definition sampleRow4 : ManifestRow :=
  {| rowID := "222"; rowImageType := "IMAGE";
     rowImageSrc := "XYZ9_white_front_800x600.jpg"; rowImageCommand := "REPLACE";
     rowPosition := 2; rowWidth := "800"; rowHeight := "600";
     rowAltText := "Trail Shoe - front"; rowStyle := "" |}.

Definition sampleLines : list string :=
  [sampleInventoryLine; sampleUnknownLine; sampleNonGrayLine].

(** A product with a gray profile image and a default lifestyle image, and a
    file store that holds both. *)
Definition twoViewProduct : Product unit :=
  {| productId := "ABC123";
     images := ["gray/ABC123_8.jpg"; "default/ABC123_9.jpg"];
     xmlFileName := "rockyboots_catalog.xml";
     views := tt |}.

Definition twoImageWorld : World :=
  {| fs := {| dirs := ["/repo/sfcc-images-output"];
              files := [("/repo/sfcc-images/images/gray/ABC123_8.jpg", "gray profile bytes");
                        ("/repo/sfcc-images/images/default/ABC123_9.jpg", "lifestyle bytes")] |};
     trace := [] |}.

(** Three entries, two of them with the token [main]. *)
Definition sameTokenEntries : list Entry :=
  map (fun v => {| filename := outputFileName "ABC123" v; view := v |})
    ["default_lifestyle"; "white_main_800x600"; "default_main"].

(** A styles directory and a catalogs directory: one styles file with
    Windows line ends and stray blanks, and two catalogs with the same
    content, the second without a styles list. *)
Definition crlf : string := String "013" (String "010" "").

Definition sampleStylesListing : list (string * string) :=
  [("rockyboots_styles.txt", "ABC123" ++ crlf ++ "  XYZ9 " ++ crlf ++ crlf);
   ("notes.md", "NOTLISTED")].

Definition sampleCatalog : Element :=
  Elem "catalog" []
    [Elem "product" [("product-id", "ABC123")]
       [Elem "images" []
          [Elem "image-group" [("view-type", "hi-res")]
             [Elem "image" [("path", "gray/ABC123_8.jpg")] []];
           Elem "image-group" [("view-type", "swatch")]
             [Elem "image" [("path", "swatch/ABC123_sw.jpg")] []]]];
     Elem "product" [("product-id", "NOTLISTED")]
       [Elem "images" []
          [Elem "image-group" [("view-type", "hi-res")]
             [Elem "image" [("path", "gray/NOTLISTED_8.jpg")] []]]]].

Definition sampleCatalogsListing : list (string * Element) :=
  [("rockyboots_catalog.xml", sampleCatalog); ("georgia_catalog.xml", sampleCatalog)].

Definition sampleXmlEntry : Product unit :=
  {| productId := "ABC123"; images := ["gray/ABC123_8.jpg"];
     xmlFileName := "rockyboots_catalog.xml"; views := tt |}.

(** The two lists of [sampleInventoryLine]. *)
Definition sampleNonGrayEntries : list Entry :=
  [{| filename := "ABC123_default_main_800x600.jpg"; view := "default_main_800x600" |}].

Definition sampleGrayEntries : list Entry :=
  [{| filename := "ABC123_gray_profile_800x600.jpg"; view := "gray_profile_800x600" |};
   {| filename := "ABC123_gray_main_640x480.jpg"; view := "gray_main_640x480" |}].

(** The text of a style map file: a header, a style row with stray blanks,
    and a row with two fields only. *)
Definition sampleStyleMapContent : string :=
  "ID,Title,Style" ++ crlf ++ "111, Rocky Boot ,ABC123" ++ crlf ++ "222,Trail Shoe" ++ crlf.

Definition sampleStyleInfo : StyleInfo := {| id := "111"; title := "Rocky Boot" |}.

(** [twoViewProduct] after [processProductViews], every probe succeeding,
    and a second product of the same catalog. *)
Definition resolvedTwoViewProduct : Product (JSMap string) :=
  withViews twoViewProduct (Rev1.viewsOf (P := Posix.path) repoDir probe800x600 twoViewProduct).

Definition secondProduct : Product unit :=
  {| productId := "XYZ9";
     images := ["default/XYZ9_2.jpg"];
     xmlFileName := "rockyboots_catalog.xml";
     views := tt |}.

(** A file store after start-up: the directories the script writes to, a
    style map file and two images. *)
Definition exportWorld : World :=
  {| fs := {| dirs := ["/repo/script-image-list-output"; "/repo/matrixify";
                       "/repo/sfcc-images-output"];
              files := [("/repo/shopify-styles/rockyboots_styles.csv",
                         sampleStyleMapContent);
                        ("/repo/sfcc-images/images/gray/ABC123_8.jpg", "gray profile bytes");
                        ("/repo/sfcc-images/images/default/ABC123_9.jpg",
                         "lifestyle bytes")] |};
     trace := [] |}.

(** The text of an inventory file with the three sample lines, and a file
    store that holds it beside the style map file. *)
Definition sampleInventoryContent : string :=
  JS.join (String "010" "") (inventoryHeader :: sampleLines).

Definition generatorWorld : World :=
  {| fs := {| dirs := ["/repo/script-image-list-output"; "/repo/matrixify"];
              files := [("/repo/shopify-styles/rockyboots_styles.csv",
                         sampleStyleMapContent);
                        ("/repo/script-image-list-output/rockyboots_catalog-image-inventory-export.csv",
                         sampleInventoryContent)] |};
     trace := [] |}.


(* ================================================================== *)
(** * Properties *)
(* ================================================================== *)

(** ** Strings *)

Lemma append_nil_r (s : string) : s ++ "" = s.
Proof. induction s as [|c s IH]; simpl; [reflexivity | now rewrite IH]. Qed.

Lemma append_assoc (a b c : string) : (a ++ b) ++ c = a ++ (b ++ c).
Proof. induction a as [|x a IH]; simpl; [reflexivity | now rewrite IH]. Qed.

Lemma length_append (a b : string) :
  String.length (a ++ b) = String.length a + String.length b.
Proof. induction a as [|x a IH]; simpl; [reflexivity | now rewrite IH]. Qed.




Lemma mapChars_append (f : ascii -> ascii) (a b : string) :
  JS.mapChars f (a ++ b) = JS.mapChars f a ++ JS.mapChars f b.
Proof. induction a as [|x a IH]; simpl; [reflexivity | now rewrite IH]. Qed.

Lemma prefix_append (p s : string) : String.prefix p (p ++ s) = true.
Proof.
  induction p as [|c p IH]; simpl; [now destruct s |].
  destruct (ascii_dec c c) as [_|n]; [exact IH | now elim n].
Qed.

Lemma string_of_uint_noDash (d : Decimal.uint) :
  noDash (NilEmpty.string_of_uint d).
Proof.
  unfold noDash. induction d; simpl; try reflexivity;
    unfold dashesToUnderscores in *; simpl; now rewrite IHd.
Qed.

Lemma numberToString_noDash (n : N) : noDash (JS.numberToString n).
Proof. apply string_of_uint_noDash. Qed.

Lemma split_nonempty (c : ascii) (s : string) : JS.split c s <> [].
Proof.
  destruct s as [|x s]; simpl; [discriminate |].
  destruct (x =? c)%char; [discriminate |].
  destruct (JS.split c s); discriminate.
Qed.

Lemma split_append_sep (c : ascii) (a b : string) :
  JS.split c (a ++ String c b) = (JS.split c a ++ JS.split c b)%list.
Proof.
  induction a as [|x a IH]; simpl.
  - now rewrite Ascii.eqb_refl.
  - destruct (x =? c)%char; [now rewrite IH |].
    rewrite IH. destruct (JS.split c a) as [|h r] eqn:E; [| reflexivity].
    now apply split_nonempty in E.
Qed.

Lemma split_no_sep (c : ascii) (s : string) :
  JS.includesChar c s = false -> JS.split c s = [s].
Proof.
  induction s as [|x s IH]; simpl; [reflexivity |].
  destruct (x =? c)%char; simpl; [discriminate |].
  intros H. now rewrite IH.
Qed.

Lemma includesChar_append (c : ascii) (a b : string) :
  JS.includesChar c (a ++ b) = JS.includesChar c a || JS.includesChar c b.
Proof.
  induction a as [|x a IH]; simpl; [reflexivity |].
  now rewrite IH, orb_assoc.
Qed.

Lemma prefix_empty (s : string) : String.prefix "" s = true.
Proof. now destruct s. Qed.

Lemma prefix_cons (a b : ascii) (s1 s2 : string) :
  String.prefix (String a s1) (String b s2)
  = if ascii_dec a b then String.prefix s1 s2 else false.
Proof. reflexivity. Qed.

Lemma append_cons (c : ascii) (s t : string) : String c s ++ t = String c (s ++ t).
Proof. reflexivity. Qed.

(** ** The classifier *)

Lemma includes_In (l : list string) (x : string) :
  includes l x = true <-> In x l.
Proof.
  unfold includes. rewrite existsb_exists. split.
  - intros [y [Hy He]]. apply String.eqb_eq in He. now subst.
  - intros H. exists x. split; [exact H | apply String.eqb_refl].
Qed.

Lemma baseFolderOf_cases (folderName : string) :
  baseFolderOf folderName = "default" \/
  baseFolderOf folderName = "gray" \/
  baseFolderOf folderName = "white".
Proof.
  unfold baseFolderOf.
  destruct (includes ignoredFolders folderName); [now left |].
  destruct (includes ["gray"; "white"] folderName) eqn:E; [| now left].
  apply includes_In in E. simpl in E.
  destruct E as [<- | [<- | []]]; [right; now left | right; now right].
Qed.

Section ClassifierFacts.

Context {P : NodePath}.
Variable imagesDir : string.
Variable sharpMetadata : string -> option Metadata.

(** The shape of every result: bucket, view and, when the probe answered,
    the dimensions. *)
Lemma extractImageView_shape (productId imagePath : string) :
  extractImageView imagesDir sharpMetadata productId imagePath =
  baseFolderOf (folderNameOf imagePath) ++ "_"
  ++ dashesToUnderscores (viewOf productId imagePath)
  ++ match sharpMetadata (pjoin [imagesDir; "images"; imagePath]) with
     | Some m => "_" ++ JS.numberToString (width m) ++ "x" ++ JS.numberToString (height m)
     | None => ""
     end.
Proof.
  unfold extractImageView.
  assert (Hb : dashesToUnderscores (baseFolderOf (folderNameOf imagePath))
               = baseFolderOf (folderNameOf imagePath)).
  { destruct (baseFolderOf_cases (folderNameOf imagePath)) as [-> | [-> | ->]];
      reflexivity. }
  destruct (sharpMetadata _) as [m|].
  - replace (JS.truthy (JS.numberToString (width m) ++ "x" ++ JS.numberToString (height m)))
      with true.
    + unfold dashesToUnderscores in *.
      rewrite !mapChars_append, Hb. simpl.
      fold (dashesToUnderscores (JS.numberToString (width m))).
      fold (dashesToUnderscores (JS.numberToString (height m))).
      now rewrite (numberToString_noDash (width m)), (numberToString_noDash (height m)).
    + destruct (JS.numberToString (width m)); reflexivity.
  - simpl. unfold dashesToUnderscores in *.
    rewrite !mapChars_append, Hb. simpl. now rewrite append_nil_r.
Qed.

End ClassifierFacts.

(** C1 (as the code has it).  Scenario A: for the path
    [gray/ABC123_instepprofile_large.jpg] and the product id [ABC123], with a
    probe that answers 800 by 600, [extractImageView] returns
    [gray_instepprofile_800x600]: the size label [large] is stripped, and the
    token [instepprofile] is not one of the numeric codes, so it is kept as
    it is. *)
Theorem scenarioA_viewKey (imagesDir : string) (sharpMetadata : string -> option Metadata) :
  sharpMetadata (pjoin (NodePath := Posix.path)
                   [imagesDir; "images"; "gray/ABC123_instepprofile_large.jpg"])
    = Some {| width := 800; height := 600 |} ->
  extractImageView (P := Posix.path) imagesDir sharpMetadata
    "ABC123" "gray/ABC123_instepprofile_large.jpg"
  = "gray_instepprofile_800x600".
Proof.
  intros H. rewrite extractImageView_shape, H. reflexivity.
Qed.

Lemma scenarioA_viewKey_witness :
  extractImageView (P := Posix.path) repoImages probe800x600
    "ABC123" "gray/ABC123_instepprofile_large.jpg"
  = "gray_instepprofile_800x600".
Proof.
  apply (scenarioA_viewKey repoImages probe800x600). reflexivity.
Defined.

(** C1 as the specification words it fails: the key is not
    [gray_instep_profile_800x600]. *)
Lemma scenarioA_not_instep_profile :
  extractImageView (P := Posix.path) repoImages probe800x600
    "ABC123" "gray/ABC123_instepprofile_large.jpg"
  = "gray_instepprofile_800x600"
  /\ "gray_instepprofile_800x600" <> "gray_instep_profile_800x600".
Proof. split; [reflexivity | discriminate]. Qed.

(** C5.  [extractImageView] is a total function of the product id, the image
    path and the outcome of the probe.  When the probe fails the key is
    [bucket_view]; when it answers, the key is that same string followed by
    [_WxH] (first part).  Two invocations whose paths have the same bucket,
    whose file names give the same view and whose probes have the same
    outcome return the same key (second part). *)
Theorem extractImageView_total_deterministic (P : NodePath) (imagesDir : string) :
  (forall (sharpMetadata : string -> option Metadata) (productId imagePath : string),
     let unsized := baseFolderOf (folderNameOf imagePath) ++ "_"
                    ++ dashesToUnderscores (viewOf productId imagePath) in
     match sharpMetadata (pjoin [imagesDir; "images"; imagePath]) with
     | None =>
         extractImageView imagesDir sharpMetadata productId imagePath = unsized
     | Some m =>
         extractImageView imagesDir sharpMetadata productId imagePath =
         unsized ++ "_" ++ JS.numberToString (width m) ++ "x"
         ++ JS.numberToString (height m)
     end)
  /\
  (forall (probe1 probe2 : string -> option Metadata)
          (productId1 productId2 imagePath1 imagePath2 : string),
     baseFolderOf (folderNameOf imagePath1) = baseFolderOf (folderNameOf imagePath2) ->
     viewOf productId1 imagePath1 = viewOf productId2 imagePath2 ->
     probe1 (pjoin [imagesDir; "images"; imagePath1])
       = probe2 (pjoin [imagesDir; "images"; imagePath2]) ->
     extractImageView imagesDir probe1 productId1 imagePath1
       = extractImageView imagesDir probe2 productId2 imagePath2).
Proof.
  split.
  - intros probe pid path unsized. subst unsized.
    rewrite extractImageView_shape.
    destruct (probe _) as [m|].
    + now rewrite !append_assoc.
    + now rewrite append_nil_r.
  - intros probe1 probe2 pid1 pid2 path1 path2 Hb Hv Hp.
    rewrite !extractImageView_shape. now rewrite Hb, Hv, Hp.
Qed.

(** Two different files of two different products, same bucket, view and
    dimensions: same key. *)
Lemma extractImageView_total_deterministic_witness :
  extractImageView (P := Posix.path) repoImages probe800x600
    "ABC123" "a/Gray/ABC123_8_large.jpg"
  = extractImageView (P := Posix.path) repoImages probe800x600
      "XYZ9" "gray/XYZ9_profile.png".
Proof.
  apply (proj2 (extractImageView_total_deterministic Posix.path repoImages)
           probe800x600 probe800x600 "ABC123" "XYZ9"
           "a/Gray/ABC123_8_large.jpg" "gray/XYZ9_profile.png");
    reflexivity.
Defined.

(** C9, first half.  Every key begins with exactly one of [default_],
    [gray_] and [white_]. *)
Lemma extractImageView_prefix (P : NodePath) (imagesDir : string)
    (sharpMetadata : string -> option Metadata) (productId imagePath : string) :
  let k := extractImageView imagesDir sharpMetadata productId imagePath in
  (JS.startsWith k "default_" = true /\ JS.startsWith k "gray_" = false
   /\ JS.startsWith k "white_" = false)
  \/ (JS.startsWith k "default_" = false /\ JS.startsWith k "gray_" = true
      /\ JS.startsWith k "white_" = false)
  \/ (JS.startsWith k "default_" = false /\ JS.startsWith k "gray_" = false
      /\ JS.startsWith k "white_" = true).
Proof.
  intros k. subst k. rewrite extractImageView_shape.
  generalize (dashesToUnderscores (viewOf productId imagePath)
              ++ match sharpMetadata (pjoin [imagesDir; "images"; imagePath]) with
                 | Some m => "_" ++ JS.numberToString (width m) ++ "x"
                             ++ JS.numberToString (height m)
                 | None => ""
                 end).
  intros rest.
  destruct (baseFolderOf_cases (folderNameOf imagePath)) as [-> | [-> | ->]].
  - left. destruct rest; repeat split; reflexivity.
  - right; left. destruct rest; repeat split; reflexivity.
  - right; right. destruct rest; repeat split; reflexivity.
Qed.

(** ** Maps and sets *)

Section MapFacts.

Context {V : Type}.

Lemma mapGet_mapSet_same (k : string) (v : V) (m : JSMap V) :
  mapGet k (mapSet k v m) = Some v.
Proof.
  induction m as [|[k' v'] m IH]; simpl.
  - now rewrite String.eqb_refl.
  - destruct (k' =? k)%string eqn:E; simpl; rewrite E; [reflexivity | exact IH].
Qed.

Lemma mapGet_mapSet_other (k k' : string) (v : V) (m : JSMap V) :
  k' <> k -> mapGet k (mapSet k' v m) = mapGet k m.
Proof.
  intros Hne. induction m as [|[k0 v0] m IH]; simpl.
  - destruct (k' =? k)%string eqn:E; [apply String.eqb_eq in E; contradiction | reflexivity].
  - destruct (k0 =? k')%string eqn:E; simpl.
    + apply String.eqb_eq in E. subst k0.
      destruct (k' =? k)%string eqn:E'; [apply String.eqb_eq in E'; contradiction | reflexivity].
    + destruct (k0 =? k)%string; [reflexivity | exact IH].
Qed.

Lemma mapKeys_mapSet (k k' : string) (v : V) (m : JSMap V) :
  In k (mapKeys (mapSet k' v m)) <-> k = k' \/ In k (mapKeys m).
Proof.
  induction m as [|[k0 v0] m IH]; simpl.
  - intuition.
  - destruct (k0 =? k')%string eqn:E; simpl.
    + apply String.eqb_eq in E. subst k0. intuition.
    + rewrite IH. intuition.
Qed.

Lemma NoDup_mapSet (k : string) (v : V) (m : JSMap V) :
  NoDup (mapKeys m) -> NoDup (mapKeys (mapSet k v m)).
Proof.
  induction m as [|[k0 v0] m IH]; simpl; intros H.
  - constructor; [intros [] | constructor].
  - destruct (k0 =? k)%string eqn:E; simpl; [exact H |].
    inversion H as [|? ? Hn Hd]; subst. constructor.
    + fold (mapKeys (mapSet k v m)). rewrite mapKeys_mapSet. intros [-> | Hin].
      * now rewrite String.eqb_refl in E.
      * contradiction.
    + now apply IH.
Qed.

Lemma mapGet_In (k : string) (v : V) (m : JSMap V) :
  mapGet k m = Some v -> In (k, v) m.
Proof.
  induction m as [|[k0 v0] m IH]; simpl; [discriminate |].
  destruct (k0 =? k)%string eqn:E.
  - apply String.eqb_eq in E. intros [= ->]. subst. now left.
  - intros H. right. now apply IH.
Qed.

Variable keyOf : V -> string.

Lemma collect_snoc (l : list V) (x : V) (m : JSMap V) :
  collect keyOf (l ++ [x]) m = mapSet (keyOf x) x (collect keyOf l m).
Proof. unfold collect. now rewrite fold_left_app. Qed.

Lemma collect_NoDup (l : list V) : NoDup (mapKeys (collect keyOf l [])).
Proof.
  induction l as [|x l IH] using rev_ind; [constructor |].
  rewrite collect_snoc. now apply NoDup_mapSet.
Qed.

Lemma collect_keys (l : list V) (k : string) :
  In k (mapKeys (collect keyOf l [])) <-> exists x, In x l /\ keyOf x = k.
Proof.
  induction l as [|x l IH] using rev_ind.
  - simpl. split; [intros [] | intros [x [[] _]]].
  - rewrite collect_snoc, mapKeys_mapSet, IH. split.
    + intros [-> | [y [Hy Hk]]].
      * exists x. split; [apply in_or_app; right; now left | reflexivity].
      * exists y. split; [apply in_or_app; now left | exact Hk].
    + intros [y [Hy Hk]]. apply in_app_or in Hy. destruct Hy as [Hy | [-> | []]].
      * right. now exists y.
      * now left.
Qed.


End MapFacts.

Lemma setAdd_NoDup (k : string) (s : list string) :
  NoDup s -> NoDup (setAdd k s).
Proof.
  intros H. unfold setAdd. destruct (includes s k) eqn:E; [exact H |].
  assert (Hn : ~ In k s).
  { intros Hin. apply includes_In in Hin. congruence. }
  clear E. induction H as [|x s Hx Hs IH]; simpl.
  - constructor; [intros [] | constructor].
  - constructor.
    + intros Hin. apply in_app_or in Hin. destruct Hin as [Hin | [<- | []]].
      * contradiction.
      * apply Hn. now left.
    + apply IH. intros Hin. apply Hn. now right.
Qed.

Lemma setAdd_In (k k' : string) (s : list string) :
  In k (setAdd k' s) <-> k = k' \/ In k s.
Proof.
  unfold setAdd. destruct (includes s k') eqn:E.
  - apply includes_In in E. split; [now right | intros [-> | H]; assumption].
  - rewrite in_app_iff. simpl. intuition.
Qed.

(** ** Sorting keeps the elements *)

Section SortFacts.

Context {A : Type}.
Variable cmp : A -> A -> Z.

Lemma insertSorted_perm (x : A) (l : list A) :
  Permutation (insertSorted cmp x l) (x :: l).
Proof.
  induction l as [|y l IH]; simpl; [reflexivity |].
  destruct (cmp x y <=? 0)%Z; [reflexivity |].
  rewrite IH. apply perm_swap.
Qed.

Lemma arraySort_perm (l : list A) : Permutation (arraySort cmp l) l.
Proof.
  induction l as [|x l IH]; simpl; [reflexivity |].
  rewrite insertSorted_perm. now constructor.
Qed.

End SortFacts.


(** ** What the copier asks of the file store *)

Lemma copyCalls_app (t u : list Event) :
  copyCalls (t ++ u) = (copyCalls t ++ copyCalls u)%list.
Proof. unfold copyCalls. apply flat_map_app. Qed.

Lemma addsCalls_bind (m k : Script unit) (c d : list (string * string)) :
  addsCalls m c -> addsCalls k d -> addsCalls (m ;; k) (c ++ d).
Proof.
  intros Hm Hk w. destruct (Hm w) as [w1 [E1 C1]]. destruct (Hk w1) as [w2 [E2 C2]].
  exists w2. unfold bind. rewrite E1. split; [exact E2 |].
  now rewrite C2, C1, app_assoc.
Qed.

Lemma addsCalls_console (level : Level) (text : string) :
  addsCalls (console level text) [].
Proof.
  intros w. eexists. split; [reflexivity |].
  simpl. now rewrite copyCalls_app.
Qed.

Lemma addsCalls_forEach {A : Type} (body : A -> Script unit)
    (g : A -> list (string * string)) (l : list A) :
  (forall x, addsCalls (body x) (g x)) -> addsCalls (forEach l body) (flat_map g l).
Proof.
  intros Hb. induction l as [|x l IH]; simpl.
  - intros w. exists w. split; [reflexivity | now rewrite app_nil_r].
  - apply addsCalls_bind; [apply Hb | exact IH].
Qed.

Lemma map_as_flat_map {A B : Type} (f : A -> B) (l : list A) :
  map f l = flat_map (fun x => [f x]) l.
Proof. induction l as [|x l IH]; simpl; [reflexivity | now rewrite IH]. Qed.

Section CopierFacts.

Context {P : NodePath}.
Variable scriptDir : string.

Lemma copyView_calls (productId : string) (entry : string * string) :
  addsCalls (Rev1.copyView scriptDir productId entry) [copyCall scriptDir productId entry].
Proof.
  intros w. unfold Rev1.copyView, bind, tryCopyFileSync, copyCall.
  destruct (assoc _ (files (fs w))) as [content|].
  - destruct (storeFile _ _ _) as [f'|]; eexists; (split; [reflexivity |]);
      simpl; rewrite !copyCalls_app; simpl; now rewrite app_nil_r.
  - eexists. split; [reflexivity |].
    simpl. rewrite !copyCalls_app. simpl. now rewrite app_nil_r.
Qed.

(** In the later revisions the copier issues one call per entry of [views],
    from the path stored under the key to the file named after the key. *)
Lemma Rev1_copy_calls (products : list (Product (JSMap string))) :
  addsCalls (Rev1.copyImagesToOutput scriptDir products)
    (flat_map (fun p => map (copyCall scriptDir (productId p)) (views p)) products).
Proof.
  unfold Rev1.copyImagesToOutput.
  rewrite <- (app_nil_r (flat_map _ products)).
  apply addsCalls_bind; [| apply addsCalls_console].
  apply addsCalls_forEach. intros p.
  rewrite map_as_flat_map.
  apply addsCalls_forEach. intros e. apply copyView_calls.
Qed.

End CopierFacts.

(** ** The views of a product *)

Section SetFold.

Context {X : Type}.
Variable keyOf : X -> string.

Lemma foldSet_NoDup (l : list X) (s : list string) :
  NoDup s -> NoDup (fold_left (fun views x => setAdd (keyOf x) views) l s).
Proof.
  revert s. induction l as [|x l IH]; simpl; intros s H; [exact H |].
  apply IH. now apply setAdd_NoDup.
Qed.

Lemma foldSet_In (l : list X) (s : list string) (k : string) :
  In k (fold_left (fun views x => setAdd (keyOf x) views) l s)
  <-> In k s \/ exists x, In x l /\ keyOf x = k.
Proof.
  revert s. induction l as [|x l IH]; simpl; intros s.
  - split; [now left | intros [H | [x [[] _]]]; exact H].
  - rewrite IH, setAdd_In. split.
    + intros [[-> | H] | [y [Hy Hk]]].
      * right. exists x. split; [now left | reflexivity].
      * now left.
      * right. exists y. split; [now right | exact Hk].
    + intros [H | [y [[-> | Hy] Hk]]].
      * left. now right.
      * left. left. now symmetry.
      * right. now exists y.
Qed.

End SetFold.

Section ViewsFacts.

Context {P : NodePath}.
Variable scriptDir : string.
Variable sharpMetadata : string -> option Metadata.
Variable localeCompare : string -> string -> Z.

Let classify (product : Product unit) : string -> string :=
  extractImageView (imagesDir scriptDir) sharpMetadata (productId product).

Lemma Rev1_viewsOf_collect (product : Product unit) :
  Rev1.viewsOf scriptDir sharpMetadata product
  = collect (classify product) (images product) [].
Proof. reflexivity. Qed.

Lemma Rev1_views_are_keys (product : Product unit) (k : string) :
  In k (mapKeys (Rev1.viewsOf scriptDir sharpMetadata product)) ->
  exists imagePath, In imagePath (images product) /\ classify product imagePath = k.
Proof. rewrite Rev1_viewsOf_collect. apply collect_keys. Qed.


Lemma nonGray_views (productId : string) (vs : JSMap string) :
  (forall k, In k (mapKeys vs) ->
     JS.startsWith k "gray_" = negb (JS.startsWith k "default_" || JS.startsWith k "white_")) ->
  map view (filter (fun e => negb (isGray e)) (entriesOf productId vs))
  = filter (fun k => JS.startsWith k "default_" || JS.startsWith k "white_") (mapKeys vs).
Proof.
  induction vs as [|[k p] vs IH]; intros Hk; simpl; [reflexivity |].
  unfold isGray at 1. simpl.
  rewrite (Hk k) by now left. rewrite negb_involutive.
  destruct (JS.startsWith k "default_" || JS.startsWith k "white_"); simpl;
    (rewrite <- IH; [reflexivity | intros k' Hk'; apply Hk; now right]).
Qed.

(** C9.  Every key [extractImageView] returns begins with exactly one of
    [default_], [gray_] and [white_]; the bucket is the folder name when that
    is [gray] or [white] and [default] for every other folder name, the
    ignored ones included; and the non-gray list of a product holds exactly
    its keys that begin with [default_] or [white_]. *)
Theorem viewKey_buckets :
  (forall productId imagePath : string,
     let k := extractImageView (imagesDir scriptDir) sharpMetadata productId imagePath in
     (JS.startsWith k "default_" = true /\ JS.startsWith k "gray_" = false
      /\ JS.startsWith k "white_" = false)
     \/ (JS.startsWith k "default_" = false /\ JS.startsWith k "gray_" = true
         /\ JS.startsWith k "white_" = false)
     \/ (JS.startsWith k "default_" = false /\ JS.startsWith k "gray_" = false
         /\ JS.startsWith k "white_" = true))
  /\ (forall folderName : string,
        baseFolderOf folderName
        = if (folderName =? "gray")%string || (folderName =? "white")%string
          then folderName else "default")
  /\ forallb (fun folderName => (baseFolderOf folderName =? "default")%string)
       ignoredFolders = true
  /\ (forall product : Product unit,
        let resolved := withViews product (Rev1.viewsOf scriptDir sharpMetadata product) in
        let nonGrayKey := fun k => JS.startsWith k "default_" || JS.startsWith k "white_" in
        map view (nonGrayEntries resolved) = filter nonGrayKey (mapKeys (views resolved))
        /\ Permutation (map view (nonGrayList localeCompare resolved))
             (filter nonGrayKey (mapKeys (views resolved)))).
Proof.
  split; [| split; [| split]].
  - intros pid path. apply extractImageView_prefix.
  - intros f. unfold baseFolderOf.
    destruct (includes ignoredFolders f) eqn:Ei.
    + apply includes_In in Ei. simpl in Ei.
      destruct Ei as [<- | [<- | [<- | []]]]; reflexivity.
    + unfold includes. cbn [existsb].
      rewrite (String.eqb_sym "gray" f), (String.eqb_sym "white" f).
      now rewrite orb_false_r.
  - reflexivity.
  - intros product resolved nonGrayKey.
    assert (E : map view (nonGrayEntries resolved)
                = filter nonGrayKey (mapKeys (views resolved))).
    { unfold nonGrayEntries. apply nonGray_views. intros k Hk.
      destruct (Rev1_views_are_keys product k Hk) as [path [_ <-]].
      unfold classify.
      destruct (extractImageView_prefix P (imagesDir scriptDir) sharpMetadata
                  (productId product) path) as [[-> [-> ->]] | [[-> [-> ->]] | [-> [-> ->]]]];
        reflexivity. }
    split; [exact E |].
    rewrite <- E. apply Permutation_map. apply arraySort_perm.
Qed.

End ViewsFacts.

(** ** The order [sort] produces *)

Section SortOrder.

Context {A : Type}.
Variable cmp : A -> A -> Z.


Hypothesis cmp_total : forall a b, le a b \/ le b a.
Hypothesis cmp_trans : forall a b c, le a b -> le b c -> le a c.






End SortOrder.


Lemma indexOf_range (l : list string) (x : string) :
  indexOf l x = (-1)%Z \/ (0 <= indexOf l x)%Z.
Proof.
  induction l as [|y l IH]; simpl; [now left |].
  destruct (y =? x)%string; [right; lia |].
  destruct (Z.eqb_spec (indexOf l x) (-1)); [now left | right; lia].
Qed.

Section ComparatorFacts.

Variable localeCompare : string -> string -> Z.
Variable preferredOrder : list string.

Hypothesis localeCompare_total :
  forall a b, (localeCompare a b <= 0)%Z \/ (localeCompare b a <= 0)%Z.
Hypothesis localeCompare_trans :
  forall a b c, (localeCompare a b <= 0)%Z -> (localeCompare b c <= 0)%Z ->
                (localeCompare a c <= 0)%Z.







End ComparatorFacts.




Example sampleEntries_sorted :
  map view (sortEntries codeUnitCompare defaultPreferredOrder sampleEntries)
  = ["default_main"; "default_lifestyle_800x600"; "default_zzz"; "white_box_10x10"].
Proof. reflexivity. Qed.

(** ** The manifest generator *)

Lemma imageRow_fields (productInfo : StyleInfo) (style : string) (pos pos' : N)
    (trimmed : string) (r : ManifestRow) :
  imageRow productInfo style pos trimmed = Some (r, pos') ->
  pos' = (pos + 1)%N /\ rowImageSrc r = trimmed /\ rowPosition r = pos
  /\ rowStyle r = (if (pos + 1 =? 2)%N then style else "")
  /\ rowID r = id productInfo.
Proof.
  unfold imageRow. destruct (viewTokenOf trimmed) as [v|]; [| discriminate].
  destruct (dimensionsOf (dimPartOf trimmed)) as [wd ht].
  intros [= <- <-]. simpl. repeat split; reflexivity.
Qed.

Lemma imageRows_spec (productInfo : StyleInfo) (style : string) (imageList : list string) :
  forall (pos : N) (rows : list ManifestRow),
    imageRows productInfo style pos imageList = Some rows ->
    map rowImageSrc rows = filter JS.truthy (map JS.trim imageList)
    /\ map rowPosition rows = positionsFrom pos (length rows)
    /\ map rowStyle rows
       = map (fun p => if (p + 1 =? 2)%N then style else "") (positionsFrom pos (length rows))
    /\ Forall (fun r => rowID r = id productInfo) rows.
Proof.
  induction imageList as [|image rest IH]; intros pos rows H; simpl in H.
  - injection H as <-. simpl. repeat split; constructor.
  - simpl. destruct (JS.truthy (JS.trim image)) eqn:Et; simpl in H.
    + destruct (imageRow productInfo style pos (JS.trim image)) as [[r pos']|] eqn:Er;
        [| discriminate].
      destruct (imageRows productInfo style pos' rest) as [rs|] eqn:Ers; [| discriminate].
      injection H as <-.
      apply imageRow_fields in Er. destruct Er as [-> [Hsrc [Hpos [Hstyle Hid]]]].
      destruct (IH _ _ Ers) as [IH1 [IH2 [IH3 IH4]]].
      simpl. rewrite Hsrc, Hpos, Hstyle, IH1, IH2, IH3.
      repeat split. now constructor.
    + now apply IH.
Qed.

Lemma styles_after_first (style : string) (n : nat) (pos : N) :
  (2 <= pos)%N ->
  map (fun p => if (p + 1 =? 2)%N then style else "") (positionsFrom pos n)
  = repeat "" n.
Proof.
  revert pos. induction n as [|n IH]; intros pos Hp; simpl; [reflexivity |].
  rewrite IH by lia. destruct (N.eqb_spec (pos + 1) 2); [lia | reflexivity].
Qed.

Lemma positionsFrom_seq (n : nat) (start : nat) :
  positionsFrom (N.of_nat start) n = map N.of_nat (seq start n).
Proof.
  revert start. induction n as [|n IH]; intros start; simpl; [reflexivity |].
  f_equal. rewrite <- IH. f_equal. lia.
Qed.

Lemma chooseImageList_chosen (row : string) (imageList : list string) :
  chooseImageList (nth_error (parseInventoryRow row) 1)
    (nth_error (parseInventoryRow row) 2) = Some imageList ->
  imageList = JS.split "," (chosenCell row).
Proof.
  unfold chooseImageList, chosenCell.
  destruct (parseInventoryRow row) as [|f0 [|f1 [|f2 more]]]; simpl.
  - discriminate.
  - discriminate.
  - now intros [= <-].
  - destruct (JS.truthy f2); now intros [= <-].
Qed.

Lemma rowsOfInventoryRow_spec (styleMap : JSMap StyleInfo) (row : string)
    (rows : list ManifestRow) :
  rowsOfInventoryRow styleMap row = Some rows ->
  map rowImageSrc rows
    = (if rowIsUsed styleMap row
       then filter JS.truthy (map JS.trim (JS.split "," (chosenCell row)))
       else [])
  /\ map rowPosition rows = map N.of_nat (seq 1 (length rows))
  /\ map rowStyle rows
     = match rows with
       | [] => []
       | _ :: rest => styleOfRow row :: repeat "" (length rest)
       end.
Proof.
  unfold rowsOfInventoryRow, rowIsUsed. fold (styleOfRow row).
  destruct (JS.truthy (JS.trim row)); simpl.
  - destruct (mapGet (styleOfRow row) styleMap) as [info|].
    + destruct (chooseImageList _ _) as [imageList|] eqn:Ec; [| discriminate].
      apply chooseImageList_chosen in Ec. subst imageList. intros H.
      destruct (imageRows_spec _ _ _ _ _ H) as [H1 [H2 [H3 _]]].
      rewrite H1, H2, H3. split; [reflexivity |]. split.
      * apply (positionsFrom_seq (length rows) 1).
      * destruct rows as [|r rest]; simpl; [reflexivity |].
        f_equal. apply styles_after_first. lia.
    + intros [= <-]. repeat split.
  - intros [= <-]. repeat split.
Qed.

Example sampleInventoryLine_rows :
  rowsOfInventoryRow sampleStyleMap sampleInventoryLine = Some [sampleRow1; sampleRow2].
Proof. reflexivity. Qed.

(** C2 (as the code has it).  Among the rows one inventory line
    contributes, the Style column holds the style identifier on the first
    row and the empty string on every other row: [position++] has already
    run when [position === 2] is tested. *)
Theorem style_on_first_row (styleMap : JSMap StyleInfo) (row : string)
    (rows : list ManifestRow) :
  rowsOfInventoryRow styleMap row = Some rows ->
  map rowStyle rows
  = match rows with
    | [] => []
    | _ :: rest => styleOfRow row :: repeat "" (length rest)
    end.
Proof. intros H. now apply rowsOfInventoryRow_spec in H. Qed.

Lemma style_on_first_row_witness :
  map rowStyle [sampleRow1; sampleRow2]
  = [styleOfRow sampleInventoryLine; ""].
Proof.
  apply (style_on_first_row sampleStyleMap sampleInventoryLine [sampleRow1; sampleRow2]).
  reflexivity.
Defined.

(** C2 as the specification words it fails: of the two rows of the sample
    product the first carries the style and the second does not. *)
Lemma style_not_on_second_row :
  rowsOfInventoryRow sampleStyleMap sampleInventoryLine = Some [sampleRow1; sampleRow2]
  /\ rowStyle sampleRow1 = "ABC123"
  /\ rowStyle sampleRow2 = "".
Proof. repeat split. Qed.

(** ** From the inventory line to the manifest rows *)

Lemma splitOutsideQuotes_quote (t h : string) (r : list string) (e : bool) :
  splitOutsideQuotes t = (h :: r, e) ->
  splitOutsideQuotes (String JS.dquoteChar t) = (String JS.dquoteChar h :: r, negb e).
Proof. intros H. simpl. rewrite H. reflexivity. Qed.

Lemma splitOutsideQuotes_comma (t : string) (fields : list string) :
  splitOutsideQuotes t = (fields, true) ->
  splitOutsideQuotes (String "," t) = ("" :: fields, true).
Proof. intros H. simpl. rewrite H. reflexivity. Qed.

Lemma splitOutsideQuotes_inside (q t h : string) (r : list string) :
  noQuote q = true ->
  splitOutsideQuotes t = (h :: r, false) ->
  splitOutsideQuotes (q ++ t) = ((q ++ h) :: r, false).
Proof.
  intros Hq Ht. induction q as [|c q IH]; [exact Ht |].
  unfold noQuote in *. cbn [JS.includesChar] in Hq.
  rewrite negb_orb in Hq. apply andb_true_iff in Hq. destruct Hq as [Hc Hq].
  rewrite append_cons. cbn [splitOutsideQuotes]. rewrite (IH Hq).
  rewrite andb_false_r. apply negb_true_iff in Hc. rewrite Hc. reflexivity.
Qed.

Lemma splitOutsideQuotes_quoted (x t : string) (r : list string) :
  noQuote x = true ->
  splitOutsideQuotes t = ("" :: r, true) ->
  splitOutsideQuotes (JS.dquote ++ x ++ JS.dquote ++ t)
  = ((JS.dquote ++ x ++ JS.dquote) :: r, true).
Proof.
  intros Hx Ht.
  change (JS.dquote ++ x ++ JS.dquote ++ t)
    with (String JS.dquoteChar (x ++ String JS.dquoteChar t)).
  change (JS.dquote ++ x ++ JS.dquote)
    with (String JS.dquoteChar (x ++ String JS.dquoteChar "")).
  apply (splitOutsideQuotes_quote _ _ _ false).
  apply splitOutsideQuotes_inside; [exact Hx |].
  apply (splitOutsideQuotes_quote _ _ _ true). exact Ht.
Qed.

Lemma endsWith_append (a b : string) : JS.endsWith (a ++ b) b = true.
Proof.
  induction a as [|c a IH].
  - change ("" ++ b) with b. destruct b; cbn [JS.endsWith]; now rewrite String.eqb_refl.
  - rewrite append_cons. cbn [JS.endsWith]. rewrite IH. apply orb_true_r.
Qed.

Lemma substring_prefix (a b : string) : substring 0 (String.length a) (a ++ b) = a.
Proof.
  induction a as [|c a IH]; simpl; [now destruct b | now rewrite IH].
Qed.

Lemma stripQuotes_quoted (x : string) : stripQuotes (JS.dquote ++ x ++ JS.dquote) = x.
Proof.
  unfold stripQuotes.
  change (JS.dquote ++ x ++ JS.dquote) with (String JS.dquoteChar (x ++ JS.dquote)).
  cbv beta iota zeta. rewrite Ascii.eqb_refl, endsWith_append.
  unfold JS.dropLast. rewrite length_append. simpl.
  replace (String.length x + 1 - 1) with (String.length x) by lia.
  apply substring_prefix.
Qed.

Lemma inventoryLine_fields (productId : string) (nonGray gray : list Entry) :
  noQuote productId = true ->
  noQuote (JS.join ", " (map filename nonGray)) = true ->
  noQuote (JS.join ", " (map filename gray)) = true ->
  parseInventoryRow (inventoryLine productId nonGray gray)
  = [JS.trim productId;
     JS.trim (JS.join ", " (map filename nonGray));
     JS.trim (JS.join ", " (map filename gray))].
Proof.
  intros Hp Hn Hg. unfold parseInventoryRow, inventoryLine.
  set (ng := JS.join ", " (map filename nonGray)) in *.
  set (g := JS.join ", " (map filename gray)) in *.
  assert (E3 : splitOutsideQuotes (JS.dquote ++ g ++ JS.dquote)
               = ([JS.dquote ++ g ++ JS.dquote], true)).
  { rewrite <- (append_nil_r (JS.dquote ++ g ++ JS.dquote)) at 1.
    rewrite !append_assoc. now apply splitOutsideQuotes_quoted. }
  assert (E2 : splitOutsideQuotes
                 (JS.dquote ++ ng ++ JS.dquote ++ "," ++ JS.dquote ++ g ++ JS.dquote)
               = ([JS.dquote ++ ng ++ JS.dquote; JS.dquote ++ g ++ JS.dquote], true)).
  { apply splitOutsideQuotes_quoted; [exact Hn |].
    now apply splitOutsideQuotes_comma. }
  assert (E1 : splitOutsideQuotes
                 (JS.dquote ++ productId ++ JS.dquote ++ "," ++ JS.dquote ++ ng
                  ++ JS.dquote ++ "," ++ JS.dquote ++ g ++ JS.dquote)
               = ([JS.dquote ++ productId ++ JS.dquote; JS.dquote ++ ng ++ JS.dquote;
                   JS.dquote ++ g ++ JS.dquote], true)).
  { apply splitOutsideQuotes_quoted; [exact Hp |].
    now apply splitOutsideQuotes_comma. }
  rewrite E1. cbn [fst map]. now rewrite !stripQuotes_quoted.
Qed.

Lemma goodName_spec (f : string) :
  goodName f = true ->
  JS.truthy f = true /\ JS.includesChar "," f = false /\ noQuote f = true
  /\ JS.dropWhile JS.isWhiteSpace f = f /\ JS.dropWhileEnd JS.isWhiteSpace f = f.
Proof.
  unfold goodName. rewrite !andb_true_iff, negb_true_iff, !String.eqb_eq. tauto.
Qed.

Lemma length_dropWhile (p : ascii -> bool) (s : string) :
  String.length (JS.dropWhile p s) <= String.length s.
Proof.
  induction s as [|c s IH]; simpl; [lia |].
  destruct (p c); simpl; lia.
Qed.

Lemma dropWhile_append (p : ascii -> bool) (a b : string) :
  JS.truthy a = true -> JS.dropWhile p a = a -> JS.dropWhile p (a ++ b) = a ++ b.
Proof.
  destruct a as [|c t]; [discriminate |]. intros _ H.
  rewrite append_cons. simpl in *. destruct (p c); [| reflexivity].
  pose proof (length_dropWhile p t) as L. rewrite H in L. simpl in L. lia.
Qed.

Lemma dropWhileEnd_append (p : ascii -> bool) (a b : string) :
  JS.truthy (JS.dropWhileEnd p b) = true ->
  JS.dropWhileEnd p (a ++ b) = a ++ JS.dropWhileEnd p b.
Proof.
  intros H. induction a as [|c a IH]; [reflexivity |].
  rewrite !append_cons. cbn [JS.dropWhileEnd]. rewrite IH.
  destruct (a ++ JS.dropWhileEnd p b) eqn:E; [| reflexivity].
  destruct a; [| discriminate]. simpl in E. rewrite E in H. discriminate.
Qed.

Lemma trim_good (f : string) : goodName f = true -> JS.trim f = f.
Proof.
  intros H. apply goodName_spec in H. destruct H as [_ [_ [_ [H1 H2]]]].
  unfold JS.trim. now rewrite H1, H2.
Qed.

Lemma trim_space_good (f : string) : goodName f = true -> JS.trim (String " " f) = f.
Proof. intros H. unfold JS.trim. cbn [JS.dropWhile]. now apply trim_good. Qed.

Lemma join_cons2 (sep x y : string) (l : list string) :
  JS.join sep (x :: y :: l) = x ++ sep ++ JS.join sep (y :: l).
Proof. reflexivity. Qed.

Lemma split_join_good (n : string) (names : list string) :
  forallb goodName (n :: names) = true ->
  JS.split "," (JS.join ", " (n :: names)) = n :: map (String " ") names.
Proof.
  revert n. induction names as [|m l IH]; intros n H.
  - simpl in H. rewrite andb_true_r in H. apply goodName_spec in H.
    destruct H as [_ [Hc _]]. now apply split_no_sep.
  - cbn [forallb] in H. apply andb_true_iff in H. destruct H as [Hn Hrest].
    rewrite join_cons2.
    change (n ++ ", " ++ JS.join ", " (m :: l))
      with (n ++ String "," (String " " (JS.join ", " (m :: l)))).
    rewrite split_append_sep.
    apply goodName_spec in Hn. destruct Hn as [_ [Hc _]].
    rewrite (split_no_sep "," n Hc).
    cbn [JS.split]. replace (" " =? ",")%char with false by reflexivity.
    rewrite (IH m Hrest). reflexivity.
Qed.

Lemma items_of_join (names : list string) :
  forallb goodName names = true ->
  filter JS.truthy (map JS.trim (JS.split "," (JS.join ", " names))) = names.
Proof.
  destruct names as [|n l]; [reflexivity |]. intros H.
  rewrite (split_join_good n l H).
  cbn [forallb] in H. apply andb_true_iff in H. destruct H as [Hn Hl].
  cbn [map filter]. rewrite (trim_good n Hn).
  destruct (goodName_spec n Hn) as [-> _]. f_equal.
  induction l as [|m l IH]; [reflexivity |].
  cbn [forallb] in Hl. apply andb_true_iff in Hl. destruct Hl as [Hm Hl].
  cbn [map filter]. rewrite (trim_space_good m Hm).
  destruct (goodName_spec m Hm) as [-> _]. f_equal. now apply IH.
Qed.

Lemma join_truthy (n : string) (l : list string) :
  JS.truthy n = true -> JS.truthy (JS.join ", " (n :: l)) = true.
Proof.
  destruct n as [|c n]; [discriminate |]. intros _.
  destruct l; reflexivity.
Qed.

Lemma join_dropWhile (n : string) (l : list string) :
  goodName n = true ->
  JS.dropWhile JS.isWhiteSpace (JS.join ", " (n :: l)) = JS.join ", " (n :: l).
Proof.
  intros H. apply goodName_spec in H. destruct H as [Ht [_ [_ [Hd _]]]].
  destruct l as [|m l]; [exact Hd |].
  rewrite join_cons2. now apply dropWhile_append.
Qed.

Lemma join_dropWhileEnd (n : string) (l : list string) :
  forallb goodName (n :: l) = true ->
  JS.dropWhileEnd JS.isWhiteSpace (JS.join ", " (n :: l)) = JS.join ", " (n :: l).
Proof.
  revert n. induction l as [|m l IH]; intros n H.
  - simpl in H. rewrite andb_true_r in H. now apply goodName_spec in H.
  - cbn [forallb] in H. apply andb_true_iff in H. destruct H as [Hn Hrest].
    rewrite join_cons2.
    replace (n ++ ", " ++ JS.join ", " (m :: l))
      with ((n ++ ", ") ++ JS.join ", " (m :: l)) by now rewrite append_assoc.
    rewrite dropWhileEnd_append; rewrite (IH m Hrest); [reflexivity |].
    apply join_truthy. cbn [forallb] in Hrest. apply andb_true_iff in Hrest.
    now destruct (goodName_spec m (proj1 Hrest)).
Qed.

Lemma trim_join_good (names : list string) :
  forallb goodName names = true ->
  JS.trim (JS.join ", " names) = JS.join ", " names.
Proof.
  destruct names as [|n l]; [reflexivity |]. intros H.
  unfold JS.trim. rewrite join_dropWhile.
  - now apply join_dropWhileEnd.
  - cbn [forallb] in H. now apply andb_true_iff in H.
Qed.

Lemma noQuote_append (a b : string) : noQuote (a ++ b) = noQuote a && noQuote b.
Proof. unfold noQuote. now rewrite includesChar_append, negb_orb. Qed.

Lemma join_noQuote (names : list string) :
  forallb goodName names = true -> noQuote (JS.join ", " names) = true.
Proof.
  destruct names as [|n l]; [reflexivity |]. revert n.
  induction l as [|m l IH]; intros n H.
  - simpl in H. rewrite andb_true_r in H. now apply goodName_spec in H.
  - cbn [forallb] in H. apply andb_true_iff in H. destruct H as [Hn Hrest].
    rewrite join_cons2, !noQuote_append, (IH m Hrest).
    apply goodName_spec in Hn. destruct Hn as [_ [_ [-> _]]]. reflexivity.
Qed.

Lemma truthy_append_r (a b : string) : JS.truthy b = true -> JS.truthy (a ++ b) = true.
Proof. destruct a; [now intros | reflexivity]. Qed.

Lemma inventoryLine_not_blank (productId : string) (nonGray gray : list Entry) :
  JS.truthy (JS.trim (inventoryLine productId nonGray gray)) = true.
Proof.
  unfold inventoryLine, JS.trim.
  set (ng := JS.join ", " (map filename nonGray)).
  set (g := JS.join ", " (map filename gray)).
  change (JS.dquote ++ productId ++ JS.dquote ++ "," ++ JS.dquote ++ ng ++ JS.dquote
          ++ "," ++ JS.dquote ++ g ++ JS.dquote)
    with (String JS.dquoteChar
            (productId ++ JS.dquote ++ "," ++ JS.dquote ++ ng ++ JS.dquote
             ++ "," ++ JS.dquote ++ g ++ JS.dquote)).
  cbn [JS.dropWhile].
  replace (JS.isWhiteSpace JS.dquoteChar) with false by reflexivity.
  replace (String JS.dquoteChar
             (productId ++ JS.dquote ++ "," ++ JS.dquote ++ ng ++ JS.dquote
              ++ "," ++ JS.dquote ++ g ++ JS.dquote))
    with ((JS.dquote ++ productId ++ JS.dquote ++ "," ++ JS.dquote ++ ng ++ JS.dquote
           ++ "," ++ JS.dquote ++ g) ++ JS.dquote)
    by now rewrite !append_assoc.
  rewrite dropWhileEnd_append; [| reflexivity].
  apply truthy_append_r. reflexivity.
Qed.

(** The rows of a line the aggregator wrote. *)
Lemma rows_of_inventoryLine (styleMap : JSMap StyleInfo) (productId : string)
    (nonGray gray : list Entry) (rows : list ManifestRow) :
  noQuote productId = true ->
  forallb goodName (map filename nonGray) = true ->
  forallb goodName (map filename gray) = true ->
  rowsOfInventoryRow styleMap (inventoryLine productId nonGray gray) = Some rows ->
  map rowImageSrc rows
  = match mapGet (JS.trim productId) styleMap with
    | Some _ => map filename (match gray with [] => nonGray | _ :: _ => gray end)
    | None => []
    end
  /\ map rowPosition rows = map N.of_nat (seq 1 (length rows)).
Proof.
  intros Hp Hn Hg Hrows.
  apply rowsOfInventoryRow_spec in Hrows. destruct Hrows as [Hsrc [Hpos _]].
  split; [| exact Hpos]. rewrite Hsrc. clear Hsrc Hpos.
  pose proof (inventoryLine_fields productId nonGray gray Hp
                (join_noQuote _ Hn) (join_noQuote _ Hg)) as Hf.
  unfold rowIsUsed, styleOfRow, chosenCell.
  rewrite inventoryLine_not_blank, Hf. cbn [nth andb].
  rewrite (trim_join_good _ Hn), (trim_join_good _ Hg).
  destruct (mapGet (JS.trim productId) styleMap) as [info|]; [| reflexivity].
  destruct gray as [|e gray'].
  - cbn [map JS.join String.concat JS.truthy]. now apply items_of_join.
  - cbn [map] in Hg |- *. cbn [forallb] in Hg.
    destruct (proj1 (andb_true_iff _ _) Hg) as [He _].
    destruct (goodName_spec _ He) as [Ht _].
    rewrite (join_truthy _ _ Ht). apply (items_of_join (filename e :: map filename gray')).
    exact Hg.
Qed.

Lemma manifestRows_groups (styleMap : JSMap StyleInfo) (rows : list string) :
  forall output,
    manifestRows styleMap rows = Some output ->
    exists groups,
      output = concat groups
      /\ Forall2 (fun row group => rowsOfInventoryRow styleMap row = Some group)
           rows groups.
Proof.
  induction rows as [|row rest IH]; simpl; intros output H.
  - injection H as <-. exists []. split; constructor.
  - destruct (rowsOfInventoryRow styleMap row) as [here|] eqn:Eh; [| discriminate].
    destruct (manifestRows styleMap rest) as [later|]; [| discriminate].
    injection H as <-. destruct (IH later eq_refl) as [groups [-> HF]].
    exists (here :: groups). split; [reflexivity | now constructor].
Qed.

Lemma generateMatrixifyCSV_reads {P : NodePath}
    (styleMapFile inventoryFile outPath styleMapContent inventoryContent : string)
    (w : World) :
  assoc styleMapFile (files (fs w)) = Some styleMapContent ->
  assoc inventoryFile (files (fs w)) = Some inventoryContent ->
  generateMatrixifyCSV styleMapFile inventoryFile outPath w
  = match manifestCsv styleMapContent inventoryContent with
    | None => Uncaught w
    | Some csvText =>
        (writeFileSync outPath csvText ;;
         console LOG ("Matrixify CSV written to: " ++ outPath)) w
    end.
Proof.
  intros Hs Hi.
  assert (Hp1 : present (fs w) styleMapFile = true).
  { unfold present, isFile. rewrite Hs. apply orb_true_r. }
  assert (Hp2 : present (fs w) inventoryFile = true).
  { unfold present, isFile. rewrite Hi. apply orb_true_r. }
  unfold generateMatrixifyCSV. unfold bind at 1. unfold existsSync at 1.
  rewrite Hp1. cbn [negb]. unfold bind at 1. unfold readFileSync at 1.
  rewrite Hs. unfold bind at 1. unfold existsSync at 1.
  rewrite Hp2. cbn [negb]. unfold bind at 1. unfold readFileSync at 1.
  rewrite Hi. destruct (manifestCsv styleMapContent inventoryContent); reflexivity.
Qed.

(** C8.  The manifest the generator writes is the header followed by the
    rows of one group per inventory line, in the order of the lines after
    the first.  The image sources of a group are the non-blank, trimmed
    items of one cell of the line: the gray cell when it is not empty,
    otherwise the non-gray cell (and no row at all for a blank line or a
    style the style map does not hold).  The positions of a group are
    1, 2, 3, ...  (first part, on the row loop).  For a line the aggregator
    wrote from a gray and a non-gray list of well-formed file names, the
    sources are the file names of the gray list when it is not empty and of
    the non-gray list otherwise (second part).  With the style map file and
    the inventory file in the store, [generateMatrixifyCSV] ends in the
    exception of the row loop when there is one, and otherwise goes on to
    write the text of exactly those rows to [outPath]; when the store takes
    the write, the run ends normally and [outPath] holds that text (third
    part). *)
Theorem manifest_rows_follow_one_list {P : NodePath} (styleMap : JSMap StyleInfo) :
  (forall (rows : list string) (output : list ManifestRow),
     manifestRows styleMap rows = Some output ->
     exists groups,
       output = concat groups
       /\ Forall2
            (fun row group =>
               map rowImageSrc group
               = (if rowIsUsed styleMap row
                  then filter JS.truthy (map JS.trim (JS.split "," (chosenCell row)))
                  else [])
               /\ map rowPosition group = map N.of_nat (seq 1 (length group)))
            rows groups)
  /\ (forall (productId : string) (nonGray gray : list Entry) (rows : list ManifestRow),
        noQuote productId = true ->
        forallb goodName (map filename nonGray) = true ->
        forallb goodName (map filename gray) = true ->
        rowsOfInventoryRow styleMap (inventoryLine productId nonGray gray) = Some rows ->
        map rowImageSrc rows
        = match mapGet (JS.trim productId) styleMap with
          | Some _ => map filename (match gray with [] => nonGray | _ :: _ => gray end)
          | None => []
          end
        /\ map rowPosition rows = map N.of_nat (seq 1 (length rows)))
  /\ (forall (styleMapFile inventoryFile outPath styleMapContent inventoryContent : string)
             (w : World),
        assoc styleMapFile (files (fs w)) = Some styleMapContent ->
        assoc inventoryFile (files (fs w)) = Some inventoryContent ->
        styleMap = parseStyleMap styleMapContent ->
        (manifestRows styleMap (tl (JS.splitLines inventoryContent)) = None ->
         manifestCsv styleMapContent inventoryContent = None
         /\ generateMatrixifyCSV styleMapFile inventoryFile outPath w = Uncaught w)
        /\ (forall output : list ManifestRow,
              manifestRows styleMap (tl (JS.splitLines inventoryContent)) = Some output ->
              manifestCsv styleMapContent inventoryContent = Some (manifestText output)
              /\ generateMatrixifyCSV styleMapFile inventoryFile outPath w
                 = (writeFileSync outPath (manifestText output) ;;
                    console LOG ("Matrixify CSV written to: " ++ outPath)) w
              /\ (forall f' : FS,
                    storeFile (fs w) outPath (manifestText output) = Some f' ->
                    generateMatrixifyCSV styleMapFile inventoryFile outPath w
                    = Done tt
                        {| fs := f';
                           trace := ((trace w ++ [WriteFileSync outPath true])
                                     ++ [Console LOG
                                           ("Matrixify CSV written to: " ++ outPath)])%list |}
                    /\ assoc outPath (files f') = Some (manifestText output))
              /\ exists groups,
                   output = concat groups
                   /\ Forall2
                        (fun row group =>
                           map rowImageSrc group
                           = (if rowIsUsed styleMap row
                              then filter JS.truthy
                                     (map JS.trim (JS.split "," (chosenCell row)))
                              else [])
                           /\ map rowPosition group
                              = map N.of_nat (seq 1 (length group)))
                        (tl (JS.splitLines inventoryContent)) groups)).
Proof.
  assert (Hgroups : forall (rows : list string) (output : list ManifestRow),
     manifestRows styleMap rows = Some output ->
     exists groups,
       output = concat groups
       /\ Forall2
            (fun row group =>
               map rowImageSrc group
               = (if rowIsUsed styleMap row
                  then filter JS.truthy (map JS.trim (JS.split "," (chosenCell row)))
                  else [])
               /\ map rowPosition group = map N.of_nat (seq 1 (length group)))
            rows groups).
  { intros rows output H. destruct (manifestRows_groups _ _ _ H) as [groups [-> HF]].
    exists groups. split; [reflexivity |]. clear H.
    induction HF as [|row group rows' groups' Hrow _ IH]; [constructor |].
    constructor; [| exact IH].
    apply rowsOfInventoryRow_spec in Hrow. destruct Hrow as [H1 [H2 _]]. now split. }
  split; [exact Hgroups |]. split.
  - intros. now apply rows_of_inventoryLine.
  - intros styleMapFile inventoryFile outPath styleMapContent inventoryContent w
      Hs Hi ->.
    pose proof (generateMatrixifyCSV_reads styleMapFile inventoryFile outPath
                  styleMapContent inventoryContent w Hs Hi) as Hrun.
    split.
    + intros Hnone.
      assert (Hcsv : manifestCsv styleMapContent inventoryContent = None).
      { unfold manifestCsv. now rewrite Hnone. }
      split; [exact Hcsv |]. now rewrite Hrun, Hcsv.
    + intros output Hsome.
      assert (Hcsv : manifestCsv styleMapContent inventoryContent
                     = Some (manifestText output)).
      { unfold manifestCsv. now rewrite Hsome. }
      rewrite Hcsv in Hrun.
      split; [exact Hcsv |]. split; [exact Hrun |]. split.
      * intros f' Hstore. rewrite Hrun.
        unfold bind, writeFileSync, console, emit. rewrite Hstore. cbn [fs trace].
        split; [reflexivity |].
        unfold storeFile in Hstore.
        destruct (isDir (fs w) (dirname outPath) && negb (isDir (fs w) outPath));
          [| discriminate].
        injection Hstore as <-. cbn [files].
        apply (mapGet_mapSet_same outPath (manifestText output) (files (fs w))).
      * now apply Hgroups.
Qed.

Lemma manifest_rows_follow_one_list_witness :
  (exists groups,
     [sampleRow1; sampleRow2; sampleRow3; sampleRow4] = concat groups
     /\ Forall2
          (fun row group =>
             map rowImageSrc group
             = (if rowIsUsed sampleStyleMap row
                then filter JS.truthy (map JS.trim (JS.split "," (chosenCell row)))
                else [])
             /\ map rowPosition group = map N.of_nat (seq 1 (length group)))
          sampleLines groups)
  /\ (map rowImageSrc [sampleRow3; sampleRow4]
      = ["XYZ9_default_main_800x600.jpg"; "XYZ9_white_front_800x600.jpg"]
      /\ map rowPosition [sampleRow3; sampleRow4] = [1%N; 2%N])
  /\ (exists w',
        generateMatrixifyCSV (P := Posix.path)
          (Rev1.styleMapFile (P := Posix.path) repoDir "rockyboots")
          (Rev1.inventoryPath (P := Posix.path) repoDir "rockyboots")
          (Rev1.outPath (P := Posix.path) repoDir "rockyboots") generatorWorld
        = Done tt w'
        /\ assoc (Rev1.outPath (P := Posix.path) repoDir "rockyboots") (files (fs w'))
           = Some (manifestText [sampleRow1; sampleRow2])).
Proof.
  split; [| split].
  - apply (proj1 (manifest_rows_follow_one_list (P := Posix.path) sampleStyleMap)
             sampleLines [sampleRow1; sampleRow2; sampleRow3; sampleRow4]).
    reflexivity.
  - apply (proj1 (proj2 (manifest_rows_follow_one_list (P := Posix.path) sampleStyleMap))
             "XYZ9"
             [{| filename := "XYZ9_default_main_800x600.jpg"; view := "default_main_800x600" |};
              {| filename := "XYZ9_white_front_800x600.jpg"; view := "white_front_800x600" |}]
             [] [sampleRow3; sampleRow4]);
      reflexivity.
  - destruct (proj2 (proj2 (manifest_rows_follow_one_list (P := Posix.path)
                              (parseStyleMap sampleStyleMapContent)))
                (Rev1.styleMapFile (P := Posix.path) repoDir "rockyboots")
                (Rev1.inventoryPath (P := Posix.path) repoDir "rockyboots")
                (Rev1.outPath (P := Posix.path) repoDir "rockyboots")
                sampleStyleMapContent sampleInventoryContent generatorWorld
                eq_refl eq_refl eq_refl) as [_ Hsome].
    destruct (Hsome [sampleRow1; sampleRow2] eq_refl) as [_ [_ [Hwrite _]]].
    destruct (Hwrite
                {| dirs := dirs (fs generatorWorld);
                   files := mapSet (Rev1.outPath (P := Posix.path) repoDir "rockyboots")
                              (manifestText [sampleRow1; sampleRow2])
                              (files (fs generatorWorld)) |}
                eq_refl) as [Hrun Hfile].
    eexists. split; [exact Hrun | exact Hfile].
Defined.

(** ** Re-parsing a file name *)

Lemma prefix_jpg_append (c : ascii) (t : string) :
  String.prefix ".jpg" (String c t) = false ->
  String.prefix ".jpg" (String c t ++ ".jpg") = false.
Proof.
  rewrite append_cons, !prefix_cons.
  destruct (ascii_dec "." c) as [_|]; [| reflexivity].
  destruct t as [|c2 t]; [reflexivity |].
  rewrite append_cons, !prefix_cons.
  destruct (ascii_dec "j" c2) as [_|]; [| reflexivity].
  destruct t as [|c3 t]; [reflexivity |].
  rewrite append_cons, !prefix_cons.
  destruct (ascii_dec "p" c3) as [_|]; [| reflexivity].
  destruct t as [|c4 t]; [reflexivity |].
  rewrite append_cons, !prefix_cons.
  destruct (ascii_dec "g" c4) as [_|]; [| reflexivity].
  now rewrite prefix_empty.
Qed.

Lemma removeFirst_jpg (v : string) :
  JS.includes v ".jpg" = false -> JS.removeFirst ".jpg" (v ++ ".jpg") = v.
Proof.
  induction v as [|c t IH]; intros H; [reflexivity |].
  cbn [JS.includes] in H. apply orb_false_iff in H. destruct H as [Hp Hi].
  change (String c t ++ ".jpg") with (String c (t ++ ".jpg")).
  cbn [JS.removeFirst].
  change (String c (t ++ ".jpg")) with (String c t ++ ".jpg") at 1.
  rewrite (prefix_jpg_append c t Hp). now rewrite IH.
Qed.

Lemma nth_error_second_last {A : Type} (l : list A) (a b : A) :
  nth_error (l ++ [a; b]) (length (l ++ [a; b]) - 2) = Some a.
Proof.
  rewrite length_app. simpl.
  replace (length l + 2 - 2) with (length l) by lia.
  rewrite nth_error_app2 by lia. now rewrite Nat.sub_diag.
Qed.

Lemma last_two {A : Type} (l : list A) (a b d : A) : last (l ++ [a; b]) d = b.
Proof.
  replace (l ++ [a; b])%list with ((l ++ [a]) ++ [b])%list by now rewrite <- app_assoc.
  apply last_last.
Qed.

Lemma includesChar_substring (c : ascii) (s : string) :
  JS.includesChar c s = false ->
  forall n m, JS.includesChar c (substring n m s) = false.
Proof.
  induction s as [|d s IH]; intros H n m.
  - destruct n, m; reflexivity.
  - cbn [JS.includesChar] in H. apply orb_false_iff in H. destruct H as [Hd Hs].
    destruct n as [|n]; destruct m as [|m]; cbn [substring]; try reflexivity.
    + cbn [JS.includesChar]. now rewrite Hd, (IH Hs).
    + now apply IH.
    + now apply IH.
Qed.

Lemma includesChar_removeFirst (c : ascii) (needle s : string) :
  JS.includesChar c s = false -> JS.includesChar c (JS.removeFirst needle s) = false.
Proof.
  induction s as [|d s IH]; intros H; cbn [JS.removeFirst].
  - destruct (String.prefix needle ""); [| reflexivity].
    unfold JS.sliceFrom. now apply includesChar_substring.
  - destruct (String.prefix needle (String d s)).
    + unfold JS.sliceFrom. now apply includesChar_substring.
    + cbn [JS.includesChar] in *. apply orb_false_iff in H. destruct H as [Hd Hs].
      now rewrite Hd, (IH Hs).
Qed.

Section Reparse.

Context {P : NodePath}.
Variable imagesDir : string.
Variable sharpMetadata : string -> option Metadata.

(** C10 (as the code has it).  The probe failed, so the key is
    [bucket_view].  When that view holds no underscore, the re-parsing of
    the file name takes the bucket as the view token, and the alternative
    text is the sanitized title, followed by a dash and the bucket unless
    the bucket is [default]; when the view holds no [x], width and height
    are empty; and when it holds no [.jpg], the dimension segment is the
    view. *)
Theorem reparse_without_dimensions (productId imagePath : string)
    (productInfo : StyleInfo) (style : string) (position : N) :
  sharpMetadata (pjoin [imagesDir; "images"; imagePath]) = None ->
  let bucket := baseFolderOf (folderNameOf imagePath) in
  let semantic := dashesToUnderscores (viewOf productId imagePath) in
  JS.includesChar "_" semantic = false ->
  let trimmed := outputFileName productId
                   (extractImageView imagesDir sharpMetadata productId imagePath) in
  viewTokenOf trimmed = Some bucket
  /\ (exists r,
        imageRow productInfo style position trimmed = Some (r, (position + 1)%N)
        /\ rowImageSrc r = trimmed
        /\ rowAltText r
           = sanitizeText (title productInfo)
             ++ (if (bucket =? "default")%string then "" else " - " ++ bucket)
        /\ (JS.includesChar "x" semantic = false ->
            rowWidth r = "" /\ rowHeight r = ""))
  /\ (JS.includes semantic ".jpg" = false -> dimPartOf trimmed = semantic).
Proof.
  intros Hprobe bucket semantic Hu trimmed.
  assert (Hname : trimmed = productId ++ String "_" (bucket ++ String "_" (semantic ++ ".jpg"))).
  { subst trimmed. unfold outputFileName.
    rewrite extractImageView_shape, Hprobe, append_nil_r.
    fold bucket. fold semantic. simpl. now rewrite !append_assoc. }
  assert (Hb : JS.includesChar "_" bucket = false /\ sanitizeText bucket = bucket).
  { subst bucket.
    destruct (baseFolderOf_cases (folderNameOf imagePath)) as [-> | [-> | ->]];
      split; reflexivity. }
  destruct Hb as [Hbu Hbs].
  assert (Hparts : JS.split "_" trimmed
                   = (JS.split "_" productId ++ [bucket; (semantic ++ ".jpg")%string])%list).
  { rewrite Hname, !split_append_sep.
    rewrite (split_no_sep "_" bucket Hbu).
    rewrite (split_no_sep "_" (semantic ++ ".jpg")); [reflexivity |].
    rewrite includesChar_append, Hu. reflexivity. }
  assert (Hview : viewTokenOf trimmed = Some bucket).
  { unfold viewTokenOf. rewrite Hparts.
    destruct (Nat.ltb_spec (length (JS.split "_" productId
                                    ++ [bucket; (semantic ++ ".jpg")%string])%list) 2)
      as [Hlt | _].
    - rewrite length_app in Hlt. simpl in Hlt. lia.
    - apply nth_error_second_last. }
  assert (Hdim : dimPartOf trimmed = JS.removeFirst ".jpg" (semantic ++ ".jpg")).
  { unfold dimPartOf. now rewrite Hparts, last_two. }
  split; [exact Hview |]. split.
  - unfold imageRow. rewrite Hview, Hbs.
    destruct (dimensionsOf (dimPartOf trimmed)) as [wd ht] eqn:Ed.
    eexists. split; [reflexivity |]. cbn [rowImageSrc rowAltText rowWidth rowHeight].
    split; [reflexivity |]. split; [reflexivity |].
    intros Hx. unfold dimensionsOf in Ed. rewrite Hdim in Ed.
    rewrite includesChar_removeFirst in Ed.
    + injection Ed as <- <-. now split.
    + rewrite includesChar_append, Hx. reflexivity.
  - intros Hj. rewrite Hdim. now apply removeFirst_jpg.
Qed.

End Reparse.

Lemma reparse_without_dimensions_witness :
  let trimmed := outputFileName "ABC123"
                   (extractImageView (P := Posix.path) repoImages probeFails
                      "ABC123" "default/ABC123_9_regular.jpg") in
  viewTokenOf trimmed = Some "default"
  /\ (exists r,
        imageRow {| id := "111"; title := "Rocky Boot" |} "ABC123" 1 trimmed = Some (r, 2%N)
        /\ rowImageSrc r = trimmed
        /\ rowAltText r = sanitizeText "Rocky Boot" ++ ""
        /\ rowWidth r = "" /\ rowHeight r = "")
  /\ dimPartOf trimmed = "lifestyle".
Proof.
  destruct (reparse_without_dimensions (P := Posix.path) repoImages probeFails
              "ABC123" "default/ABC123_9_regular.jpg"
              {| id := "111"; title := "Rocky Boot" |} "ABC123" 1 eq_refl eq_refl)
    as [Htoken [[r [Hrow [Hsrc [Halt Hdims]]]] Hsegment]].
  split; [exact Htoken |]. split.
  - exists r. split; [exact Hrow |]. split; [exact Hsrc |]. split; [exact Halt |].
    exact (Hdims eq_refl).
  - exact (Hsegment eq_refl).
Defined.

(** C10 as the specification words it fails: the numeric code 5 gives the
    view [instep_profile]; without dimensions the re-parsing takes [instep]
    as the view token and [profile] as the dimension segment, and the
    alternative text of a [default] image is not the bare title. *)
Lemma reparse_instep_profile :
  let trimmed := outputFileName "ABC123"
                   (extractImageView (P := Posix.path) repoImages probeFails
                      "ABC123" "default/ABC123_5.jpg") in
  trimmed = "ABC123_default_instep_profile.jpg"
  /\ viewTokenOf trimmed = Some "instep"
  /\ dimPartOf trimmed = "profile"
  /\ option_map (fun rp => rowAltText (fst rp))
       (imageRow {| id := "111"; title := "Rocky Boot" |} "ABC123" 1 trimmed)
     = Some "Rocky Boot - instep"
  /\ sanitizeText "Rocky Boot" = "Rocky Boot".
Proof. repeat split. Qed.

(** ** Start-up and missing inputs *)

Section Startup.

Context {P : NodePath}.
Variable scriptDir : string.

Lemma requireDir_present (what dir : string) (w : World) :
  present (fs w) dir = true -> Rev0.requireDir what dir w = Done tt w.
Proof. intros H. unfold Rev0.requireDir, bind, existsSync. now rewrite H. Qed.

Lemma requireDir_missing (what dir : string) (w : World) :
  present (fs w) dir = false ->
  Rev0.requireDir what dir w
  = Exit 1 (logged w (Console ERROR (what ++ " directory not found: " ++ dir))).
Proof. intros H. unfold Rev0.requireDir, bind, existsSync. now rewrite H. Qed.

(** In the oldest revision a missing catalogs, styles, images or output
    directory ends the run in [process.exit(1)], with one error line and
    nothing else done. *)
Lemma Rev0_exits_on_missing_directory
    (sharpMetadata : string -> option Metadata) (localeCompare : string -> string -> Z)
    (loadCatalogs : Script (list (Product unit))) (w : World) :
  present (fs w) (catalogsDir scriptDir) && present (fs w) (stylesDir scriptDir)
  && present (fs w) (imagesDir scriptDir) && present (fs w) (outputDir scriptDir) = false ->
  exists text,
    Rev0.main scriptDir sharpMetadata localeCompare loadCatalogs w
    = Exit 1 (logged w (Console ERROR text)).
Proof.
  intros H. unfold Rev0.main, Rev0.setUpDirectories.
  destruct (present (fs w) (catalogsDir scriptDir)) eqn:Ec.
  2:{ eexists. unfold bind at 1. unfold bind at 1.
      now rewrite (requireDir_missing _ _ _ Ec). }
  destruct (present (fs w) (stylesDir scriptDir)) eqn:Es.
  2:{ eexists. unfold bind at 1. unfold bind at 1.
      rewrite (requireDir_present _ _ _ Ec). unfold bind at 1.
      now rewrite (requireDir_missing _ _ _ Es). }
  destruct (present (fs w) (imagesDir scriptDir)) eqn:Ei.
  2:{ eexists. unfold bind at 1. unfold bind at 1.
      rewrite (requireDir_present _ _ _ Ec). unfold bind at 1.
      rewrite (requireDir_present _ _ _ Es). unfold bind at 1.
      now rewrite (requireDir_missing _ _ _ Ei). }
  destruct (present (fs w) (outputDir scriptDir)) eqn:Eo; [discriminate |].
  eexists. unfold bind at 1. unfold bind at 1.
  rewrite (requireDir_present _ _ _ Ec). unfold bind at 1.
  rewrite (requireDir_present _ _ _ Es). unfold bind at 1.
  rewrite (requireDir_present _ _ _ Ei). unfold bind at 1.
  now rewrite (requireDir_missing _ _ _ Eo).
Qed.

Lemma present_mkdir (f : FS) (d p : string) :
  present {| dirs := (dirs f ++ [d])%list; files := files f |} p
  = present f p || (d =? p)%string.
Proof.
  unfold present, isDir, isFile, includes. simpl.
  rewrite existsb_app. simpl. rewrite orb_false_r.
  destruct (existsb _ (dirs f)), (d =? p)%string, (assoc p (files f)); reflexivity.
Qed.

Lemma ensureDir_spec (dir : string) (w : World) :
  exists w',
    Rev1.ensureDir dir w = Done tt w'
    /\ files (fs w') = files (fs w)
    /\ present (fs w') dir = true
    /\ (forall p, present (fs w) p = true -> present (fs w') p = true).
Proof.
  unfold Rev1.ensureDir, bind, existsSync.
  destruct (present (fs w) dir) eqn:E; simpl.
  - exists w. repeat split; auto.
  - eexists. split; [reflexivity |]. simpl. split; [reflexivity |]. split.
    + rewrite present_mkdir, String.eqb_refl. apply orb_true_r.
    + intros p Hp. rewrite present_mkdir, Hp. reflexivity.
Qed.

(** In the later revisions the start-up never exits: it ends normally, the
    files untouched and every directory it walks present. *)
Lemma Rev1_setUp_spec (l : list string) (w : World) :
  exists w',
    forEach l Rev1.ensureDir w = Done tt w'
    /\ files (fs w') = files (fs w)
    /\ (forall d, In d l -> present (fs w') d = true)
    /\ (forall p, present (fs w) p = true -> present (fs w') p = true).
Proof.
  revert w. induction l as [|d l IH]; intros w; simpl.
  - exists w. repeat split; auto.
  - destruct (ensureDir_spec d w) as [w1 [E1 [F1 [D1 M1]]]].
    destruct (IH w1) as [w2 [E2 [F2 [D2 M2]]]].
    exists w2. unfold bind. rewrite E1. split; [exact E2 |].
    split; [congruence |]. split.
    + intros d' [<- | Hd]; [now apply M2 | now apply D2].
    + intros p Hp. now apply M2, M1.
Qed.

(** A missing style map or inventory file: one error line, no file written,
    normal return. *)
Lemma generateMatrixifyCSV_missing_styleMap (styleMapFile inventoryFile outPath : string)
    (w : World) :
  present (fs w) styleMapFile = false ->
  generateMatrixifyCSV styleMapFile inventoryFile outPath w
  = Done tt (logged w (Console ERROR ("Missing Shopify style map CSV: " ++ styleMapFile))).
Proof. intros H. unfold generateMatrixifyCSV, bind, existsSync. now rewrite H. Qed.

Lemma generateMatrixifyCSV_missing_inventory (styleMapFile inventoryFile outPath : string)
    (w : World) (styleMapContent : string) :
  assoc styleMapFile (files (fs w)) = Some styleMapContent ->
  present (fs w) inventoryFile = false ->
  generateMatrixifyCSV styleMapFile inventoryFile outPath w
  = Done tt (logged w (Console ERROR ("Missing image inventory CSV: " ++ inventoryFile))).
Proof.
  intros Hs Hi.
  assert (Hp : present (fs w) styleMapFile = true).
  { unfold present, isFile. rewrite Hs. apply orb_true_r. }
  unfold generateMatrixifyCSV, bind, existsSync, readFileSync.
  cbv beta iota. rewrite Hp. cbv beta iota. cbn [negb]. cbv beta iota.
  rewrite Hs. cbv beta iota. rewrite Hi. reflexivity.
Qed.

(** C3 (as the code has it).  In the oldest revision a missing catalogs,
    styles, images or output directory ends the run in [process.exit(1)]
    after one error line, before anything else.  In the later revisions the
    start-up never exits: it ends normally with the catalogs, styles,
    images, output and matrixify directories all present, what was present
    before still present and the files untouched, and the run goes on with
    the stages that follow, from the file store the start-up left.  Where
    [generateMatrixifyCSV] has a body (part_000 and part_001, which differ in
    the file names only), a missing style map file, or a missing inventory
    file, makes it log one error and return normally, the file store
    unchanged. *)
Theorem startup_and_missing_inputs :
  (forall (sharpMetadata : string -> option Metadata)
          (localeCompare : string -> string -> Z)
          (loadCatalogs : Script (list (Product unit))) (w : World),
      present (fs w) (catalogsDir scriptDir) && present (fs w) (stylesDir scriptDir)
      && present (fs w) (imagesDir scriptDir) && present (fs w) (outputDir scriptDir)
      = false ->
      exists text,
        Rev0.main scriptDir sharpMetadata localeCompare loadCatalogs w
        = Exit 1 (logged w (Console ERROR text)))
  /\ (forall w : World,
        exists w',
          Rev1.setUpDirectories scriptDir w = Done tt w'
          /\ files (fs w') = files (fs w)
          /\ present (fs w') (catalogsDir scriptDir) = true
          /\ present (fs w') (stylesDir scriptDir) = true
          /\ present (fs w') (imagesDir scriptDir) = true
          /\ present (fs w') (outputDir scriptDir) = true
          /\ present (fs w') (matrixifyDir scriptDir) = true
          /\ (forall p, present (fs w) p = true -> present (fs w') p = true)
          /\ (forall (sharpMetadata : string -> option Metadata)
                     (localeCompare : string -> string -> Z)
                     (loadCatalogs : Script (list (Product unit) * string)),
                Rev1.main scriptDir sharpMetadata localeCompare loadCatalogs w
                = (loaded <- loadCatalogs ;;
                   productImagesAvailable <- resolveImages scriptDir (fst loaded) ;;
                   products <- Rev1.processProductViews scriptDir sharpMetadata
                                 productImagesAvailable ;;
                   Rev1.exportViewCSV scriptDir localeCompare (snd loaded) products ;;
                   Rev1.copyImagesToOutput scriptDir products ;;
                   generateMatrixifyCSV (Rev1.styleMapFile scriptDir (snd loaded))
                     (Rev1.inventoryPath scriptDir (snd loaded))
                     (Rev1.outPath scriptDir (snd loaded))) w')
          /\ (forall (sharpMetadata : string -> option Metadata)
                     (loadCatalogs : Script (list (Product unit))),
                Rev1.mainIndexJs scriptDir sharpMetadata loadCatalogs w
                = (xmlData <- loadCatalogs ;;
                   productImagesAvailable <- resolveImages scriptDir xmlData ;;
                   products <- Rev1.processProductViews scriptDir sharpMetadata
                                 productImagesAvailable ;;
                   Rev1.copyImagesToOutput scriptDir products) w'))
  /\ (forall (styleMapFile inventoryFile outPath : string) (w : World),
        present (fs w) styleMapFile = false ->
        generateMatrixifyCSV styleMapFile inventoryFile outPath w
        = Done tt (logged w (Console ERROR
                               ("Missing Shopify style map CSV: " ++ styleMapFile))))
  /\ (forall (styleMapFile inventoryFile outPath : string) (w : World)
             (styleMapContent : string),
        assoc styleMapFile (files (fs w)) = Some styleMapContent ->
        present (fs w) inventoryFile = false ->
        generateMatrixifyCSV styleMapFile inventoryFile outPath w
        = Done tt (logged w (Console ERROR
                               ("Missing image inventory CSV: " ++ inventoryFile)))).
Proof.
  split; [| split; [| split]].
  - intros. now apply Rev0_exits_on_missing_directory.
  - intros w.
    destruct (Rev1_setUp_spec
                [catalogsDir scriptDir; stylesDir scriptDir; imagesDir scriptDir;
                 outputDir scriptDir; matrixifyDir scriptDir] w)
      as [w' [E [F [D M]]]].
    exists w'. split; [exact E |]. split; [exact F |].
    split; [apply D; simpl; auto |]. split; [apply D; simpl; auto |].
    split; [apply D; simpl; auto |]. split; [apply D; simpl; auto |].
    split; [apply D; simpl; tauto |]. split; [exact M |]. split.
    + intros sharpMetadata localeCompare loadCatalogs.
      unfold Rev1.main. unfold bind at 1. unfold Rev1.setUpDirectories.
      now rewrite E.
    + intros sharpMetadata loadCatalogs.
      unfold Rev1.mainIndexJs. unfold bind at 1. unfold Rev1.setUpDirectories.
      now rewrite E.
  - intros. now apply generateMatrixifyCSV_missing_styleMap.
  - intros. now apply generateMatrixifyCSV_missing_inventory with styleMapContent.
Qed.

End Startup.

Lemma startup_and_missing_inputs_witness :
  (exists text,
     Rev0.main (P := Posix.path) repoDir probeFails codeUnitCompare (ret []) emptyWorld
     = Exit 1 (logged emptyWorld (Console ERROR text)))
  /\ generateMatrixifyCSV (P := Posix.path)
       (Rev1.styleMapFile (P := Posix.path) repoDir "rockyboots")
       (Rev1.inventoryPath (P := Posix.path) repoDir "rockyboots")
       (Rev1.outPath (P := Posix.path) repoDir "rockyboots") emptyWorld
     = Done tt (logged emptyWorld
                  (Console ERROR
                     ("Missing Shopify style map CSV: "
                      ++ Rev1.styleMapFile (P := Posix.path) repoDir "rockyboots")))
  /\ generateMatrixifyCSV (P := Posix.path)
       (Rev1.styleMapFile (P := Posix.path) repoDir "rockyboots")
       (Rev1.inventoryPath (P := Posix.path) repoDir "rockyboots")
       (Rev1.outPath (P := Posix.path) repoDir "rockyboots") exportWorld
     = Done tt (logged exportWorld
                  (Console ERROR
                     ("Missing image inventory CSV: "
                      ++ Rev1.inventoryPath (P := Posix.path) repoDir "rockyboots"))).
Proof.
  destruct (startup_and_missing_inputs (P := Posix.path) repoDir)
    as [Hexit [_ [Hstyles Hinventory]]].
  split; [| split].
  - apply (Hexit probeFails codeUnitCompare (ret []) emptyWorld). reflexivity.
  - apply Hstyles. reflexivity.
  - apply (Hinventory _ _ _ exportWorld sampleStyleMapContent); reflexivity.
Defined.

(** C3 as the specification words it fails: with none of the directories
    present, the run of index.js creates them and ends normally. *)
Lemma later_revisions_create_directories :
  present (fs emptyWorld) (catalogsDir (P := Posix.path) repoDir) = false
  /\ Rev1.mainIndexJs (P := Posix.path) repoDir probeFails (ret []) emptyWorld
     = Done tt
         {| fs := {| dirs := ["/repo/sfcc-catalogs"; "/repo/sfcc-styles"; "/repo/sfcc-images";
                              "/repo/sfcc-images-output"; "/repo/matrixify"];
                     files := [] |};
            trace := [MkdirSync "/repo/sfcc-catalogs"; MkdirSync "/repo/sfcc-styles";
                      MkdirSync "/repo/sfcc-images"; MkdirSync "/repo/sfcc-images-output";
                      MkdirSync "/repo/matrixify"; ConsoleTable [];
                      Console LOG "Image copy complete."] |}.
Proof. split; reflexivity. Qed.

(** ** The copier of the oldest revision *)

Lemma includes_append (a v b : string) : JS.includes (a ++ v ++ b) v = true.
Proof.
  induction a as [|c a IH].
  - change ("" ++ v ++ b) with (v ++ b).
    destruct v as [|x v]; simpl.
    + now destruct b.
    + destruct (ascii_dec x x) as [_|n]; [| now elim n].
      now rewrite prefix_append.
  - rewrite append_cons. cbn [JS.includes]. rewrite IH. apply orb_true_r.
Qed.

Lemma includes_outputFileName (productId view : string) :
  JS.includes (outputFileName productId view) view = true.
Proof.
  unfold outputFileName.
  replace (productId ++ "_" ++ view ++ ".jpg") with ((productId ++ "_") ++ view ++ ".jpg")
    by now rewrite append_assoc.
  apply includes_append.
Qed.

Section OldCopier.

Context {P : NodePath}.
Variable scriptDir : string.

(** In the oldest revision the predicate given to [find] does not look at
    its argument: whatever the view, the source is the first image of the
    product. *)
Lemma Rev0_copyView_calls (product : Product (list string)) (view first : string)
    (others : list string) :
  images product = first :: others ->
  JS.truthy first = true ->
  addsCalls (Rev0.copyView scriptDir product view)
    [(pjoin [imagesDir scriptDir; "images"; first],
      pjoin [outputDir scriptDir; outputFileName (productId product) view])].
Proof.
  intros Himgs Hfirst. unfold Rev0.copyView.
  rewrite Himgs. cbn [find]. rewrite includes_outputFileName, Hfirst.
  intros w. unfold bind, tryCopyFileSync.
  destruct (assoc _ (files (fs w))) as [content|].
  - destruct (storeFile _ _ _) as [f'|]; eexists; (split; [reflexivity |]);
      simpl; rewrite !copyCalls_app; simpl; now rewrite app_nil_r.
  - eexists. split; [reflexivity |].
    simpl. rewrite !copyCalls_app. simpl. now rewrite app_nil_r.
Qed.

Lemma Rev0_copy_calls (products : list (Product (list string))) :
  Forall (fun p => JS.truthy (hd "" (images p)) = true) products ->
  addsCalls (Rev0.copyImagesToOutput scriptDir products)
    (flat_map
       (fun p => map (fun view =>
                        (pjoin [imagesDir scriptDir; "images"; hd "" (images p)],
                         pjoin [outputDir scriptDir; outputFileName (productId p) view]))
                   (views p))
       products).
Proof.
  intros Hall. unfold Rev0.copyImagesToOutput.
  change (flat_map ?g products) with ([] ++ flat_map g products)%list.
  apply addsCalls_bind; [apply addsCalls_console |].
  rewrite <- (app_nil_r (flat_map _ products)).
  apply addsCalls_bind; [| apply addsCalls_console].
  induction Hall as [|p ps Hp _ IH]; simpl.
  - intros w. exists w. split; [reflexivity | now rewrite app_nil_r].
  - apply addsCalls_bind; [| exact IH].
    rewrite map_as_flat_map. apply addsCalls_forEach. intros view.
    destruct (images p) as [|first others] eqn:Ei; [discriminate |].
    now apply Rev0_copyView_calls with others.
Qed.

End OldCopier.

(** C4 fails in the oldest revision.  The product has the views
    [gray_profile] and [default_lifestyle]; the copier of part_000 fills
    both output files from the first image, so
    [ABC123_default_lifestyle.jpg] receives the gray profile image.  The
    copier of the later revisions, on the same product, takes the path
    stored under each key. *)
Theorem Rev0_copies_first_image_for_every_view :
  Rev0.viewsOf (P := Posix.path) repoDir probeFails twoViewProduct
    = ["gray_profile"; "default_lifestyle"]
  /\ (let after := worldOf (Rev0.copyImagesToOutput (P := Posix.path) repoDir
                              [withViews twoViewProduct
                                 (Rev0.viewsOf (P := Posix.path) repoDir probeFails
                                    twoViewProduct)]
                              twoImageWorld) in
      copyCalls (trace after)
        = [("/repo/sfcc-images/images/gray/ABC123_8.jpg",
            "/repo/sfcc-images-output/ABC123_gray_profile.jpg");
           ("/repo/sfcc-images/images/gray/ABC123_8.jpg",
            "/repo/sfcc-images-output/ABC123_default_lifestyle.jpg")]
      /\ assoc "/repo/sfcc-images-output/ABC123_default_lifestyle.jpg" (files (fs after))
         = Some "gray profile bytes")
  /\ (let after := worldOf (Rev1.copyImagesToOutput (P := Posix.path) repoDir
                              [withViews twoViewProduct
                                 (Rev1.viewsOf (P := Posix.path) repoDir probeFails
                                    twoViewProduct)]
                              twoImageWorld) in
      copyCalls (trace after)
        = [("/repo/sfcc-images/images/gray/ABC123_8.jpg",
            "/repo/sfcc-images-output/ABC123_gray_profile.jpg");
           ("/repo/sfcc-images/images/default/ABC123_9.jpg",
            "/repo/sfcc-images-output/ABC123_default_lifestyle.jpg")]
      /\ assoc "/repo/sfcc-images-output/ABC123_default_lifestyle.jpg" (files (fs after))
         = Some "lifestyle bytes").
Proof. repeat split. Qed.

(** ** [sanitizeText] and [trim] *)

Lemma dropWhile_idempotent (p : ascii -> bool) (s : string) :
  JS.dropWhile p (JS.dropWhile p s) = JS.dropWhile p s.
Proof.
  induction s as [|c s IH]; simpl; [reflexivity |].
  destruct (p c) eqn:E; [exact IH | simpl; now rewrite E].
Qed.

Lemma dropWhileEnd_cons (p : ascii -> bool) (c : ascii) (t : string) :
  JS.dropWhileEnd p (String c t)
  = match JS.dropWhileEnd p t with
    | EmptyString => if p c then EmptyString else String c EmptyString
    | String d r => String c (String d r)
    end.
Proof. reflexivity. Qed.

Lemma dropWhileEnd_idempotent (p : ascii -> bool) (s : string) :
  JS.dropWhileEnd p (JS.dropWhileEnd p s) = JS.dropWhileEnd p s.
Proof.
  induction s as [|c s IH]; [reflexivity |].
  rewrite dropWhileEnd_cons.
  destruct (JS.dropWhileEnd p s) as [|d r] eqn:E.
  - destruct (p c) eqn:Ec; [reflexivity |].
    rewrite dropWhileEnd_cons. simpl. now rewrite Ec.
  - rewrite dropWhileEnd_cons, IH. reflexivity.
Qed.

Lemma dropWhile_dropWhileEnd (p : ascii -> bool) (s : string) :
  JS.dropWhile p s = s -> JS.dropWhile p (JS.dropWhileEnd p s) = JS.dropWhileEnd p s.
Proof.
  destruct s as [|c s]; [reflexivity |]. simpl.
  destruct (p c) eqn:Ec.
  - intros H. pose proof (length_dropWhile p s) as L. rewrite H in L. simpl in L. lia.
  - intros _. destruct (JS.dropWhileEnd p s); simpl; now rewrite Ec.
Qed.

Lemma trim_idempotent (s : string) : JS.trim (JS.trim s) = JS.trim s.
Proof.
  unfold JS.trim.
  rewrite (dropWhile_dropWhileEnd _ _ (dropWhile_idempotent _ s)).
  apply dropWhileEnd_idempotent.
Qed.

Lemma allChars_dropWhile (q p : ascii -> bool) (s : string) :
  allChars q s = true -> allChars q (JS.dropWhile p s) = true.
Proof.
  induction s as [|c s IH]; simpl; [reflexivity |].
  intros H. apply andb_true_iff in H. destruct H as [Hc Hs].
  destruct (p c); [now apply IH | simpl; now rewrite Hc, Hs].
Qed.

Lemma allChars_dropWhileEnd (q p : ascii -> bool) (s : string) :
  allChars q s = true -> allChars q (JS.dropWhileEnd p s) = true.
Proof.
  induction s as [|c s IH]; simpl; [reflexivity |].
  intros H. apply andb_true_iff in H. destruct H as [Hc Hs].
  specialize (IH Hs). destruct (JS.dropWhileEnd p s).
  - destruct (p c); simpl; [reflexivity | now rewrite Hc].
  - simpl in *. now rewrite Hc, IH.
Qed.

Lemma allChars_removeChars (p : ascii -> bool) (s : string) :
  allChars (fun c => negb (p c)) (removeChars p s) = true.
Proof.
  induction s as [|c s IH]; simpl; [reflexivity |].
  destruct (p c) eqn:E; [exact IH | simpl; now rewrite E, IH].
Qed.

Lemma removeChars_clean (p : ascii -> bool) (s : string) :
  allChars (fun c => negb (p c)) s = true -> removeChars p s = s.
Proof.
  induction s as [|c s IH]; simpl; [reflexivity |].
  intros H. apply andb_true_iff in H. destruct H as [Hc Hs].
  apply negb_true_iff in Hc. rewrite Hc. now rewrite IH.
Qed.

(** X1.  Whatever the argument, the text [sanitizeText] returns holds no
    control character (U+0000..U+001F, U+007F..U+009F), has no white space
    at either end, and is a fixed point: sanitizing it again changes
    nothing. *)
Theorem sanitizeText_clean (str : string) :
  allChars (fun c => negb (isControl c)) (sanitizeText str) = true
  /\ JS.trim (sanitizeText str) = sanitizeText str
  /\ sanitizeText (sanitizeText str) = sanitizeText str.
Proof.
  assert (H1 : allChars (fun c => negb (isControl c)) (sanitizeText str) = true).
  { unfold sanitizeText, JS.trim.
    apply allChars_dropWhileEnd, allChars_dropWhile, allChars_removeChars. }
  assert (H2 : JS.trim (sanitizeText str) = sanitizeText str).
  { unfold sanitizeText. apply trim_idempotent. }
  split; [exact H1 |]. split; [exact H2 |].
  unfold sanitizeText at 1. rewrite (removeChars_clean _ _ H1). exact H2.
Qed.

(** ** The key of the classifier *)

Lemma viewLabelMapGet_label (view label : string) :
  viewLabelMapGet view = Some label -> JS.truthy (JS.trim label) = true.
Proof.
  unfold viewLabelMapGet, viewLabelMap, objectPrototype. cbn [assoc].
  repeat match goal with
         | |- context [if (?k =? view)%string then _ else _] =>
             destruct (k =? view)%string; [intros [= <-]; reflexivity |]
         end.
  discriminate.
Qed.

Lemma includesChar_mapChars_dash (s : string) :
  JS.includesChar "-" (dashesToUnderscores s) = false.
Proof.
  unfold dashesToUnderscores. induction s as [|c s IH]; simpl; [reflexivity |].
  rewrite IH. destruct (c =? "-")%char eqn:E; [reflexivity |].
  now rewrite E.
Qed.

Section KeyFacts.

Context {P : NodePath}.
Variable imagesDir : string.
Variable sharpMetadata : string -> option Metadata.

Lemma viewOf_not_blank (productId imagePath : string) :
  JS.truthy (JS.trim (viewOf productId imagePath)) = true.
Proof.
  unfold viewOf.
  set (v := stripSizeLabel sizeLabels _).
  destruct (viewLabelMapGet _) as [label|] eqn:E.
  - now apply viewLabelMapGet_label in E.
  - destruct (JS.truthy v) eqn:Ev; simpl; [| reflexivity].
    destruct (JS.trim v =? "")%string eqn:Et; [reflexivity |].
    destruct (JS.trim v); [discriminate | reflexivity].
Qed.

(** X2.  The view part the classifier derives from a file name is never
    blank: when the file name leaves nothing, the fallback [main] steps in.  And the key it returns never holds a dash. *)
Theorem viewKey_wellformed (productId imagePath : string) :
  JS.truthy (JS.trim (viewOf productId imagePath)) = true
  /\ JS.includesChar "-" (extractImageView imagesDir sharpMetadata productId imagePath)
     = false.
Proof.
  split; [apply viewOf_not_blank |].
  unfold extractImageView. apply includesChar_mapChars_dash.
Qed.

End KeyFacts.

(** ** The comparator's token and the manifest's dimensions *)

Lemma uint_digits (d : Decimal.uint) : allDigits (NilEmpty.string_of_uint d) = true.
Proof. induction d; simpl; try reflexivity; exact IHd. Qed.

Lemma numberToString_digits (n : N) :
  allDigits (JS.numberToString n) = true /\ JS.truthy (JS.numberToString n) = true.
Proof.
  split; [apply uint_digits |].
  unfold JS.numberToString. destruct n as [|p]; [reflexivity |].
  simpl. pose proof (Unsigned.to_uint_nonnil p) as H.
  destruct (Pos.to_uint p); try reflexivity. now elim H.
Qed.

Lemma matchesDims_digits (w h : string) (seen : bool) :
  allDigits w = true -> (seen || JS.truthy w) = true ->
  allDigits h = true -> JS.truthy h = true ->
  matchesDims seen (w ++ "x" ++ h) = true.
Proof.
  revert seen. induction w as [|c w IH]; intros seen Hw Hs Hh Hth.
  - simpl in Hs. rewrite orb_false_r in Hs. subst seen.
    change ("" ++ "x" ++ h) with (String "x" h). cbn [matchesDims].
    replace (JS.isDigit "x") with false by reflexivity.
    now rewrite Hh, Hth.
  - simpl in Hw. apply andb_true_iff in Hw. destruct Hw as [Hc Hw].
    rewrite append_cons. cbn [matchesDims]. rewrite Hc.
    apply IH; auto.
Qed.

Lemma allDigits_with_underscore (t rest : string) :
  allDigits (t ++ String "_" rest) = false.
Proof.
  induction t as [|c t IH]; [reflexivity |].
  rewrite append_cons. cbn [allDigits]. rewrite IH. apply andb_false_r.
Qed.

Lemma matchesDims_with_underscore (t rest : string) (seen : bool) :
  matchesDims seen (t ++ String "_" rest) = false.
Proof.
  revert seen. induction t as [|c t IH]; intros seen.
  - change ("" ++ String "_" rest) with (String "_" rest). cbn [matchesDims].
    replace (JS.isDigit "_") with false by reflexivity.
    replace ("_" =? "x")%char with false by reflexivity.
    now rewrite andb_false_r.
  - rewrite append_cons. cbn [matchesDims].
    destruct (JS.isDigit c); [apply IH |].
    rewrite allDigits_with_underscore. now rewrite !andb_false_r.
Qed.

Lemma stripDimSuffix_dims (v : string) (m : Metadata) :
  stripDimSuffix (v ++ "_" ++ dimsText m) = v.
Proof.
  destruct (numberToString_digits (width m)) as [Hw Htw].
  destruct (numberToString_digits (height m)) as [Hh Hth].
  induction v as [|c v IH].
  - change ("" ++ "_" ++ dimsText m) with (String "_" (dimsText m)).
    destruct (dimsText m) eqn:E.
    + unfold dimsText in E. destruct (JS.numberToString (width m)); discriminate.
    + rewrite <- E. cbn [stripDimSuffix matchesDimSuffix].
      rewrite Ascii.eqb_refl. unfold dimsText.
      rewrite matchesDims_digits; auto.
  - rewrite append_cons. cbn [stripDimSuffix].
    replace (matchesDimSuffix (String c (v ++ "_" ++ dimsText m))) with false.
    + now rewrite IH.
    + cbn [matchesDimSuffix].
      change (v ++ "_" ++ dimsText m) with (v ++ String "_" (dimsText m)).
      now rewrite matchesDims_with_underscore, andb_false_r.
Qed.

Lemma sliceFrom_append (p rest : string) :
  JS.sliceFrom (String.length p) (p ++ rest) = rest.
Proof.
  unfold JS.sliceFrom. rewrite length_append.
  replace (String.length p + String.length rest - String.length p)
    with (String.length rest) by lia.
  induction p as [|c p IH]; simpl.
  - induction rest as [|d r IHr]; simpl; [reflexivity | now rewrite IHr].
  - exact IH.
Qed.

Lemma stripBucketPrefix_bucket (folderName rest : string) :
  stripBucketPrefix (baseFolderOf folderName ++ "_" ++ rest) = rest.
Proof.
  unfold stripBucketPrefix, JS.startsWith.
  destruct (baseFolderOf_cases folderName) as [-> | [-> | ->]].
  - replace (String.prefix "gray_" ("default" ++ "_" ++ rest)) with false by reflexivity.
    change ("default" ++ "_" ++ rest) with ("default_" ++ rest).
    rewrite prefix_append. apply (sliceFrom_append "default_").
  - change ("gray" ++ "_" ++ rest) with ("gray_" ++ rest).
    rewrite prefix_append. apply (sliceFrom_append "gray_").
  - replace (String.prefix "gray_" ("white" ++ "_" ++ rest)) with false by reflexivity.
    replace (String.prefix "default_" ("white" ++ "_" ++ rest)) with false by reflexivity.
    change ("white" ++ "_" ++ rest) with ("white_" ++ rest).
    rewrite prefix_append. apply (sliceFrom_append "white_").
Qed.

Section TokenFacts.

Context {P : NodePath}.
Variable imagesDir : string.
Variable sharpMetadata : string -> option Metadata.

(** X3.  The token the comparator of [exportViewCSV] derives from a key of
    the classifier (bucket prefix and dimension suffix stripped) is the
    view part of that key with dashes turned into underscores, whenever the
    dimension probe succeeded; after a failed probe the key carries no
    dimensions of its own and the suffix pattern is tried on the view part
    itself. *)
Theorem semanticView_of_key (productId imagePath : string) :
  semanticView (extractImageView imagesDir sharpMetadata productId imagePath)
  = match sharpMetadata (pjoin [imagesDir; "images"; imagePath]) with
    | Some _ => dashesToUnderscores (viewOf productId imagePath)
    | None => stripDimSuffix (dashesToUnderscores (viewOf productId imagePath))
    end.
Proof.
  unfold semanticView. rewrite extractImageView_shape, stripBucketPrefix_bucket.
  destruct (sharpMetadata _) as [m|].
  - apply (stripDimSuffix_dims _ m).
  - now rewrite append_nil_r.
Qed.

End TokenFacts.

Lemma allDigits_excludes (c : ascii) (s : string) :
  JS.isDigit c = false -> allDigits s = true -> JS.includesChar c s = false.
Proof.
  intros Hc. induction s as [|d s IH]; simpl; [reflexivity |].
  intros H. apply andb_true_iff in H. destruct H as [Hd Hs].
  rewrite (IH Hs), orb_false_r.
  destruct (Ascii.eqb_spec d c) as [-> | _]; [congruence | reflexivity].
Qed.

Lemma dimsText_excludes (c : ascii) (m : Metadata) :
  JS.isDigit c = false -> (c =? "x")%char = false ->
  JS.includesChar c (dimsText m) = false.
Proof.
  intros Hd Hx. unfold dimsText.
  destruct (numberToString_digits (width m)) as [Hw _].
  destruct (numberToString_digits (height m)) as [Hh _].
  rewrite !includesChar_append, (allDigits_excludes c _ Hd Hw), (allDigits_excludes c _ Hd Hh).
  cbn [JS.includesChar]. rewrite (Ascii.eqb_sym "x" c), Hx. reflexivity.
Qed.

Lemma includes_needs_first (c : ascii) (needle s : string) :
  JS.includesChar c s = false -> JS.includes s (String c needle) = false.
Proof.
  induction s as [|d s IH]; [reflexivity |].
  cbn [JS.includesChar JS.includes]. intros H.
  apply orb_false_iff in H. destruct H as [Hd Hs].
  rewrite (IH Hs), orb_false_r, prefix_cons.
  destruct (ascii_dec c d) as [-> | _]; [| reflexivity].
  now rewrite Ascii.eqb_refl in Hd.
Qed.

Lemma nth_error_before_last {A : Type} (l : list A) (b d : A) :
  l <> [] ->
  nth_error (l ++ [b]) (length (l ++ [b]) - 2) = Some (last l d).
Proof.
  intros Hl. destruct (exists_last Hl) as [l' [a ->]].
  rewrite last_last, <- app_assoc. apply nth_error_second_last.
Qed.

Lemma last_app_nonempty {A : Type} (l r : list A) (d : A) :
  r <> [] -> last (l ++ r) d = last r d.
Proof.
  intros Hr. destruct (exists_last Hr) as [r' [a ->]].
  now rewrite app_assoc, !last_last.
Qed.

Section DimensionFacts.

Context {P : NodePath}.
Variable imagesDir : string.
Variable sharpMetadata : string -> option Metadata.

(** X4.  When the dimension probe of an image succeeded with [m], the
    manifest generator reads the width and the height of [m] back from the
    file name the aggregator builds from the classifier's key; the view it
    reads is the last underscore-separated piece of the view part. *)
Theorem manifest_recovers_dimensions (productId imagePath : string)
    (productInfo : StyleInfo) (style : string) (position : N) (m : Metadata) :
  sharpMetadata (pjoin [imagesDir; "images"; imagePath]) = Some m ->
  let semantic := dashesToUnderscores (viewOf productId imagePath) in
  let trimmed := outputFileName productId
                   (extractImageView imagesDir sharpMetadata productId imagePath) in
  viewTokenOf trimmed = Some (last (JS.split "_" semantic) "")
  /\ exists r,
       imageRow productInfo style position trimmed = Some (r, (position + 1)%N)
       /\ rowImageSrc r = trimmed
       /\ rowWidth r = JS.numberToString (width m)
       /\ rowHeight r = JS.numberToString (height m).
Proof.
  intros Hprobe semantic trimmed.
  set (bucket := baseFolderOf (folderNameOf imagePath)).
  set (front := productId ++ "_" ++ bucket ++ "_" ++ semantic).
  assert (Hname : trimmed = front ++ String "_" (dimsText m ++ ".jpg")).
  { subst trimmed front. unfold outputFileName.
    rewrite extractImageView_shape, Hprobe. fold bucket. fold semantic.
    unfold dimsText. cbn [append].
    repeat (rewrite append_assoc; cbn [append]). reflexivity. }
  assert (Hd_ : JS.includesChar "_" (dimsText m ++ ".jpg") = false).
  { rewrite includesChar_append, dimsText_excludes; reflexivity. }
  assert (Hparts : JS.split "_" trimmed
                   = (JS.split "_" front ++ [(dimsText m ++ ".jpg")%string])%list).
  { rewrite Hname, split_append_sep, (split_no_sep "_" _ Hd_). reflexivity. }
  assert (Hfront : last (JS.split "_" front) "" = last (JS.split "_" semantic) "").
  { subst front.
    change (productId ++ "_" ++ bucket ++ "_" ++ semantic)
      with (productId ++ String "_" (bucket ++ String "_" semantic)).
    rewrite !split_append_sep, app_assoc.
    apply last_app_nonempty, split_nonempty. }
  assert (Hview : viewTokenOf trimmed = Some (last (JS.split "_" semantic) "")).
  { unfold viewTokenOf. rewrite Hparts, <- Hfront.
    pose proof (split_nonempty "_" front) as Hne.
    destruct (Nat.ltb_spec (length (JS.split "_" front
                                    ++ [(dimsText m ++ ".jpg")%string])%list) 2)
      as [Hlt | _].
    - rewrite length_app in Hlt. simpl in Hlt.
      destruct (JS.split "_" front); [now elim Hne | simpl in Hlt; lia].
    - now apply nth_error_before_last. }
  assert (Hdim : dimPartOf trimmed = dimsText m).
  { unfold dimPartOf. rewrite Hparts, last_last.
    apply removeFirst_jpg, includes_needs_first, dimsText_excludes; reflexivity. }
  split; [exact Hview |].
  unfold imageRow. rewrite Hview, Hdim.
  destruct (numberToString_digits (width m)) as [Hw _].
  destruct (numberToString_digits (height m)) as [Hh _].
  assert (Hdims : dimensionsOf (dimsText m)
                  = (JS.numberToString (width m), JS.numberToString (height m))).
  { unfold dimensionsOf, dimsText.
    change (JS.numberToString (width m) ++ "x" ++ JS.numberToString (height m))
      with (JS.numberToString (width m) ++ String "x" (JS.numberToString (height m))).
    rewrite includesChar_append. cbn [JS.includesChar]. rewrite Ascii.eqb_refl.
    rewrite orb_true_r, split_append_sep.
    rewrite (split_no_sep "x" _ (allDigits_excludes "x" _ eq_refl Hw)).
    rewrite (split_no_sep "x" _ (allDigits_excludes "x" _ eq_refl Hh)).
    reflexivity. }
  rewrite Hdims. eexists. split; [reflexivity |]. repeat split.
Qed.

End DimensionFacts.

Lemma manifest_recovers_dimensions_witness :
  let trimmed := outputFileName "ABC123"
                   (extractImageView (P := Posix.path) repoImages probe800x600
                      "ABC123" "gray/ABC123_5_large.jpg") in
  viewTokenOf trimmed = Some "profile"
  /\ exists r,
       imageRow sampleStyleInfo "ABC123" 1 trimmed = Some (r, 2%N)
       /\ rowImageSrc r = trimmed
       /\ rowWidth r = "800"
       /\ rowHeight r = "600".
Proof.
  apply (manifest_recovers_dimensions (P := Posix.path) repoImages probe800x600
           "ABC123" "gray/ABC123_5_large.jpg" sampleStyleInfo "ABC123" 1
           {| width := 800; height := 600 |}).
  reflexivity.
Defined.


(** ** The order of the inventory lists, whatever [localeCompare] does *)

Section SortedBy.

Context {A : Type}.
Variable cmp : A -> A -> Z.
Variable R : A -> A -> Prop.

Hypothesis R_le : forall x y, (cmp x y <= 0)%Z -> R x y.
Hypothesis R_gt : forall x y, (0 < cmp x y)%Z -> R y x.
Hypothesis R_trans : forall x y z, R x y -> R y z -> R x z.

Lemma insertSorted_sortedBy (x : A) (l : list A) :
  StronglySorted R l -> StronglySorted R (insertSorted cmp x l).
Proof.
  induction 1 as [|y r Hr IH Hy]; simpl.
  - constructor; constructor.
  - destruct (Z.leb_spec (cmp x y) 0) as [Hxy | Hxy].
    + constructor; [now constructor |].
      constructor; [now apply R_le |].
      rewrite Forall_forall in *. intros z Hz.
      apply R_trans with y; [now apply R_le | now apply Hy].
    + constructor; [exact IH |].
      rewrite Forall_forall in *. intros z Hz.
      apply (Permutation_in _ (insertSorted_perm cmp x r)) in Hz.
      destruct Hz as [<- | Hz]; [now apply R_gt | now apply Hy].
Qed.

Lemma arraySort_sortedBy (l : list A) : StronglySorted R (arraySort cmp l).
Proof.
  induction l as [|x l IH]; simpl; [constructor | now apply insertSorted_sortedBy].
Qed.

End SortedBy.

Section TableOrder.

Variable localeCompare : string -> string -> Z.
Variable preferredOrder : list string.

Lemma tableLe_of_le (a b : Entry) :
  (compareEntries localeCompare preferredOrder a b <= 0)%Z -> tableLe preferredOrder a b.
Proof.
  unfold compareEntries, tableLe, tableIndex.
  pose proof (indexOf_range preferredOrder (semanticView (view a))) as Ra.
  pose proof (indexOf_range preferredOrder (semanticView (view b))) as Rb.
  destruct (Z.eqb_spec (indexOf preferredOrder (semanticView (view a))) (-1)) as [Ea | Ea];
  destruct (Z.eqb_spec (indexOf preferredOrder (semanticView (view b))) (-1)) as [Eb | Eb];
  simpl; intros H; lia.
Qed.

Lemma tableLe_of_gt (a b : Entry) :
  (0 < compareEntries localeCompare preferredOrder a b)%Z -> tableLe preferredOrder b a.
Proof.
  unfold compareEntries, tableLe, tableIndex.
  pose proof (indexOf_range preferredOrder (semanticView (view a))) as Ra.
  pose proof (indexOf_range preferredOrder (semanticView (view b))) as Rb.
  destruct (Z.eqb_spec (indexOf preferredOrder (semanticView (view a))) (-1)) as [Ea | Ea];
  destruct (Z.eqb_spec (indexOf preferredOrder (semanticView (view b))) (-1)) as [Eb | Eb];
  simpl; intros H; lia.
Qed.

Lemma tableLe_trans (a b c : Entry) :
  tableLe preferredOrder a b -> tableLe preferredOrder b c -> tableLe preferredOrder a c.
Proof. unfold tableLe. intros [H1 | [H1 H1']] [H2 | [H2 H2']]; try (left; lia); right; lia. Qed.

(** X5.  For any [localeCompare] whatsoever, the sort of [exportViewCSV]
    rearranges the list without losing or adding an entry, and in its result
    the entries whose token is in the preference table come first, in the
    order of the table, before every entry whose token is not. *)
Theorem inventory_order_follows_table (l : list Entry) :
  Permutation (sortEntries localeCompare preferredOrder l) l
  /\ StronglySorted (tableLe preferredOrder) (sortEntries localeCompare preferredOrder l).
Proof.
  split; [apply arraySort_perm |].
  apply arraySort_sortedBy.
  - apply tableLe_of_le.
  - apply tableLe_of_gt.
  - apply tableLe_trans.
Qed.

Lemma filter_insertSorted_same (token : string) (x : Entry) (l : list Entry) :
  semanticView (view x) = token ->
  indexOf preferredOrder token <> (-1)%Z ->
  filter (fun e => (semanticView (view e) =? token)%string)
    (insertSorted (compareEntries localeCompare preferredOrder) x l)
  = x :: filter (fun e => (semanticView (view e) =? token)%string) l.
Proof.
  intros Hx Hi. induction l as [|y r IH]; simpl.
  - now rewrite Hx, String.eqb_refl.
  - destruct (Z.leb_spec (compareEntries localeCompare preferredOrder x y) 0) as [_ | Hgt].
    + simpl. now rewrite Hx, String.eqb_refl.
    + simpl. destruct (String.eqb_spec (semanticView (view y)) token) as [Hy | _].
      * exfalso. unfold compareEntries in Hgt. rewrite Hx, Hy in Hgt.
        destruct (Z.eqb_spec (indexOf preferredOrder token) (-1)); [contradiction |].
        simpl in Hgt. lia.
      * exact IH.
Qed.

Lemma filter_insertSorted_other (token : string) (x : Entry) (l : list Entry) :
  semanticView (view x) <> token ->
  filter (fun e => (semanticView (view e) =? token)%string)
    (insertSorted (compareEntries localeCompare preferredOrder) x l)
  = filter (fun e => (semanticView (view e) =? token)%string) l.
Proof.
  intros Hx. induction l as [|y r IH]; simpl.
  - destruct (String.eqb_spec (semanticView (view x)) token); [contradiction | reflexivity].
  - destruct (compareEntries localeCompare preferredOrder x y <=? 0)%Z; simpl.
    + destruct (String.eqb_spec (semanticView (view x)) token); [contradiction | reflexivity].
    + now rewrite IH.
Qed.

(** X6.  The sort is stable on a token of the preference table: the
    entries with that token keep the order they had before the sort, for any
    [localeCompare]. *)
Theorem inventory_order_is_stable (token : string) (l : list Entry) :
  indexOf preferredOrder token <> (-1)%Z ->
  filter (fun e => (semanticView (view e) =? token)%string)
    (sortEntries localeCompare preferredOrder l)
  = filter (fun e => (semanticView (view e) =? token)%string) l.
Proof.
  intros Hi. unfold sortEntries. induction l as [|x l IH]; [reflexivity |].
  cbn [arraySort filter].
  destruct (String.eqb_spec (semanticView (view x)) token) as [Hx | Hx].
  - rewrite (filter_insertSorted_same token x _ Hx Hi). now rewrite IH.
  - rewrite (filter_insertSorted_other token x _ Hx). exact IH.
Qed.

End TableOrder.

Lemma inventory_order_is_stable_witness :
  filter (fun e => (semanticView (view e) =? "main")%string)
    (sortEntries codeUnitCompare defaultPreferredOrder sameTokenEntries)
  = filter (fun e => (semanticView (view e) =? "main")%string) sameTokenEntries.
Proof.
  apply (inventory_order_is_stable codeUnitCompare defaultPreferredOrder "main"
           sameTokenEntries).
  vm_compute. discriminate.
Defined.


(** ** The style filters *)

Lemma setOf_NoDup (l : list string) : NoDup (setOf l).
Proof.
  unfold setOf. apply (foldSet_NoDup (fun x : string => x)). constructor.
Qed.

Lemma setOf_In (l : list string) (k : string) : In k (setOf l) <-> In k l.
Proof.
  unfold setOf. rewrite (foldSet_In (fun x : string => x)). split.
  - intros [[] | [x [Hx <-]]]. exact Hx.
  - intros H. right. now exists k.
Qed.

Lemma truthy_nonempty (s : string) : JS.truthy s = true <-> s <> "".
Proof. destruct s; simpl; split; congruence. Qed.

Lemma styleSetOf_In (content s : string) :
  In s (styleSetOf content) <->
  s <> "" /\ exists line, In line (JS.splitLines content) /\ JS.trim line = s.
Proof.
  unfold styleSetOf. rewrite setOf_In, filter_In, in_map_iff, truthy_nonempty.
  split.
  - intros [[line [Hl Hi]] Hs]. split; [exact Hs | now exists line].
  - intros [Hs [line [Hi Hl]]]. split; [now exists line | exact Hs].
Qed.

Lemma styleSetOf_trimmed (content s : string) :
  In s (styleSetOf content) -> JS.trim s = s.
Proof.
  intros Hs. apply styleSetOf_In in Hs. destruct Hs as [_ [line [_ <-]]].
  apply trim_idempotent.
Qed.

(** X7.  The set read from a styles file holds every non-blank line of the
    file once, trimmed, and nothing else; so it never holds the empty string
    or a string with white space at either end, whatever the line ends of
    the file are. *)
Theorem styleSetOf_members (content : string) :
  NoDup (styleSetOf content)
  /\ (forall s, In s (styleSetOf content) <->
        s <> "" /\ exists line, In line (JS.splitLines content) /\ JS.trim line = s)
  /\ (forall s, In s (styleSetOf content) -> JS.trim s = s).
Proof.
  split; [apply setOf_NoDup |]. split; [apply styleSetOf_In | apply styleSetOf_trimmed].
Qed.

Lemma fold_mapSet_values {X V : Type} (keyOf : X -> string) (valOf : X -> V)
    (l : list X) (m : JSMap V) (k : string) (v : V) :
  mapGet k (fold_left (fun acc x => mapSet (keyOf x) (valOf x) acc) l m) = Some v ->
  mapGet k m = Some v \/ exists x, In x l /\ keyOf x = k /\ valOf x = v.
Proof.
  revert m. induction l as [|x l IH]; simpl; intros m H; [now left |].
  apply IH in H. destruct H as [H | [y [Hy [Hk Hv]]]].
  - destruct (String.eqb_spec (keyOf x) k) as [E | E].
    + rewrite <- E, mapGet_mapSet_same in H. injection H as <-.
      right. exists x. auto.
    + rewrite mapGet_mapSet_other in H by exact E. now left.
  - right. exists y. auto.
Qed.

Lemma loadStylesMap_values (listing : list (string * string)) (k : string)
    (allowed : list string) :
  mapGet k (loadStylesMap listing) = Some allowed ->
  exists file, In file listing
    /\ JS.endsWith (fst file) "_styles.txt" = true
    /\ k = JS.removeFirst "_styles.txt" (fst file)
    /\ allowed = styleSetOf (snd file).
Proof.
  intros H. unfold loadStylesMap in H.
  apply (fold_mapSet_values (fun file : string * string => JS.removeFirst "_styles.txt" (fst file))
           (fun file => styleSetOf (snd file))) in H.
  destruct H as [H | [file [Hf [Hk Hv]]]]; [discriminate |].
  apply filter_In in Hf. destruct Hf as [Hf He].
  exists file. auto.
Qed.

(** ** The catalog stage *)

Lemma last_cons {A : Type} (a d : A) (l : list A) : last (a :: l) d = last l a.
Proof.
  revert a d. induction l as [|b l IH]; intros a d; [reflexivity |].
  change (last (a :: b :: l) d) with (last (b :: l) d). now rewrite !IH.
Qed.

Lemma readCatalogs_run (stylesMap : JSMap (list string))
    (files : list (string * Element)) (state : list (Product unit) * string) (w : World) :
  readCatalogs stylesMap state files w
  = Done ((fst state ++ flat_map (catalogEntries stylesMap) files)%list,
          last (map (fun file => catalogBaseName (fst file)) files) (snd state))
      {| fs := fs w;
         trace := (trace w ++ flat_map (catalogWarnings stylesMap) files)%list |}.
Proof.
  revert state w. induction files as [|file rest IH]; intros state w.
  - simpl. rewrite !app_nil_r. unfold ret. destruct state, w. reflexivity.
  - cbn [readCatalogs map flat_map]. rewrite last_cons.
    unfold bind, readCatalog, catalogEntries, catalogWarnings.
    destruct (mapGet (catalogBaseName (fst file)) stylesMap) as [allowed|].
    + unfold ret. cbv beta iota. rewrite IH. cbn [fst snd app].
      now rewrite <- app_assoc.
    + unfold console, emit, ret, bind. cbv beta iota. rewrite IH.
      cbn [fst snd app fs trace]. now rewrite <- app_assoc.
Qed.

Lemma productsOf_In (allowed : list string) (f : string) (doc : Element)
    (p : Product unit) :
  In p (productsOf allowed f doc) <->
  exists product,
    In product (docElementsByTagName doc "product")
    /\ In (getAttribute product "product-id") allowed
    /\ imagePathsOf product <> []
    /\ p = {| productId := getAttribute product "product-id";
              images := imagePathsOf product; xmlFileName := f; views := tt |}.
Proof.
  unfold productsOf. rewrite in_flat_map. split.
  - intros [product [Hp H]]. exists product. split; [exact Hp |].
    destruct (includes allowed (getAttribute product "product-id")) eqn:E; [| destruct H].
    apply includes_In in E. split; [exact E |].
    destruct (imagePathsOf product) as [|i l]; [destruct H |].
    destruct H as [<- | []]. split; [discriminate | reflexivity].
  - intros [product [Hp [Hid [Himg ->]]]]. exists product. split; [exact Hp |].
    apply includes_In in Hid. rewrite Hid.
    destruct (imagePathsOf product) as [|i l]; [congruence | now left].
Qed.

Lemma loadCatalogs_run (stylesDirListing : list (string * string))
    (catalogsDirListing : list (string * Element)) (w : World) :
  loadCatalogs stylesDirListing catalogsDirListing w
  = Done (flat_map (catalogEntries (loadStylesMap stylesDirListing))
            (filter (fun file => JS.endsWith (fst file) ".xml") catalogsDirListing),
          last (map (fun file => catalogBaseName (fst file))
                  (filter (fun file => JS.endsWith (fst file) ".xml") catalogsDirListing))
               "")
      {| fs := fs w;
         trace := (trace w ++ flat_map (catalogWarnings (loadStylesMap stylesDirListing))
                     (filter (fun file => JS.endsWith (fst file) ".xml")
                        catalogsDirListing))%list |}.
Proof. unfold loadCatalogs. now rewrite readCatalogs_run. Qed.

Lemma catalogEntries_In (stylesMap : JSMap (list string))
    (catalogsDirListing : list (string * Element)) (p : Product unit) :
  In p (flat_map (catalogEntries stylesMap)
          (filter (fun file => JS.endsWith (fst file) ".xml") catalogsDirListing)) <->
  exists file allowedStyles product,
    In file catalogsDirListing
    /\ JS.endsWith (fst file) ".xml" = true
    /\ mapGet (catalogBaseName (fst file)) stylesMap = Some allowedStyles
    /\ In product (docElementsByTagName (snd file) "product")
    /\ In (getAttribute product "product-id") allowedStyles
    /\ imagePathsOf product <> []
    /\ p = {| productId := getAttribute product "product-id";
              images := imagePathsOf product;
              xmlFileName := fst file; views := tt |}.
Proof.
  rewrite in_flat_map. split.
  - intros [file [Hf Hp]]. apply filter_In in Hf. destruct Hf as [Hf Hx].
    unfold catalogEntries in Hp.
    destruct (mapGet _ _) as [allowed|] eqn:Hm; [| destruct Hp].
    apply productsOf_In in Hp. destruct Hp as [product Hp].
    exists file, allowed, product. tauto.
  - intros [file [allowed [product [Hf [Hx [Hm Hp]]]]]]. exists file. split.
    + apply filter_In. auto.
    + unfold catalogEntries. rewrite Hm. apply productsOf_In. now exists product.
Qed.

(** X8.  When the catalog stage has ended normally: [activeCatalogBase] is
    the base name of the last [.xml] file listed, whether or not that file
    has a styles list (and is empty when no [.xml] file is listed); every
    [.xml] file whose base name has no styles list has its warning on the
    console; and no entry of [xmlData] names a catalog file without a
    styles list. *)
Theorem loadCatalogs_last_catalog (stylesDirListing : list (string * string))
    (catalogsDirListing : list (string * Element)) (w : World)
    (xmlData : list (Product unit)) (activeCatalogBase : string) (w' : World) :
  loadCatalogs stylesDirListing catalogsDirListing w
  = Done (xmlData, activeCatalogBase) w' ->
  activeCatalogBase
  = last (map (fun file => catalogBaseName (fst file))
            (filter (fun file => JS.endsWith (fst file) ".xml") catalogsDirListing))
         ""
  /\ (forall file,
        In file catalogsDirListing ->
        JS.endsWith (fst file) ".xml" = true ->
        mapGet (catalogBaseName (fst file)) (loadStylesMap stylesDirListing) = None ->
        In (Console WARN ("No styles list found for catalog " ++ fst file)) (trace w'))
  /\ (forall p,
        In p xmlData ->
        mapGet (catalogBaseName (xmlFileName p)) (loadStylesMap stylesDirListing) <> None).
Proof.
  intros Hrun. rewrite loadCatalogs_run in Hrun. injection Hrun as <- <- <-.
  split; [reflexivity |]. split.
  - intros file Hf Hx Hm. cbn [trace]. apply in_or_app. right.
    apply in_flat_map. exists file. split; [apply filter_In; auto |].
    unfold catalogWarnings. rewrite Hm. now left.
  - intros p Hp. apply catalogEntries_In in Hp.
    destruct Hp as [file [allowed [product [_ [_ [Hm [_ [_ [_ ->]]]]]]]]].
    cbn [xmlFileName]. rewrite Hm. discriminate.
Qed.

Lemma loadCatalogs_last_catalog_witness :
  "georgia"
  = last (map (fun file => catalogBaseName (fst file))
            (filter (fun file => JS.endsWith (fst file) ".xml") sampleCatalogsListing))
         ""
  /\ (forall file,
        In file sampleCatalogsListing ->
        JS.endsWith (fst file) ".xml" = true ->
        mapGet (catalogBaseName (fst file)) (loadStylesMap sampleStylesListing) = None ->
        In (Console WARN ("No styles list found for catalog " ++ fst file))
          (trace (worldOf (loadCatalogs sampleStylesListing sampleCatalogsListing
                             emptyWorld))))
  /\ (forall p,
        In p [sampleXmlEntry] ->
        mapGet (catalogBaseName (xmlFileName p)) (loadStylesMap sampleStylesListing)
        <> None).
Proof.
  apply (loadCatalogs_last_catalog sampleStylesListing sampleCatalogsListing emptyWorld
           [sampleXmlEntry] "georgia"
           (worldOf (loadCatalogs sampleStylesListing sampleCatalogsListing emptyWorld))).
  reflexivity.
Defined.

(** X9.  Every entry the catalog stage puts into [xmlData] has a product
    id that is not empty and has no white space at either end, has at least
    one image path, names an [.xml] file, and has its product id in the set
    of a [_styles.txt] file whose base name is that of the catalog. *)
Theorem loadCatalogs_entries_wellformed (stylesDirListing : list (string * string))
    (catalogsDirListing : list (string * Element)) (w : World)
    (xmlData : list (Product unit)) (activeCatalogBase : string) (w' : World)
    (p : Product unit) :
  loadCatalogs stylesDirListing catalogsDirListing w
  = Done (xmlData, activeCatalogBase) w' ->
  In p xmlData ->
  productId p <> ""
  /\ JS.trim (productId p) = productId p
  /\ images p <> []
  /\ JS.endsWith (xmlFileName p) ".xml" = true
  /\ exists stylesFile,
       In stylesFile stylesDirListing
       /\ JS.endsWith (fst stylesFile) "_styles.txt" = true
       /\ JS.removeFirst "_styles.txt" (fst stylesFile) = catalogBaseName (xmlFileName p)
       /\ In (productId p) (styleSetOf (snd stylesFile)).
Proof.
  intros Hrun Hp. rewrite loadCatalogs_run in Hrun. injection Hrun as <- _ _.
  apply catalogEntries_In in Hp.
  destruct Hp as [file [allowed [product [Hf [Hx [Hm [Hprod [Hid [Himg ->]]]]]]]]].
  cbn [productId images xmlFileName].
  apply loadStylesMap_values in Hm.
  destruct Hm as [stylesFile [Hs [Hends [Hbase ->]]]].
  pose proof (proj1 (styleSetOf_In _ _) Hid) as [Hne _].
  repeat split; try assumption.
  - now apply (styleSetOf_trimmed (snd stylesFile)).
  - exists stylesFile. auto.
Qed.

Lemma loadCatalogs_entries_wellformed_witness :
  productId sampleXmlEntry <> ""
  /\ JS.trim (productId sampleXmlEntry) = productId sampleXmlEntry
  /\ images sampleXmlEntry <> []
  /\ JS.endsWith (xmlFileName sampleXmlEntry) ".xml" = true
  /\ exists stylesFile,
       In stylesFile sampleStylesListing
       /\ JS.endsWith (fst stylesFile) "_styles.txt" = true
       /\ JS.removeFirst "_styles.txt" (fst stylesFile)
          = catalogBaseName (xmlFileName sampleXmlEntry)
       /\ In (productId sampleXmlEntry) (styleSetOf (snd stylesFile)).
Proof.
  apply (loadCatalogs_entries_wellformed sampleStylesListing sampleCatalogsListing
           emptyWorld [sampleXmlEntry] "georgia"
           (worldOf (loadCatalogs sampleStylesListing sampleCatalogsListing emptyWorld))
           sampleXmlEntry).
  - reflexivity.
  - simpl. now left.
Defined.

(** ** The resolver, the views and the copier of the later revisions *)

Lemma In_mapSet {V : Type} (k k' : string) (v v' : V) (m : JSMap V) :
  In (k, v) (mapSet k' v' m) -> (k = k' /\ v = v') \/ In (k, v) m.
Proof.
  induction m as [|[k0 v0] m IH]; simpl.
  - intros [[= <- <-] | []]. now left.
  - destruct (String.eqb_spec k0 k') as [-> | _]; simpl.
    + intros [[= <- <-] | H]; [now left | right; now right].
    + intros [H | H]; [right; now left |].
      apply IH in H. destruct H as [H | H]; [now left | right; now right].
Qed.

Lemma length_mapSet {V : Type} (k : string) (v : V) (m : JSMap V) :
  length (mapSet k v m) <= S (length m).
Proof.
  induction m as [|[k0 v0] m IH]; simpl; [lia |].
  destruct (k0 =? k)%string; simpl; lia.
Qed.

Lemma mapGet_of_key {V : Type} (k : string) (m : JSMap V) :
  In k (mapKeys m) -> exists v, mapGet k m = Some v.
Proof.
  induction m as [|[k0 v0] m IH]; simpl; [intros [] |].
  destruct (String.eqb_spec k0 k) as [-> | Hne].
  - intros _. now exists v0.
  - intros [H | H]; [contradiction | now apply IH].
Qed.

Lemma collect_entries {V : Type} (keyOf : V -> string) (l : list V) (k : string) (v : V) :
  In (k, v) (collect keyOf l []) -> In v l /\ keyOf v = k.
Proof.
  induction l as [|x l IH] using rev_ind; [intros [] |].
  rewrite collect_snoc. intros H. apply In_mapSet in H.
  destruct H as [[-> ->] | H].
  - split; [apply in_or_app; right; now left | reflexivity].
  - apply IH in H. destruct H as [H1 H2]. split; [apply in_or_app; now left | exact H2].
Qed.

Lemma collect_length {V : Type} (keyOf : V -> string) (l : list V) :
  length (collect keyOf l []) <= length l.
Proof.
  induction l as [|x l IH] using rev_ind; [simpl; lia |].
  rewrite collect_snoc, length_app. simpl.
  pose proof (length_mapSet (keyOf x) x (collect keyOf l [])). lia.
Qed.

Section Pipeline.

Context {P : NodePath}.
Variable scriptDir : string.
Variable sharpMetadata : string -> option Metadata.

Let classify (product : Product unit) (imagePath : string) : string :=
  extractImageView (imagesDir scriptDir) sharpMetadata (productId product) imagePath.

(** X10.  The [views] map [processProductViews] builds for a product in the
    later revisions: its keys are distinct; every entry maps the key of one
    of the product's images to that image; the key of every image of the
    product is present (holding an image of the product); and there are at
    most as many views as images. *)
Theorem viewsOf_invariant (product : Product unit) :
  let views := Rev1.viewsOf scriptDir sharpMetadata product in
  NoDup (mapKeys views)
  /\ (forall k imagePath, In (k, imagePath) views ->
        In imagePath (images product)
        /\ extractImageView (imagesDir scriptDir) sharpMetadata
             (productId product) imagePath = k)
  /\ (forall imagePath, In imagePath (images product) ->
        exists kept,
          mapGet (extractImageView (imagesDir scriptDir) sharpMetadata
                    (productId product) imagePath) views = Some kept
          /\ In kept (images product))
  /\ length views <= length (images product).
Proof.
  intros views. subst views.
  change (Rev1.viewsOf scriptDir sharpMetadata product)
    with (collect (classify product) (images product) []).
  split; [apply collect_NoDup |]. split; [| split].
  - intros k imagePath H. now apply collect_entries in H.
  - intros imagePath Hin.
    destruct (mapGet_of_key (classify product imagePath)
                (collect (classify product) (images product) [])) as [kept Hk].
    { apply collect_keys. now exists imagePath. }
    exists kept. split; [exact Hk |].
    apply mapGet_In in Hk. now apply collect_entries in Hk.
  - apply collect_length.
Qed.

Lemma resolveImages_In (xmlData : list (Product unit)) (f : FS) (q : Product unit) :
  In q (flat_map (fun entry =>
                    match foundImagesOf scriptDir f entry with
                    | [] => []
                    | foundImages =>
                        [{| productId := productId entry; images := foundImages;
                            xmlFileName := xmlFileName entry; views := tt |}]
                    end) xmlData) <->
  exists entry,
    In entry xmlData
    /\ foundImagesOf scriptDir f entry <> []
    /\ q = {| productId := productId entry; images := foundImagesOf scriptDir f entry;
              xmlFileName := xmlFileName entry; views := tt |}.
Proof.
  rewrite in_flat_map. split.
  - intros [entry [He H]]. exists entry. split; [exact He |].
    destruct (foundImagesOf scriptDir f entry) as [|i l]; [destruct H |].
    destruct H as [<- | []]. split; [discriminate | reflexivity].
  - intros [entry [He [Hne ->]]]. exists entry. split; [exact He |].
    destruct (foundImagesOf scriptDir f entry) as [|i l]; [congruence | now left].
Qed.

(** X11.  The availability resolver changes neither the file store nor the
    console.  Every product it keeps has at least one image, exactly the
    images of its [xmlData] entry that exist under [sfcc-images/images], in
    their order; every existing image of an entry is kept; and no product is
    invented. *)
Theorem resolveImages_keeps_found_images (xmlData : list (Product unit)) (w : World) :
  exists productImagesAvailable,
    resolveImages scriptDir xmlData w = Done productImagesAvailable w
    /\ (forall q, In q productImagesAvailable ->
          images q <> []
          /\ (forall imagePath, In imagePath (images q) ->
                present (fs w) (pjoin [imagesDir scriptDir; "images"; imagePath]) = true)
          /\ exists entry,
               In entry xmlData
               /\ productId q = productId entry
               /\ xmlFileName q = xmlFileName entry
               /\ images q
                  = filter (fun imagePath =>
                              present (fs w) (pjoin [imagesDir scriptDir; "images"; imagePath]))
                      (images entry))
    /\ (forall entry imagePath,
          In entry xmlData -> In imagePath (images entry) ->
          present (fs w) (pjoin [imagesDir scriptDir; "images"; imagePath]) = true ->
          exists q, In q productImagesAvailable
                    /\ productId q = productId entry /\ In imagePath (images q))
    /\ length productImagesAvailable <= length xmlData.
Proof.
  eexists. split; [reflexivity |]. split; [| split].
  - intros q Hq. apply resolveImages_In in Hq. destruct Hq as [entry [He [Hne ->]]].
    cbn [images productId xmlFileName]. split; [exact Hne |]. split.
    + intros imagePath Hi. unfold foundImagesOf in Hi. apply filter_In in Hi. tauto.
    + exists entry. auto.
  - intros entry imagePath He Hi Hp.
    assert (Hin : In imagePath (foundImagesOf scriptDir (fs w) entry)).
    { unfold foundImagesOf. apply filter_In. auto. }
    eexists. split.
    + apply resolveImages_In. exists entry. split; [exact He |]. split; [| reflexivity].
      intros E. rewrite E in Hin. destruct Hin.
    + cbn [productId images]. auto.
  - induction xmlData as [|entry l IH]; [simpl; lia |].
    cbn [flat_map]. rewrite length_app. cbn [length].
    destruct (foundImagesOf scriptDir (fs w) entry); simpl; lia.
Qed.

(** X12.  Resolver, [processProductViews] and copier of the later revisions
    in a row: all three end normally, and every [fs.copyFileSync] call the
    copier adds copies an image path of an [xmlData] entry that existed when
    the resolver looked, to the file in [sfcc-images-output] named after that
    entry's product id and the key the classifier gives the path. *)
Theorem copier_copies_found_images (xmlData : list (Product unit)) (w : World) :
  exists productImagesAvailable products w1 w2,
    resolveImages scriptDir xmlData w = Done productImagesAvailable w
    /\ Rev1.processProductViews scriptDir sharpMetadata productImagesAvailable w
       = Done products w1
    /\ Rev1.copyImagesToOutput scriptDir products w1 = Done tt w2
    /\ exists calls,
         copyCalls (trace w2) = (copyCalls (trace w) ++ calls)%list
         /\ forall src dst, In (src, dst) calls ->
              exists entry imagePath,
                In entry xmlData
                /\ In imagePath (images entry)
                /\ src = pjoin [imagesDir scriptDir; "images"; imagePath]
                /\ present (fs w) src = true
                /\ dst = pjoin [outputDir scriptDir;
                                outputFileName (productId entry)
                                  (extractImageView (imagesDir scriptDir) sharpMetadata
                                     (productId entry) imagePath)].
Proof.
  set (avail := flat_map (fun entry =>
                    match foundImagesOf scriptDir (fs w) entry with
                    | [] => []
                    | foundImages =>
                        [{| productId := productId entry; images := foundImages;
                            xmlFileName := xmlFileName entry; views := tt |}]
                    end) xmlData).
  set (products := map (fun product =>
                          withViews product (Rev1.viewsOf scriptDir sharpMetadata product))
                     avail).
  set (w1 := {| fs := fs w;
                trace := (trace w ++ [ConsoleTable
                   (map (fun p => (productId p, length (images p),
                                   JS.join ", " (mapKeys (views p)))) products)])%list |}).
  destruct (Rev1_copy_calls scriptDir products w1) as [w2 [Hrun Hcalls]].
  exists avail, products, w1, w2.
  split; [reflexivity |]. split; [reflexivity |]. split; [exact Hrun |].
  eexists. split.
  - rewrite Hcalls. unfold w1. cbn [trace]. rewrite copyCalls_app. cbn.
    rewrite app_nil_r. reflexivity.
  - intros src dst Hin. apply in_flat_map in Hin. destruct Hin as [p [Hp Hc]].
    unfold products in Hp. apply in_map_iff in Hp. destruct Hp as [q [<- Hq]].
    cbn [withViews productId views] in Hc.
    apply in_map_iff in Hc. destruct Hc as [[k imagePath] [Hcall Hkv]].
    change (Rev1.viewsOf scriptDir sharpMetadata q)
      with (collect (classify q) (images q) []) in Hkv.
    apply collect_entries in Hkv. destruct Hkv as [Hi Hk].
    unfold avail in Hq. apply resolveImages_In in Hq.
    destruct Hq as [entry [He [Hne ->]]]. cbn [images productId] in *.
    unfold foundImagesOf in Hi. apply filter_In in Hi. destruct Hi as [Hi Hpres].
    unfold copyCall in Hcall. cbn [fst snd] in Hcall. injection Hcall as <- <-.
    exists entry, imagePath. repeat split; try assumption.
    unfold classify in Hk. cbn [productId] in Hk. now rewrite Hk.
Qed.

End Pipeline.

(** ** From the inventory the aggregator writes to the manifest *)

Lemma singleLine_append (a b : string) :
  singleLine (a ++ b) = singleLine a && singleLine b.
Proof.
  unfold singleLine. rewrite !includesChar_append, !negb_orb.
  destruct (JS.includesChar "010" a), (JS.includesChar "013" a),
    (JS.includesChar "010" b), (JS.includesChar "013" b); reflexivity.
Qed.

Lemma splitLines_nonempty (s : string) : JS.splitLines s <> [].
Proof.
  destruct s as [|c s]; cbn [JS.splitLines]; [discriminate |].
  destruct (c =? "010")%char; [discriminate |].
  destruct (c =? "013")%char.
  - destruct s as [|d s]; [simpl; discriminate |].
    destruct (d =? "010")%char; [discriminate |].
    destruct (JS.splitLines (String d s)); discriminate.
  - destruct (JS.splitLines s); discriminate.
Qed.

Lemma splitLines_append_lf (a b : string) :
  singleLine a = true ->
  JS.splitLines (a ++ String "010" b) = a :: JS.splitLines b.
Proof.
  induction a as [|c a IH]; intros H.
  - cbn [append JS.splitLines]. now rewrite Ascii.eqb_refl.
  - unfold singleLine in H. cbn [JS.includesChar] in H.
    rewrite !negb_orb, !andb_true_iff, !negb_true_iff in H.
    destruct H as [[Hlf Hlf'] [Hcr Hcr']].
    rewrite append_cons. cbn [JS.splitLines]. rewrite Hlf, Hcr.
    rewrite IH; [reflexivity |].
    unfold singleLine. now rewrite Hlf', Hcr'.
Qed.

Lemma splitLines_single (a : string) : singleLine a = true -> JS.splitLines a = [a].
Proof.
  induction a as [|c a IH]; intros H; [reflexivity |].
  unfold singleLine in H. cbn [JS.includesChar] in H.
  rewrite !negb_orb, !andb_true_iff, !negb_true_iff in H.
  destruct H as [[Hlf Hlf'] [Hcr Hcr']].
  cbn [JS.splitLines]. rewrite Hlf, Hcr.
  rewrite IH; [reflexivity |].
  unfold singleLine. now rewrite Hlf', Hcr'.
Qed.

Lemma splitLines_join (l0 : string) (ls : list string) :
  forallb singleLine (l0 :: ls) = true ->
  JS.splitLines (JS.join (String "010" "") (l0 :: ls)) = l0 :: ls.
Proof.
  revert l0. induction ls as [|l1 ls IH]; intros l0 H.
  - simpl in H. rewrite andb_true_r in H. now apply splitLines_single.
  - cbn [forallb] in H. apply andb_true_iff in H. destruct H as [H0 H].
    rewrite join_cons2.
    change (l0 ++ String "010" "" ++ JS.join (String "010" "") (l1 :: ls))
      with (l0 ++ String "010" (JS.join (String "010" "") (l1 :: ls))).
    rewrite (splitLines_append_lf _ _ H0). f_equal. now apply IH.
Qed.

Lemma join_singleLine (names : list string) :
  forallb singleLine names = true -> singleLine (JS.join ", " names) = true.
Proof.
  destruct names as [|n l]; [reflexivity |]. revert n.
  induction l as [|m l IH]; intros n H.
  - simpl in H. now rewrite andb_true_r in H.
  - cbn [forallb] in H. apply andb_true_iff in H. destruct H as [Hn Hrest].
    rewrite join_cons2, !singleLine_append, (IH m Hrest), Hn. reflexivity.
Qed.

Lemma inventoryLine_singleLine (productId : string) (nonGray gray : list Entry) :
  singleLine productId = true ->
  forallb singleLine (map filename nonGray) = true ->
  forallb singleLine (map filename gray) = true ->
  singleLine (inventoryLine productId nonGray gray) = true.
Proof.
  intros Hp Hn Hg. unfold inventoryLine.
  rewrite !singleLine_append, Hp, (join_singleLine _ Hn), (join_singleLine _ Hg).
  reflexivity.
Qed.

Lemma length_split_sep (c : ascii) (s : string) :
  JS.includesChar c s = true -> 2 <= length (JS.split c s).
Proof.
  induction s as [|x s IH]; [discriminate |].
  cbn [JS.includesChar JS.split]. destruct (x =? c)%char; simpl.
  - intros _. pose proof (split_nonempty c s). destruct (JS.split c s); [congruence | simpl; lia].
  - intros H. specialize (IH H). destruct (JS.split c s); simpl in *; lia.
Qed.

Lemma imageRow_defined (productInfo : StyleInfo) (style : string) (position : N)
    (trimmed : string) :
  JS.includesChar "_" trimmed = true ->
  exists r, imageRow productInfo style position trimmed = Some (r, (position + 1)%N).
Proof.
  intros H. unfold imageRow, viewTokenOf.
  pose proof (length_split_sep "_" trimmed H) as L.
  destruct (Nat.ltb_spec (length (JS.split "_" trimmed)) 2) as [L' | _]; [lia |].
  destruct (nth_error (JS.split "_" trimmed) (length (JS.split "_" trimmed) - 2))
    as [v|] eqn:E.
  - destruct (dimensionsOf (dimPartOf trimmed)). eexists. reflexivity.
  - apply nth_error_None in E. lia.
Qed.

Lemma imageRows_defined (productInfo : StyleInfo) (style : string)
    (imageList : list string) :
  Forall (fun image => JS.trim image = "" \/ JS.includesChar "_" (JS.trim image) = true)
    imageList ->
  forall position,
    exists rows, imageRows productInfo style position imageList = Some rows.
Proof.
  induction 1 as [|image rest Himage _ IH]; intros position; [now exists [] |].
  cbn [imageRows]. destruct Himage as [E | E].
  - rewrite E. cbn [JS.truthy negb]. apply IH.
  - destruct (JS.truthy (JS.trim image)); cbn [negb]; [| apply IH].
    destruct (imageRow_defined productInfo style position _ E) as [r ->].
    destruct (IH (position + 1)%N) as [rows ->]. now eexists.
Qed.

Lemma includesChar_outputFileName (productId view : string) :
  JS.includesChar "_" (outputFileName productId view) = true.
Proof.
  unfold outputFileName. rewrite includesChar_append.
  change ("_" ++ view ++ ".jpg") with (String "_" (view ++ ".jpg")).
  cbn [JS.includesChar]. rewrite Ascii.eqb_refl. apply orb_true_r.
Qed.

Lemma items_of_join_trimmed (names : list string) (image : string) :
  forallb goodName names = true ->
  In image (JS.split "," (JS.join ", " names)) ->
  JS.trim image = "" \/ In (JS.trim image) names.
Proof.
  intros Hgood Hin.
  destruct (JS.trim image) as [|c t] eqn:E; [now left | right].
  rewrite <- (items_of_join names Hgood). apply filter_In. split.
  - rewrite <- E. now apply in_map.
  - reflexivity.
Qed.

Section Handover.

Variable localeCompare : string -> string -> Z.

Lemma sorted_entries_filenames (productId : string) (vs : JSMap string)
    (preferredOrder : list string) (keep : Entry -> bool) (e : Entry) :
  In e (sortEntries localeCompare preferredOrder (filter keep (entriesOf productId vs))) ->
  exists k, In k (mapKeys vs) /\ filename e = outputFileName productId k.
Proof.
  intros H. unfold sortEntries in H.
  apply (Permutation_in _ (arraySort_perm _ _)) in H.
  apply filter_In in H. destruct H as [H _].
  unfold entriesOf in H. apply in_map_iff in H. destruct H as [[k v] [<- Hkv]].
  exists k. split; [| reflexivity]. unfold mapKeys. now apply (in_map fst) in Hkv.
Qed.

Lemma plainNames_lists (p : Product (JSMap string)) :
  plainNames p = true ->
  noQuote (productId p) = true /\ singleLine (productId p) = true
  /\ (forall l, (l = grayList localeCompare p \/ l = nonGrayList localeCompare p) ->
        forallb goodName (map filename l) = true
        /\ forallb singleLine (map filename l) = true
        /\ Forall (fun n => JS.includesChar "_" n = true) (map filename l)).
Proof.
  unfold plainNames. rewrite !andb_true_iff, forallb_forall.
  intros [[Hq Hs] Hk]. split; [exact Hq |]. split; [exact Hs |].
  intros l Hl.
  assert (Hnames : forall n, In n (map filename l) ->
            exists k, In k (mapKeys (views p)) /\ n = outputFileName (productId p) k).
  { intros n Hn. apply in_map_iff in Hn. destruct Hn as [e [<- He]].
    destruct Hl as [-> | ->]; unfold grayList, nonGrayList, grayEntries, nonGrayEntries in He;
      now apply sorted_entries_filenames in He. }
  split; [| split].
  - apply forallb_forall. intros n Hn. destruct (Hnames n Hn) as [k [Hin ->]].
    specialize (Hk k Hin). now apply andb_true_iff in Hk.
  - apply forallb_forall. intros n Hn. destruct (Hnames n Hn) as [k [Hin ->]].
    specialize (Hk k Hin). now apply andb_true_iff in Hk.
  - apply Forall_forall. intros n Hn. destruct (Hnames n Hn) as [k [Hin ->]].
    apply includesChar_outputFileName.
Qed.

Lemma rowsOfInventoryRow_defined (styleMap : JSMap StyleInfo) (productId : string)
    (nonGray gray : list Entry) :
  noQuote productId = true ->
  forallb goodName (map filename nonGray) = true ->
  forallb goodName (map filename gray) = true ->
  Forall (fun n => JS.includesChar "_" n = true) (map filename nonGray) ->
  Forall (fun n => JS.includesChar "_" n = true) (map filename gray) ->
  exists rows,
    rowsOfInventoryRow styleMap (inventoryLine productId nonGray gray) = Some rows.
Proof.
  intros Hp Hn Hg Un Ug. unfold rowsOfInventoryRow.
  rewrite inventoryLine_not_blank. cbn [negb].
  rewrite (inventoryLine_fields productId nonGray gray Hp (join_noQuote _ Hn)
             (join_noQuote _ Hg)).
  cbn [nth nth_error].
  destruct (mapGet (JS.trim productId) styleMap) as [productInfo|]; [| now exists []].
  rewrite (trim_join_good _ Hn), (trim_join_good _ Hg).
  assert (Hlist : forall names,
            forallb goodName names = true ->
            Forall (fun n => JS.includesChar "_" n = true) names ->
            Forall (fun image => JS.trim image = ""
                                 \/ JS.includesChar "_" (JS.trim image) = true)
              (JS.split "," (JS.join ", " names))).
  { intros names Hgood Hus. apply Forall_forall. intros image Hin.
    destruct (items_of_join_trimmed names image Hgood Hin) as [E | E]; [now left | right].
    rewrite Forall_forall in Hus. now apply Hus. }
  unfold chooseImageList.
  destruct (JS.truthy (JS.join ", " (map filename gray))); cbn [option_map].
  - apply imageRows_defined. now apply Hlist.
  - apply imageRows_defined. now apply Hlist.
Qed.

Lemma manifestRows_of_inventory (styleMap : JSMap StyleInfo)
    (products : list (Product (JSMap string))) :
  forallb plainNames products = true ->
  exists rows,
    manifestRows styleMap (map (inventoryRow localeCompare) products) = Some rows
    /\ map rowImageSrc rows = flat_map (manifestNamesOf localeCompare styleMap) products.
Proof.
  induction products as [|p rest IH]; intros H; [now exists [] |].
  cbn [forallb] in H. apply andb_true_iff in H. destruct H as [Hp Hrest].
  destruct (IH Hrest) as [later [Hlater Hsrc]].
  destruct (plainNames_lists p Hp) as [Hq [_ Hlists]].
  destruct (Hlists (grayList localeCompare p) (or_introl eq_refl)) as [Gg [_ Ug]].
  destruct (Hlists (nonGrayList localeCompare p) (or_intror eq_refl)) as [Gn [_ Un]].
  destruct (rowsOfInventoryRow_defined styleMap (productId p) _ _ Hq Gn Gg Un Ug)
    as [here Hhere].
  exists (here ++ later)%list. split.
  - cbn [map manifestRows]. unfold inventoryRow at 1. now rewrite Hhere, Hlater.
  - rewrite map_app, Hsrc. cbn [flat_map]. f_equal.
    destruct (rows_of_inventoryLine styleMap _ _ _ here Hq Gn Gg Hhere) as [E _].
    rewrite E. unfold manifestNamesOf.
    destruct (mapGet (JS.trim (productId p)) styleMap); [| reflexivity].
    now destruct (grayList localeCompare p).
Qed.

Lemma inventoryCsv_lines (products : list (Product (JSMap string))) :
  forallb plainNames products = true ->
  JS.splitLines (inventoryCsv localeCompare products)
  = inventoryHeader :: map (inventoryRow localeCompare) products.
Proof.
  intros H. unfold inventoryCsv. apply splitLines_join.
  cbn [forallb]. apply andb_true_iff. split; [reflexivity |].
  apply forallb_forall. intros line Hl. apply in_map_iff in Hl.
  destruct Hl as [p [<- Hp]].
  rewrite forallb_forall in H. specialize (H p Hp).
  destruct (plainNames_lists p H) as [_ [Hs Hlists]].
  destruct (Hlists (grayList localeCompare p) (or_introl eq_refl)) as [_ [Sg _]].
  destruct (Hlists (nonGrayList localeCompare p) (or_intror eq_refl)) as [_ [Sn _]].
  unfold inventoryRow. now apply inventoryLine_singleLine.
Qed.

(** X13.  Round trip through the inventory CSV: the quote-aware split of
    [generateMatrixifyCSV] takes a line the aggregator wrote apart into
    exactly three cells, the product id (trimmed) and the two lists, and
    splitting a list cell on commas gives back the file names the aggregator
    joined, although the separator of the cells is a comma too.  It needs a
    product id without double quote and file names without comma, double
    quote or outer white space. *)
Theorem inventory_line_round_trip (productId : string) (nonGray gray : list Entry) :
  noQuote productId = true ->
  forallb goodName (map filename nonGray) = true ->
  forallb goodName (map filename gray) = true ->
  let fields := parseInventoryRow (inventoryLine productId nonGray gray) in
  length fields = 3
  /\ nth 0 fields "" = JS.trim productId
  /\ filter JS.truthy (map JS.trim (JS.split "," (nth 1 fields ""))) = map filename nonGray
  /\ filter JS.truthy (map JS.trim (JS.split "," (nth 2 fields ""))) = map filename gray.
Proof.
  intros Hp Hn Hg fields. subst fields.
  rewrite (inventoryLine_fields productId nonGray gray Hp (join_noQuote _ Hn)
             (join_noQuote _ Hg)).
  cbn [length nth]. rewrite (trim_join_good _ Hn), (trim_join_good _ Hg).
  rewrite (items_of_join _ Hn), (items_of_join _ Hg). auto.
Qed.

(** X14.  The manifest generator never fails on an inventory the
    aggregator wrote, provided ids and file names are plain (no double
    quote, comma, line break or outer white space): it produces a manifest,
    whose image sources are, product by product in the order of the
    inventory, the file names of the product's gray list when that is not
    empty and of its non-gray list otherwise, and nothing for a product the
    style map does not know. *)
Theorem manifest_of_written_inventory (styleMapContent : string)
    (products : list (Product (JSMap string))) :
  forallb plainNames products = true ->
  exists rows csvText,
    manifestRows (parseStyleMap styleMapContent)
      (tl (JS.splitLines (inventoryCsv localeCompare products))) = Some rows
    /\ map rowImageSrc rows
       = flat_map (manifestNamesOf localeCompare (parseStyleMap styleMapContent)) products
    /\ manifestCsv styleMapContent (inventoryCsv localeCompare products) = Some csvText.
Proof.
  intros H.
  destruct (manifestRows_of_inventory (parseStyleMap styleMapContent) products H)
    as [rows [Hrows Hsrc]].
  exists rows. eexists. rewrite (inventoryCsv_lines products H). cbn [tl].
  split; [exact Hrows |]. split; [exact Hsrc |].
  unfold manifestCsv. rewrite (inventoryCsv_lines products H). cbn [tl].
  rewrite Hrows. reflexivity.
Qed.

End Handover.

Lemma inventory_line_round_trip_witness :
  let fields := parseInventoryRow
                  (inventoryLine "ABC123" sampleNonGrayEntries sampleGrayEntries) in
  length fields = 3
  /\ nth 0 fields "" = JS.trim "ABC123"
  /\ filter JS.truthy (map JS.trim (JS.split "," (nth 1 fields "")))
     = map filename sampleNonGrayEntries
  /\ filter JS.truthy (map JS.trim (JS.split "," (nth 2 fields "")))
     = map filename sampleGrayEntries.
Proof.
  apply (inventory_line_round_trip "ABC123" sampleNonGrayEntries sampleGrayEntries);
    reflexivity.
Defined.

Lemma manifest_of_written_inventory_witness :
  exists rows csvText,
    manifestRows (parseStyleMap sampleStyleMapContent)
      (tl (JS.splitLines (inventoryCsv codeUnitCompare [resolvedTwoViewProduct])))
    = Some rows
    /\ map rowImageSrc rows
       = flat_map (manifestNamesOf codeUnitCompare (parseStyleMap sampleStyleMapContent))
           [resolvedTwoViewProduct]
    /\ manifestCsv sampleStyleMapContent
         (inventoryCsv codeUnitCompare [resolvedTwoViewProduct]) = Some csvText.
Proof.
  apply (manifest_of_written_inventory codeUnitCompare sampleStyleMapContent
           [resolvedTwoViewProduct]).
  reflexivity.
Defined.


(** ** The oldest revision against the later ones *)

Lemma mapKeys_mapSet_setAdd {V : Type} (k : string) (v : V) (m : JSMap V) :
  mapKeys (mapSet k v m) = setAdd k (mapKeys m).
Proof.
  unfold setAdd, includes. induction m as [|[k0 v0] m IH]; [reflexivity |].
  cbn [mapSet mapKeys map fst existsb].
  destruct (k0 =? k)%string; cbn [orb]; [reflexivity |].
  cbn [mapKeys map fst]. fold (mapKeys (mapSet k v m)). rewrite IH.
  fold (mapKeys m). now destruct (existsb _ (mapKeys m)).
Qed.

Lemma mapGet_absent {V : Type} (k : string) (m : JSMap V) :
  ~ In k (mapKeys m) -> mapGet k m = None.
Proof.
  induction m as [|[k0 v0] m IH]; [reflexivity |]. simpl. intros H.
  destruct (String.eqb_spec k0 k) as [-> | _]; [exfalso; apply H; now left |].
  apply IH. intros Hin. apply H. now right.
Qed.

Lemma mapSet_absent {V : Type} (k : string) (v : V) (m : JSMap V) :
  ~ In k (mapKeys m) -> mapSet k v m = (m ++ [(k, v)])%list.
Proof.
  induction m as [|[k0 v0] m IH]; [reflexivity |]. simpl. intros H.
  destruct (String.eqb_spec k0 k) as [-> | _]; [exfalso; apply H; now left |].
  f_equal. apply IH. intros Hin. apply H. now right.
Qed.

Lemma pushView_fold (productId : string) (vs : list string) (entries : list Entry * list Entry) :
  fold_left (Rev0.pushView productId) vs entries
  = ((fst entries
      ++ filter isGray
           (map (fun k => {| filename := outputFileName productId k; view := k |}) vs))%list,
     (snd entries
      ++ filter (fun e => negb (isGray e))
           (map (fun k => {| filename := outputFileName productId k; view := k |}) vs))%list).
Proof.
  revert entries. induction vs as [|k vs IH]; intros [g n].
  - simpl. now rewrite !app_nil_r.
  - cbn [fold_left map filter]. rewrite IH. unfold Rev0.pushView, isGray.
    cbn [view fst snd].
    destruct (JS.startsWith k "gray_"); cbn [fst snd negb]; now rewrite <- ?app_assoc.
Qed.

Section Revisions.

Context {P : NodePath}.
Variable scriptDir : string.
Variable sharpMetadata : string -> option Metadata.
Variable localeCompare : string -> string -> Z.

Let asSet (product : Product unit) : Product (list string) :=
  withViews product (Rev0.viewsOf scriptDir sharpMetadata product).

Let asMap (product : Product unit) : Product (JSMap string) :=
  withViews product (Rev1.viewsOf scriptDir sharpMetadata product).

Lemma Rev0_viewsOf_keys (product : Product unit) :
  Rev0.viewsOf scriptDir sharpMetadata product
  = mapKeys (Rev1.viewsOf scriptDir sharpMetadata product).
Proof.
  unfold Rev0.viewsOf, Rev1.viewsOf.
  change (@nil string) with (mapKeys (@nil (string * string))) at 1.
  generalize (@nil (string * string)) as m.
  induction (images product) as [|imagePath l IH]; intros m; [reflexivity |].
  cbn [fold_left]. rewrite <- IH. now rewrite mapKeys_mapSet_setAdd.
Qed.

(** X15.  The set of views the oldest revision builds for a product is the
    list of keys of the map the later revisions build, in the same order: no
    view twice, and exactly the keys of the product's images. *)
Theorem views_set_is_key_list (product : Product unit) :
  Rev0.viewsOf scriptDir sharpMetadata product
  = mapKeys (Rev1.viewsOf scriptDir sharpMetadata product)
  /\ NoDup (Rev0.viewsOf scriptDir sharpMetadata product)
  /\ (forall k, In k (Rev0.viewsOf scriptDir sharpMetadata product) <->
        exists imagePath,
          In imagePath (images product)
          /\ extractImageView (imagesDir scriptDir) sharpMetadata
               (productId product) imagePath = k).
Proof.
  split; [apply Rev0_viewsOf_keys |]. rewrite Rev0_viewsOf_keys.
  change (Rev1.viewsOf scriptDir sharpMetadata product)
    with (collect (fun imagePath =>
                     extractImageView (imagesDir scriptDir) sharpMetadata
                       (productId product) imagePath) (images product) []).
  split; [apply collect_NoDup | intros k; apply collect_keys].
Qed.

Lemma addProduct_fresh (grouped : JSMap Rev0.Group) (product : Product unit) :
  let catalogGroup := match mapGet (basename (xmlFileName product) ".xml") grouped with
                      | Some g => g
                      | None => []
                      end in
  mapGet (productId product) catalogGroup = None ->
  Rev0.addProduct localeCompare grouped (asSet product)
  = mapSet (basename (xmlFileName product) ".xml")
      (mapSet (productId product)
         (grayList localeCompare (asMap product), nonGrayList localeCompare (asMap product))
         catalogGroup)
      grouped.
Proof.
  intros catalogGroup Hnone. unfold Rev0.addProduct.
  cbn [asSet withViews xmlFileName productId views].
  fold catalogGroup. rewrite Hnone, pushView_fold. cbn [fst snd app].
  rewrite Rev0_viewsOf_keys. unfold mapKeys. rewrite map_map.
  reflexivity.
Qed.

Lemma addProduct_fold (f : string) (products : list (Product unit)) :
  Forall (fun p => xmlFileName p = f) products ->
  NoDup (map productId products) ->
  fold_left (Rev0.addProduct localeCompare) (map asSet products) []
  = match products with
    | [] => []
    | _ :: _ =>
        [(basename f ".xml",
          map (fun p => (productId p,
                         (grayList localeCompare (asMap p),
                          nonGrayList localeCompare (asMap p))))
            products)]
    end.
Proof.
  induction products as [|p l IH] using rev_ind; intros Hf Hd; [reflexivity |].
  rewrite map_app, fold_left_app. cbn [map fold_left].
  apply Forall_app in Hf. destruct Hf as [Hl Hp].
  inversion Hp as [|? ? Hpf _]; subst.
  rewrite map_app in Hd. cbn [map] in Hd.
  assert (Hd' : NoDup (map productId l)).
  { now apply NoDup_app_remove_r in Hd. }
  assert (Hfresh : ~ In (productId p) (map productId l)).
  { apply NoDup_remove_2 in Hd. rewrite app_nil_r in Hd. exact Hd. }
  rewrite (IH Hl Hd').
  destruct l as [|q l'].
  - cbn [app]. rewrite addProduct_fresh; [reflexivity | reflexivity].
  - set (l := q :: l') in *.
    set (G := map (fun p0 => (productId p0,
                 (grayList localeCompare (asMap p0), nonGrayList localeCompare (asMap p0)))) l).
    assert (HG : ~ In (productId p) (mapKeys G)).
    { unfold G, mapKeys. now rewrite map_map. }
    rewrite addProduct_fresh.
    + cbn [mapGet assoc mapSet]. rewrite String.eqb_refl.
      rewrite (mapSet_absent _ _ _ HG).
      replace (match (l ++ [p])%list with [] => [] | _ :: _ => _ end)
        with [(basename (xmlFileName p) ".xml",
               map (fun p0 => (productId p0,
                      (grayList localeCompare (asMap p0),
                       nonGrayList localeCompare (asMap p0)))) (l ++ [p]))]
        by (unfold l; reflexivity).
      now rewrite map_app.
    + cbn [mapGet assoc]. rewrite String.eqb_refl. now apply mapGet_absent.
Qed.

(** X16.  For products of one catalog file with distinct product ids, the
    grouping of the oldest revision's [exportViewCSV] yields one group,
    named after the catalog file, and the text it writes for that group is
    the text the later revisions write for the same products. *)
Theorem inventory_agrees_across_revisions (f : string) (p : Product unit)
    (rest : list (Product unit)) :
  Forall (fun q => xmlFileName q = f) (p :: rest) ->
  NoDup (map productId (p :: rest)) ->
  exists catalogGroup,
    fold_left (Rev0.addProduct localeCompare)
      (map (fun q => withViews q (Rev0.viewsOf scriptDir sharpMetadata q)) (p :: rest)) []
    = [(basename f ".xml", catalogGroup)]
    /\ Rev0.catalogCsv catalogGroup
       = inventoryCsv localeCompare
           (map (fun q => withViews q (Rev1.viewsOf scriptDir sharpMetadata q)) (p :: rest)).
Proof.
  intros Hf Hd. eexists. split.
  - exact (addProduct_fold f (p :: rest) Hf Hd).
  - unfold Rev0.catalogCsv, inventoryCsv. now rewrite !map_map.
Qed.

End Revisions.

Lemma inventory_agrees_across_revisions_witness :
  exists catalogGroup,
    fold_left (Rev0.addProduct (P := Posix.path) codeUnitCompare)
      (map (fun q => withViews q (Rev0.viewsOf (P := Posix.path) repoDir probe800x600 q))
         [twoViewProduct; secondProduct]) []
    = [(basename (NodePath := Posix.path) "rockyboots_catalog.xml" ".xml", catalogGroup)]
    /\ Rev0.catalogCsv catalogGroup
       = inventoryCsv codeUnitCompare
           (map (fun q => withViews q
                            (Rev1.viewsOf (P := Posix.path) repoDir probe800x600 q))
              [twoViewProduct; secondProduct]).
Proof.
  apply (inventory_agrees_across_revisions (P := Posix.path) repoDir probe800x600
           codeUnitCompare "rockyboots_catalog.xml" twoViewProduct [secondProduct]).
  - repeat constructor.
  - repeat constructor; simpl; intuition discriminate.
Defined.


(** ** The manifest generator: the style map and the file store *)

Lemma parseStyleMap_fold (lines : list string) (styleMap : JSMap StyleInfo)
    (style : string) (info : StyleInfo) :
  mapGet style
    (fold_left
       (fun styleMap line =>
          match map JS.trim (JS.split "," line) with
          | i :: t :: style :: _ =>
              if JS.truthy style
              then mapSet style {| id := i; title := t |} styleMap
              else styleMap
          | _ => styleMap
          end) lines styleMap) = Some info ->
  mapGet style styleMap = Some info
  \/ (style <> ""
      /\ exists line rest,
           In line lines
           /\ map JS.trim (JS.split "," line) = id info :: title info :: style :: rest).
Proof.
  revert styleMap. induction lines as [|line lines IH]; intros styleMap H; [now left |].
  cbn [fold_left] in H. apply IH in H. destruct H as [H | [Hne [l [rest [Hl E]]]]].
  - destruct (map JS.trim (JS.split "," line)) as [|i [|t [|s more]]] eqn:E;
      try (now left).
    destruct (JS.truthy s) eqn:Es; [| now left].
    destruct (String.eqb_spec s style) as [-> | Hns].
    + rewrite mapGet_mapSet_same in H. injection H as <-. right. split.
      * now apply truthy_nonempty.
      * exists line, more. split; [now left | exact E].
    + rewrite mapGet_mapSet_other in H by exact Hns. now left.
  - right. split; [exact Hne |]. exists l, rest. split; [now right | exact E].
Qed.

(** X17.  Every entry of the style map [generateMatrixifyCSV] reads comes
    from a non-blank line after the first one (the header) with at least
    three comma-separated fields: the third, trimmed, is the style and is
    not empty; the first two, trimmed, are the id and the title. *)
Theorem parseStyleMap_entries (styleMapContent style : string) (info : StyleInfo) :
  mapGet style (parseStyleMap styleMapContent) = Some info ->
  style <> ""
  /\ JS.trim style = style /\ JS.trim (id info) = id info
  /\ JS.trim (title info) = title info
  /\ exists line rest,
       In line (tl (filter (fun line => JS.truthy (JS.trim line))
                      (JS.splitLines styleMapContent)))
       /\ map JS.trim (JS.split "," line) = id info :: title info :: style :: rest.
Proof.
  intros H. unfold parseStyleMap in H. apply parseStyleMap_fold in H.
  destruct H as [H | [Hne [line [rest [Hl E]]]]]; [discriminate |].
  assert (Ht : forall x, In x (map JS.trim (JS.split "," line)) -> JS.trim x = x).
  { intros x Hx. apply in_map_iff in Hx. destruct Hx as [y [<- _]]. apply trim_idempotent. }
  rewrite E in Ht.
  split; [exact Hne |].
  split; [apply Ht; right; right; now left |].
  split; [apply Ht; now left |].
  split; [apply Ht; right; now left |].
  exists line, rest. auto.
Qed.

Lemma parseStyleMap_entries_witness :
  "ABC123" <> ""
  /\ JS.trim "ABC123" = "ABC123" /\ JS.trim (id sampleStyleInfo) = id sampleStyleInfo
  /\ JS.trim (title sampleStyleInfo) = title sampleStyleInfo
  /\ exists line rest,
       In line (tl (filter (fun line => JS.truthy (JS.trim line))
                      (JS.splitLines sampleStyleMapContent)))
       /\ map JS.trim (JS.split "," line)
          = id sampleStyleInfo :: title sampleStyleInfo :: "ABC123" :: rest.
Proof.
  apply (parseStyleMap_entries sampleStyleMapContent "ABC123" sampleStyleInfo).
  reflexivity.
Defined.

(** X18.  Inventory rows that are blank or whose style the style map does
    not hold are skipped before their lists are looked at: a file of such
    rows gives a manifest without image rows, and never an exception. *)
Theorem manifest_skips_unknown_styles (styleMap : JSMap StyleInfo) (rows : list string) :
  (forall row, In row rows -> rowIsUsed styleMap row = false) ->
  manifestRows styleMap rows = Some [].
Proof.
  induction rows as [|row rest IH]; intros H; [reflexivity |].
  cbn [manifestRows].
  assert (Hrow : rowsOfInventoryRow styleMap row = Some []).
  { specialize (H row (or_introl eq_refl)). unfold rowIsUsed, styleOfRow in H.
    unfold rowsOfInventoryRow.
    destruct (JS.truthy (JS.trim row)); [| reflexivity]. cbn [negb andb] in *.
    destruct (mapGet (nth 0 (parseInventoryRow row) "") styleMap); [discriminate | reflexivity]. }
  rewrite Hrow, IH; [reflexivity |].
  intros r Hr. apply H. now right.
Qed.

Lemma manifest_skips_unknown_styles_witness :
  manifestRows sampleStyleMap [sampleUnknownLine; ""] = Some [].
Proof.
  apply (manifest_skips_unknown_styles sampleStyleMap [sampleUnknownLine; ""]).
  intros row [<- | [<- | []]]; reflexivity.
Defined.

Section GeneratorFrame.

Context {P : NodePath}.

Lemma storeFile_frame (f f' : FS) (p content : string) :
  storeFile f p content = Some f' ->
  dirs f' = dirs f
  /\ assoc p (files f') = Some content
  /\ forall q, q <> p -> assoc q (files f') = assoc q (files f).
Proof.
  unfold storeFile. destruct (isDir f (dirname p) && negb (isDir f p)); [| discriminate].
  intros [= <-]. cbn [dirs files]. split; [reflexivity |]. split.
  - apply (mapGet_mapSet_same p content (files f)).
  - intros q Hq. apply (mapGet_mapSet_other q p content (files f)). congruence.
Qed.

(** X19.  [generateMatrixifyCSV] never ends the process; it creates no
    directory and touches no file but [outPath]; and [outPath] afterwards
    holds what it held before, or the manifest computed from the contents of
    the style map file and the inventory file.  The console only grows. *)
Theorem generateMatrixifyCSV_frame (styleMapFile inventoryFile outPath : string)
    (w : World) :
  let outcome := generateMatrixifyCSV styleMapFile inventoryFile outPath w in
  (exists w', outcome = Done tt w' \/ outcome = Uncaught w')
  /\ dirs (fs (worldOf outcome)) = dirs (fs w)
  /\ (forall p, p <> outPath ->
        assoc p (files (fs (worldOf outcome))) = assoc p (files (fs w)))
  /\ (assoc outPath (files (fs (worldOf outcome))) = assoc outPath (files (fs w))
      \/ exists styleMapContent inventoryContent csvText,
           assoc styleMapFile (files (fs w)) = Some styleMapContent
           /\ assoc inventoryFile (files (fs w)) = Some inventoryContent
           /\ manifestCsv styleMapContent inventoryContent = Some csvText
           /\ assoc outPath (files (fs (worldOf outcome))) = Some csvText)
  /\ exists events, trace (worldOf outcome) = (trace w ++ events)%list.
Proof.
  intros outcome. subst outcome.
  unfold generateMatrixifyCSV, bind, existsSync, readFileSync, console, emit, throw,
    writeFileSync.
  destruct (present (fs w) styleMapFile); cbn [negb];
    [| split; [eexists; left; reflexivity |]; cbn [worldOf fs trace];
       repeat split; auto; eexists; reflexivity].
  destruct (assoc styleMapFile (files (fs w))) as [styleMapContent|] eqn:Es;
    [| split; [eexists; right; reflexivity |]; cbn [worldOf];
       repeat split; auto; exists []; now rewrite app_nil_r].
  destruct (present (fs w) inventoryFile); cbn [negb];
    [| split; [eexists; left; reflexivity |]; cbn [worldOf fs trace];
       repeat split; auto; eexists; reflexivity].
  destruct (assoc inventoryFile (files (fs w))) as [inventoryContent|] eqn:Ei;
    [| split; [eexists; right; reflexivity |]; cbn [worldOf];
       repeat split; auto; exists []; now rewrite app_nil_r].
  destruct (manifestCsv styleMapContent inventoryContent) as [csvText|] eqn:Em;
    [| split; [eexists; right; reflexivity |]; cbn [worldOf];
       repeat split; auto; exists []; now rewrite app_nil_r].
  destruct (storeFile (fs w) outPath csvText) as [f'|] eqn:Ef;
    [| split; [eexists; right; reflexivity |]; cbn [worldOf fs trace];
       repeat split; auto; eexists; reflexivity].
  destruct (storeFile_frame _ _ _ _ Ef) as [Hd [Hout Hother]].
  split; [eexists; left; reflexivity |]. cbn [worldOf fs trace].
  split; [exact Hd |]. split; [exact Hother |]. split.
  - right. exists styleMapContent, inventoryContent, csvText. auto.
  - eexists. rewrite <- app_assoc. reflexivity.
Qed.

End GeneratorFrame.

(** ** The names that pair a catalog with its styles list *)

Lemma prefix_split (p s : string) :
  String.prefix p s = true -> exists rest, s = p ++ rest.
Proof.
  revert s. induction p as [|c p IH]; intros s H.
  - now exists s.
  - destruct s as [|d s]; [discriminate |].
    rewrite prefix_cons in H. destruct (ascii_dec c d) as [-> | _]; [| discriminate].
    destruct (IH s H) as [rest ->]. now exists rest.
Qed.

Lemma includesChar_split (c : ascii) (s : string) :
  JS.includesChar c s = true ->
  exists pre post, s = pre ++ String c post /\ JS.includesChar c pre = false.
Proof.
  induction s as [|d s IH]; [discriminate |]. cbn [JS.includesChar].
  destruct (Ascii.eqb_spec d c) as [-> | Hne]; cbn [orb].
  - intros _. now exists "", s.
  - intros H. destruct (IH H) as [pre [post [-> Hpre]]].
    exists (String d pre), post. split; [reflexivity |].
    cbn [JS.includesChar]. rewrite Hpre.
    destruct (Ascii.eqb_spec d c); [contradiction | reflexivity].
Qed.

Lemma first_occurrence_unique (c : ascii) (a b x y : string) :
  JS.includesChar c a = false -> JS.includesChar c b = false ->
  a ++ String c x = b ++ String c y -> a = b.
Proof.
  revert b. induction a as [|d a IH]; intros [|e b] Ha Hb H.
  - reflexivity.
  - cbn [append] in H. injection H as <- _.
    cbn [JS.includesChar] in Hb. now rewrite Ascii.eqb_refl in Hb.
  - cbn [append] in H. injection H as -> _.
    cbn [JS.includesChar] in Ha. now rewrite Ascii.eqb_refl in Ha.
  - rewrite !append_cons in H. injection H as -> H.
    cbn [JS.includesChar] in Ha, Hb.
    apply orb_false_iff in Ha. apply orb_false_iff in Hb.
    f_equal. now apply IH.
Qed.

Lemma prefix_behind (c : ascii) (needle v : string) :
  JS.includesChar c needle = true -> JS.includesChar c v = false ->
  JS.truthy v = true ->
  String.prefix needle (v ++ needle) = false.
Proof.
  intros Hn Hv Ht. destruct (String.prefix needle (v ++ needle)) eqn:E; [| reflexivity].
  exfalso. apply prefix_split in E. destruct E as [rest E].
  destruct (includesChar_split c needle Hn) as [pre [post [-> Hpre]]].
  rewrite !append_assoc in E. rewrite <- append_assoc in E.
  apply first_occurrence_unique in E.
  - apply (f_equal String.length) in E. rewrite length_append in E.
    destruct v; [discriminate | simpl in E; lia].
  - rewrite includesChar_append, Hv, Hpre. reflexivity.
  - exact Hpre.
Qed.

Lemma prefix_needs_char (c : ascii) (needle s : string) :
  JS.includesChar c needle = true -> JS.includesChar c s = false ->
  String.prefix needle s = false.
Proof.
  intros Hn Hs. destruct (String.prefix needle s) eqn:E; [| reflexivity].
  apply prefix_split in E. destruct E as [rest ->].
  rewrite includesChar_append, Hn in Hs. discriminate.
Qed.

Lemma removeFirst_suffix (c : ascii) (needle v : string) :
  JS.includesChar c needle = true -> JS.includesChar c v = false ->
  JS.removeFirst needle (v ++ needle) = v.
Proof.
  intros Hn. induction v as [|d v IH]; intros Hv.
  - cbn [append]. destruct needle as [|e needle]; [discriminate |].
    cbn [JS.removeFirst].
    rewrite <- (append_nil_r (String e needle)) at 2. rewrite prefix_append.
    rewrite <- (append_nil_r (String e needle)) at 2. apply sliceFrom_append.
  - pose proof (prefix_behind c needle (String d v) Hn Hv eq_refl) as Hp.
    rewrite append_cons in *. cbn [JS.removeFirst]. rewrite Hp.
    cbn [JS.includesChar] in Hv. apply orb_false_iff in Hv. now rewrite IH.
Qed.

Lemma removeFirst_absent (c : ascii) (needle s : string) :
  JS.includesChar c needle = true -> JS.includesChar c s = false ->
  JS.removeFirst needle s = s.
Proof.
  intros Hn. induction s as [|d s IH]; intros Hs.
  - cbn [JS.removeFirst]. now rewrite (prefix_needs_char c needle "" Hn).
  - cbn [JS.removeFirst]. rewrite (prefix_needs_char c needle _ Hn Hs).
    cbn [JS.includesChar] in Hs. apply orb_false_iff in Hs. now rewrite IH.
Qed.

Lemma removeFirst_catalog_absent (s : string) :
  JS.includesChar "." s = false -> JS.endsWith s "_catalog" = false ->
  JS.removeFirst "_catalog.xml" (s ++ ".xml") = s ++ ".xml".
Proof.
  induction s as [|d t IH]; intros Hdot Hend; [reflexivity |].
  cbn [JS.endsWith] in Hend. apply orb_false_iff in Hend. destruct Hend as [Hne Hend].
  assert (Hp : String.prefix "_catalog.xml" (String d t ++ ".xml") = false).
  { destruct (String.prefix "_catalog.xml" (String d t ++ ".xml")) eqn:E; [| reflexivity].
    exfalso. apply prefix_split in E. destruct E as [rest E].
    change (String d t ++ ".xml") with (String d t ++ String "." "xml") in E.
    change ("_catalog.xml" ++ rest) with ("_catalog" ++ String "." ("xml" ++ rest)) in E.
    apply first_occurrence_unique in E; [| exact Hdot | reflexivity].
    rewrite E, String.eqb_refl in Hne. discriminate. }
  rewrite append_cons in *. cbn [JS.removeFirst]. rewrite Hp.
  cbn [JS.includesChar] in Hdot. apply orb_false_iff in Hdot. destruct Hdot as [_ Hdot].
  now rewrite IH.
Qed.

Lemma endsWith_split (s p : string) :
  JS.endsWith s p = true -> exists a, s = a ++ p.
Proof.
  induction s as [|c s IH]; cbn [JS.endsWith]; intros H.
  - rewrite orb_false_r in H. apply String.eqb_eq in H. subst p. now exists "".
  - apply orb_true_iff in H. destruct H as [H | H].
    + apply String.eqb_eq in H. subst p. now exists "".
    + destruct (IH H) as [a ->]. now exists (String c a).
Qed.

(** X20.  The names that pair a catalog with its styles list: for a base
    name without a dot, the styles file [base_styles.txt] is loaded under the
    key [base], and that is the key the catalog file [base_catalog.xml] is
    looked up with; a catalog file [base.xml] is looked up with [base] too,
    unless [base] ends in [_catalog], which is cut off as well. *)
Theorem catalog_meets_styles_by_name (base content : string) :
  JS.includesChar "." base = false ->
  JS.endsWith (base ++ "_styles.txt") "_styles.txt" = true
  /\ JS.endsWith (base ++ "_catalog.xml") ".xml" = true
  /\ loadStylesMap [(base ++ "_styles.txt", content)] = [(base, styleSetOf content)]
  /\ catalogBaseName (base ++ "_catalog.xml") = base
  /\ catalogBaseName (base ++ ".xml")
     = (if JS.endsWith base "_catalog" then JS.dropLast 8 base else base).
Proof.
  intros Hb.
  assert (Hs : JS.removeFirst "_styles.txt" (base ++ "_styles.txt") = base).
  { now apply (removeFirst_suffix "."). }
  assert (Hc : forall b, JS.includesChar "." b = false ->
                 JS.removeFirst ".xml" (JS.removeFirst "_catalog.xml" (b ++ "_catalog.xml"))
                 = b).
  { intros b Hdot. rewrite (removeFirst_suffix "." "_catalog.xml" b eq_refl Hdot).
    now apply (removeFirst_absent "."). }
  split; [apply endsWith_append |]. split.
  { change "_catalog.xml" with ("_catalog" ++ ".xml"). rewrite <- append_assoc.
    apply endsWith_append. }
  split.
  { unfold loadStylesMap. cbn [filter fst snd]. rewrite endsWith_append.
    cbn [fold_left fst snd mapSet]. now rewrite Hs. }
  unfold catalogBaseName. split; [now apply Hc |].
  destruct (JS.endsWith base "_catalog") eqn:Hend.
  - apply endsWith_split in Hend. destruct Hend as [b ->].
    rewrite includesChar_append in Hb. apply orb_false_iff in Hb. destruct Hb as [Hb _].
    rewrite append_assoc. change ("_catalog" ++ ".xml") with "_catalog.xml".
    rewrite (Hc b Hb). unfold JS.dropLast. rewrite length_append.
    change (String.length "_catalog") with 8.
    replace (String.length b + 8 - 8) with (String.length b) by lia.
    symmetry. apply substring_prefix.
  - rewrite (removeFirst_catalog_absent base Hb Hend).
    now apply (removeFirst_suffix ".").
Qed.

Lemma catalog_meets_styles_by_name_witness :
  JS.endsWith ("rockyboots" ++ "_styles.txt") "_styles.txt" = true
  /\ JS.endsWith ("rockyboots" ++ "_catalog.xml") ".xml" = true
  /\ loadStylesMap [("rockyboots" ++ "_styles.txt", "ABC123")]
     = [("rockyboots", styleSetOf "ABC123")]
  /\ catalogBaseName ("rockyboots" ++ "_catalog.xml") = "rockyboots"
  /\ catalogBaseName ("rockyboots" ++ ".xml")
     = (if JS.endsWith "rockyboots" "_catalog" then JS.dropLast 8 "rockyboots"
        else "rockyboots").
Proof.
  apply (catalog_meets_styles_by_name "rockyboots" "ABC123"). reflexivity.
Defined.

(** ** What follows [processProductViews] in part_001 *)

Section ThenBody.

Context {P : NodePath}.
Variable scriptDir : string.
Variable localeCompare : string -> string -> Z.

Lemma exportViewCSV_done (activeCatalogBase : string)
    (products : list (Product (JSMap string))) (w w1 : World) :
  Rev1.exportViewCSV scriptDir localeCompare activeCatalogBase products w = Done tt w1 ->
  assoc (Rev1.inventoryPath scriptDir activeCatalogBase) (files (fs w1))
  = Some (inventoryCsv localeCompare products)
  /\ forall q, q <> Rev1.inventoryPath scriptDir activeCatalogBase ->
       assoc q (files (fs w1)) = assoc q (files (fs w)).
Proof.
  unfold Rev1.exportViewCSV, bind, writeFileSync, console, emit.
  destruct (storeFile (fs w) _ _) as [f'|] eqn:E; [| discriminate].
  intros [= <-]. cbn [fs]. apply storeFile_frame in E. tauto.
Qed.

Lemma copyView_keeps (productId : string) (entry : string * string) (w : World) :
  exists w',
    Rev1.copyView scriptDir productId entry w = Done tt w'
    /\ forall q, q <> pjoin [outputDir scriptDir; outputFileName productId (fst entry)] ->
         assoc q (files (fs w')) = assoc q (files (fs w)).
Proof.
  unfold Rev1.copyView, bind, tryCopyFileSync, console, emit.
  destruct (assoc _ (files (fs w))) as [content|].
  - destruct (storeFile (fs w) _ content) as [f'|] eqn:E.
    + eexists. split; [reflexivity |]. cbn [fs].
      apply storeFile_frame in E. tauto.
    + eexists. split; [reflexivity |]. reflexivity.
  - eexists. split; [reflexivity |]. reflexivity.
Qed.

Lemma copyViews_keep (productId : string) (entries : list (string * string)) (w : World) :
  exists w',
    forEach entries (Rev1.copyView scriptDir productId) w = Done tt w'
    /\ forall q,
         (forall entry, In entry entries ->
            q <> pjoin [outputDir scriptDir; outputFileName productId (fst entry)]) ->
         assoc q (files (fs w')) = assoc q (files (fs w)).
Proof.
  revert w. induction entries as [|entry rest IH]; intros w.
  - exists w. now split.
  - destruct (copyView_keeps productId entry w) as [w1 [E1 K1]].
    destruct (IH w1) as [w2 [E2 K2]].
    exists w2. cbn [forEach]. unfold bind. rewrite E1. split; [exact E2 |].
    intros q Hq. rewrite K2, K1; [reflexivity | |].
    + apply Hq. now left.
    + intros e He. apply Hq. now right.
Qed.

Lemma copyImagesToOutput_keeps (products : list (Product (JSMap string))) (w : World) :
  exists w',
    Rev1.copyImagesToOutput scriptDir products w = Done tt w'
    /\ forall q,
         (forall p entry, In p products -> In entry (views p) ->
            q <> pjoin [outputDir scriptDir; outputFileName (productId p) (fst entry)]) ->
         assoc q (files (fs w')) = assoc q (files (fs w)).
Proof.
  unfold Rev1.copyImagesToOutput.
  assert (H : exists w',
             forEach products
               (fun product => forEach (views product)
                                 (Rev1.copyView scriptDir (productId product))) w
             = Done tt w'
             /\ forall q,
                  (forall p entry, In p products -> In entry (views p) ->
                     q <> pjoin [outputDir scriptDir;
                                 outputFileName (productId p) (fst entry)]) ->
                  assoc q (files (fs w')) = assoc q (files (fs w))).
  { revert w. induction products as [|p rest IH]; intros w.
    - exists w. now split.
    - destruct (copyViews_keep (productId p) (views p) w) as [w1 [E1 K1]].
      destruct (IH w1) as [w2 [E2 K2]].
      exists w2. cbn [forEach]. unfold bind. rewrite E1. split; [exact E2 |].
      intros q Hq. rewrite K2, K1; [reflexivity | |].
      + intros e He. apply (Hq p e); [now left | exact He].
      + intros p' e Hp' He. apply (Hq p' e); [now right | exact He]. }
  destruct H as [w1 [E1 K1]].
  eexists. unfold bind. rewrite E1. unfold console, emit. split; [reflexivity |].
  cbn [fs]. exact K1.
Qed.

Lemma manifestCsv_of_inventory (styleMapContent : string)
    (products : list (Product (JSMap string))) :
  forallb plainNames products = true ->
  exists rows,
    manifestRows (parseStyleMap styleMapContent)
      (map (inventoryRow localeCompare) products) = Some rows
    /\ map rowImageSrc rows
       = flat_map (manifestNamesOf localeCompare (parseStyleMap styleMapContent)) products
    /\ manifestCsv styleMapContent (inventoryCsv localeCompare products)
       = Some (manifestText rows).
Proof.
  intros H.
  destruct (manifestRows_of_inventory localeCompare (parseStyleMap styleMapContent)
              products H) as [rows [Hrows Hsrc]].
  exists rows. split; [exact Hrows |]. split; [exact Hsrc |].
  unfold manifestCsv. rewrite (inventoryCsv_lines localeCompare products H). cbn [tl].
  now rewrite Hrows.
Qed.

(** X21.  The three calls that follow [processProductViews] in part_001, for
    products with plain ids and file names: once [exportViewCSV] has written
    the inventory, the copier (which never writes the inventory or the style
    map file) and [generateMatrixifyCSV] run to the point where the manifest
    is written, and the manifest is the one whose image sources are, product
    by product, the file names of the gray list when it is not empty and of
    the non-gray list otherwise.  The run ends normally with that text in
    [outPath], or in the exception of the failed write of [outPath]. *)
Theorem manifest_follows_export (activeCatalogBase styleMapContent : string)
    (products : list (Product (JSMap string))) (w w1 : World) :
  forallb plainNames products = true ->
  assoc (Rev1.styleMapFile scriptDir activeCatalogBase) (files (fs w))
  = Some styleMapContent ->
  Rev1.styleMapFile scriptDir activeCatalogBase
  <> Rev1.inventoryPath scriptDir activeCatalogBase ->
  (forall p entry, In p products -> In entry (views p) ->
     let destPath := pjoin [outputDir scriptDir;
                            outputFileName (productId p) (fst entry)] in
     Rev1.inventoryPath scriptDir activeCatalogBase <> destPath
     /\ Rev1.styleMapFile scriptDir activeCatalogBase <> destPath) ->
  Rev1.exportViewCSV scriptDir localeCompare activeCatalogBase products w = Done tt w1 ->
  exists rows w3,
    manifestRows (parseStyleMap styleMapContent)
      (map (inventoryRow localeCompare) products) = Some rows
    /\ map rowImageSrc rows
       = flat_map (manifestNamesOf localeCompare (parseStyleMap styleMapContent)) products
    /\ let rest :=
         (Rev1.copyImagesToOutput scriptDir products ;;
          generateMatrixifyCSV (Rev1.styleMapFile scriptDir activeCatalogBase)
            (Rev1.inventoryPath scriptDir activeCatalogBase)
            (Rev1.outPath scriptDir activeCatalogBase)) w1 in
       (rest = Done tt w3
        /\ assoc (Rev1.outPath scriptDir activeCatalogBase) (files (fs w3))
           = Some (manifestText rows))
       \/ (rest = Uncaught w3
           /\ storeFile (fs w3) (Rev1.outPath scriptDir activeCatalogBase)
                (manifestText rows) = None).
Proof.
  intros Hplain Hstyle Hne Hdst Hexport.
  destruct (manifestCsv_of_inventory styleMapContent products Hplain)
    as [rows [Hrows [Hsrc Hcsv]]].
  destruct (exportViewCSV_done _ _ _ _ Hexport) as [Hinv Hkeep].
  destruct (copyImagesToOutput_keeps products w1) as [w2 [Hcopy Hcopied]].
  assert (Hinv2 : assoc (Rev1.inventoryPath scriptDir activeCatalogBase) (files (fs w2))
                  = Some (inventoryCsv localeCompare products)).
  { rewrite Hcopied; [exact Hinv |]. intros p e Hp He. now apply (Hdst p e Hp He). }
  assert (Hstyle2 : assoc (Rev1.styleMapFile scriptDir activeCatalogBase) (files (fs w2))
                    = Some styleMapContent).
  { rewrite Hcopied; [| intros p e Hp He; now apply (Hdst p e Hp He)].
    rewrite Hkeep; [exact Hstyle | exact Hne]. }
  exists rows.
  set (csvText := manifestText rows) in *.
  assert (Hrun : (Rev1.copyImagesToOutput scriptDir products ;;
                  generateMatrixifyCSV (Rev1.styleMapFile scriptDir activeCatalogBase)
                    (Rev1.inventoryPath scriptDir activeCatalogBase)
                    (Rev1.outPath scriptDir activeCatalogBase)) w1
                 = (writeFileSync (Rev1.outPath scriptDir activeCatalogBase) csvText ;;
                    console LOG ("Matrixify CSV written to: "
                                 ++ Rev1.outPath scriptDir activeCatalogBase)) w2).
  { unfold bind at 1. rewrite Hcopy.
    assert (Hp1 : present (fs w2) (Rev1.styleMapFile scriptDir activeCatalogBase) = true).
    { unfold present, isFile. rewrite Hstyle2. apply orb_true_r. }
    assert (Hp2 : present (fs w2) (Rev1.inventoryPath scriptDir activeCatalogBase) = true).
    { unfold present, isFile. rewrite Hinv2. apply orb_true_r. }
    unfold generateMatrixifyCSV. unfold bind at 1. unfold existsSync at 1.
    rewrite Hp1. cbn [negb]. unfold bind at 1. unfold readFileSync at 1.
    rewrite Hstyle2. unfold bind at 1. unfold existsSync at 1.
    rewrite Hp2. cbn [negb]. unfold bind at 1. unfold readFileSync at 1.
    rewrite Hinv2, Hcsv. reflexivity. }
  destruct (storeFile (fs w2) (Rev1.outPath scriptDir activeCatalogBase) csvText)
    as [f'|] eqn:Estore.
  - eexists. split; [exact Hrows |]. split; [exact Hsrc |].
    cbv zeta. left. rewrite Hrun.
    unfold bind, writeFileSync, console, emit. rewrite Estore.
    split; [reflexivity |].
    cbn [fs]. apply storeFile_frame in Estore. tauto.
  - eexists. split; [exact Hrows |]. split; [exact Hsrc |].
    cbv zeta. right. rewrite Hrun.
    unfold bind, writeFileSync, console, emit. rewrite Estore.
    split; [reflexivity |].
    cbn [fs]. exact Estore.
Qed.

End ThenBody.

Lemma manifest_follows_export_witness :
  exists rows w3,
    manifestRows (parseStyleMap sampleStyleMapContent)
      (map (inventoryRow codeUnitCompare) [resolvedTwoViewProduct]) = Some rows
    /\ map rowImageSrc rows
       = flat_map (manifestNamesOf codeUnitCompare (parseStyleMap sampleStyleMapContent))
           [resolvedTwoViewProduct]
    /\ let rest :=
         (Rev1.copyImagesToOutput (P := Posix.path) repoDir [resolvedTwoViewProduct] ;;
          generateMatrixifyCSV (P := Posix.path)
            (Rev1.styleMapFile (P := Posix.path) repoDir "rockyboots")
            (Rev1.inventoryPath (P := Posix.path) repoDir "rockyboots")
            (Rev1.outPath (P := Posix.path) repoDir "rockyboots"))
           (worldOf (Rev1.exportViewCSV (P := Posix.path) repoDir codeUnitCompare
                       "rockyboots" [resolvedTwoViewProduct] exportWorld)) in
       (rest = Done tt w3
        /\ assoc (Rev1.outPath (P := Posix.path) repoDir "rockyboots") (files (fs w3))
           = Some (manifestText rows))
       \/ (rest = Uncaught w3
           /\ storeFile (P := Posix.path) (fs w3)
                (Rev1.outPath (P := Posix.path) repoDir "rockyboots")
                (manifestText rows) = None).
Proof.
  apply (manifest_follows_export (P := Posix.path) repoDir codeUnitCompare "rockyboots"
           sampleStyleMapContent [resolvedTwoViewProduct] exportWorld).
  - reflexivity.
  - reflexivity.
  - vm_compute. discriminate.
  - intros p entry [<- | []] He. vm_compute in He.
    destruct He as [<- | [<- | []]]; split; vm_compute; discriminate.
  - reflexivity.
Defined.

(** ** Two images with one key *)

Section Collisions.

Context {P : NodePath}.
Variable scriptDir : string.
Variable sharpMetadata : string -> option Metadata.
Variable localeCompare : string -> string -> Z.




End Collisions.


